(** * background.js of the ads.txt / app-ads.txt checker: a shallow embedding

    The service worker keeps three maps keyed by tab id, six settings
    globals and a sellers.json cache in [chrome.storage.local].  Every
    handler is embedded as a function that takes the state before and
    gives the state after together with the host calls it made.  What the
    host answers (the clock, the network, [chrome.tabs], the injected page
    script) is passed in explicitly, so each function below is executable.

    Conventions.
    - JavaScript numbers are modelled by [JsNumber]: the integers, NaN and
      the two infinities, [NFin z] standing for the Number nearest to [z].
      Fractions are outside the model.
    - The values that reach the program (the registry, the page ids, the
      messages) are data: they come out of JSON or a structured clone, so
      no property of theirs is a function.
    - Time stamps, tab ids and the numbers of the settings are integers
      ([Z]); the storage holds an array under [CACHE_KEY] and an integer
      under [CACHE_TS_KEY], or nothing.
    - A handler runs to completion against the answers of the host; other
      handlers are not interleaved between its [await]s.  The clock is read
      once per synchronous block.
    - [setTimeout(f, ms)] at time [now] is due at [now + ms]; the host runs
      [f] once, not before it is due, unless the timeout is cleared.
    - A scan reads what the function injected into the page (lines
      128-185) resolved to as an answer of the host; the function itself
      is embedded on its own as [pageScript]. *)

From Stdlib Require Import Ascii String ZArith.
From stdpp Require Import gmap strings list pretty.

Open Scope string_scope.
Open Scope list_scope.
Open Scope Z_scope.

Set Warnings "-register-all".

(** ** JavaScript values *)

Inductive JsNumber :=
| NFin (z : Z)
| NNaN
| NPosInf
| NNegInf.

Inductive JsValue :=
| JUndefined
| JNull
| JBool (b : bool)
| JNum (n : JsNumber)
| JStr (s : string)
| JArr (elems : list JsValue)
| JObj (props : list (string * JsValue)).

Inductive JsError :=
| TypeError
| SyntaxError
| AbortError
| NetworkFailure
| HttpError (status : Z).

(** The outcome of evaluating something that may [throw]. *)
Inductive Completion (A : Type) :=
| Normal (a : A)
| Thrown (e : JsError).
Arguments Normal {A} a.
Arguments Thrown {A} e.

Definition cbind {A B} (c : Completion A) (k : A → Completion B) : Completion B :=
  match c with
  | Normal a => k a
  | Thrown e => Thrown e
  end.

#[global] Instance Completion_ret : MRet Completion := λ A a, Normal a.
#[global] Instance Completion_bind : MBind Completion := λ A B k c, cbind c k.

(** *** [String(v)]

    A finite Number prints as the decimal with the fewest digits that
    reads back as that Number (Number::toString): in full up to 21
    digits, with an exponent from there on. *)

(** The Number nearest to the positive integer [v], ties to even.  The
    integers below 2^53 are Numbers; above, the Numbers are [2^(e-52)]
    apart, [e] being the position of the leading bit of [v]. *)
Definition to_double (v : Z) : Z :=
  let e := Z.log2 v in
  if e <? 53 then v
  else
    let ulp := 2 ^ (e - 52) in
    let q := v / ulp in
    let r := v mod ulp in
    (if 2 * r <? ulp then q
     else if ulp <? 2 * r then q + 1
     else if Z.even q then q else q + 1) * ulp.

(** The decimal of [k] digits or more, followed by zeros up to the [n]
    digits of [v], that reads back as [v]: with [k] digits if there is
    one, the nearer to [v] if there are two, the even one if both are as
    near. *)
Fixpoint shortest (v n : Z) (fuel : nat) (k : Z) : Z :=
  match fuel with
  | O => v
  | S fuel' =>
      let g := 10 ^ (n - k) in
      let lo := v / g * g in
      let hi := lo + g in
      match to_double lo =? v, to_double hi =? v with
      | true, true =>
          if v - lo <? hi - v then lo
          else if hi - v <? v - lo then hi
          else if Z.even (v / g) then lo else hi
      | true, false => lo
      | false, true => hi
      | false, false => shortest v n fuel' (k + 1)
      end
  end.

Fixpoint strip_zeros (s : string) : string :=
  match s with
  | EmptyString => EmptyString
  | String c rest =>
      match strip_zeros rest with
      | EmptyString => if Ascii.eqb c "0" then EmptyString else String c EmptyString
      | r => String c r
      end
  end.

(** The digits of [c], shortened to [d.ddde+x] when there are more than
    21 of them. *)
Definition decimal_of (c : Z) : string :=
  if c <? 10 ^ 21 then pretty c
  else
    let exponent := pretty (Z.of_nat (String.length (pretty c)) - 1) in
    match strip_zeros (pretty c) with
    | String d EmptyString => String d EmptyString +:+ "e+" +:+ exponent
    | String d rest => String d ("." +:+ rest) +:+ "e+" +:+ exponent
    | EmptyString => pretty c
    end.

(** [NFin z] stands for the Number nearest to [z]. *)
Definition number_to_string (n : JsNumber) : string :=
  match n with
  | NFin z =>
      if z =? 0 then "0"
      else
        let v := to_double (Z.abs z) in
        let digits := String.length (pretty v) in
        let text :=
          if 1024 <=? Z.log2 v then "Infinity"
          else decimal_of (shortest v (Z.of_nat digits) digits 1) in
        if z <? 0 then "-" +:+ text else text
  | NNaN => "NaN"
  | NPosInf => "Infinity"
  | NNegInf => "-Infinity"
  end.

Fixpoint join_with (sep : string) (parts : list string) : string :=
  match parts with
  | [] => ""
  | [p] => p
  | p :: rest => p +:+ sep +:+ join_with sep rest
  end.

(** [obj.hasOwnProperty(k)] *)
Definition has_own (k : string) (props : list (string * JsValue)) : bool :=
  existsb (λ kv, String.eqb k kv.1) props.

(** The string that [String(v)] gives, [None] where it throws.  The
    values are data (they come out of JSON or a structured clone), so no
    property holds a function.  An object is converted by its [toString]:
    the inherited one gives "[object Object]"; an own property of that
    name is not callable, nor does [valueOf] then yield a primitive, and
    the conversion throws a TypeError.  An array joins the string forms of
    its elements, [null] and [undefined] giving the empty string. *)
Fixpoint string_form (v : JsValue) : option string :=
  match v with
  | JUndefined => Some "undefined"
  | JNull => Some "null"
  | JBool true => Some "true"
  | JBool false => Some "false"
  | JNum n => Some (number_to_string n)
  | JStr s => Some s
  | JArr elems =>
      join_with "," <$>
        (fix each (l : list JsValue) : option (list string) :=
           match l with
           | [] => Some []
           | x :: rest =>
               match match x with
                     | JUndefined | JNull => Some ""
                     | _ => string_form x
                     end, each rest with
               | Some p, Some ps => Some (p :: ps)
               | _, _ => None
               end
           end) elems
  | JObj props => if has_own "toString" props then None else Some "[object Object]"
  end.

(** [String(v)]. *)
Definition js_String (v : JsValue) : Completion string :=
  match string_form v with
  | Some s => Normal s
  | None => Thrown TypeError
  end.

(** Truthiness, as used by [!x], [x && y] and [x || y]. *)
Definition truthy (v : JsValue) : bool :=
  match v with
  | JUndefined | JNull => false
  | JBool b => b
  | JNum (NFin z) => negb (z =? 0)
  | JNum NNaN => false
  | JNum _ => true
  | JStr s => negb (String.eqb s "")
  | JArr _ | JObj _ => true
  end.

Definition nullish (v : JsValue) : bool :=
  match v with
  | JUndefined | JNull => true
  | _ => false
  end.

Fixpoint assoc (k : string) (props : list (string * JsValue)) : JsValue :=
  match props with
  | [] => JUndefined
  | (k', v) :: rest => if String.eqb k k' then v else assoc k rest
  end.

(** [v.k] for the property names this program reads ([sellers],
    [seller_id], [result], [ok], [ids]): a TypeError on [null] and
    [undefined], the own property of an object, [undefined] elsewhere. *)
Definition get_prop (v : JsValue) (k : string) : Completion JsValue :=
  match v with
  | JUndefined | JNull => Thrown TypeError
  | JObj props => Normal (assoc k props)
  | _ => Normal JUndefined
  end.

(** [Number.isFinite(v)]: a number, and neither NaN nor infinite. *)
Definition Number_isFinite (v : JsValue) : bool :=
  match v with
  | JNum (NFin _) => true
  | _ => false
  end.

(** ** Constants (lines 7-15) *)

Definition DEFAULT_SELLERS_URL : string := "https://adwmg.com/sellers.json".
Definition BADGE_BG_COLOR : string := "#21aeb3".
Definition SCAN_COOLDOWN_MS : Z := 60 * 1000.
Definition FETCH_TIMEOUT_MS : Z := 8000.
Definition FETCH_RETRIES : Z := 1.

(** ** The matcher (lines 227-233 of doScanForTab) *)

Fixpoint mapC {A B} (f : A → Completion B) (l : list A) : Completion (list B) :=
  match l with
  | [] => Normal []
  | x :: rest =>
      y ← f x;
      ys ← mapC f rest;
      Normal (y :: ys)
  end.

(** [new Set(sellers.map(s => String(s.seller_id)))] *)
Definition buildSellersSet (sellers : list JsValue) : Completion (gset string) :=
  ids ← mapC (λ s, id ← get_prop s "seller_id"; js_String id) sellers;
  Normal (list_to_set ids).

(** [for (const id of pageIds) if (sellersSet.has(String(id))) matches++],
    from the count [matches] on. *)
Fixpoint countMatches (sellersSet : gset string) (pageIds : list JsValue) (matches : nat)
    : Completion nat :=
  match pageIds with
  | [] => Normal matches
  | id :: rest =>
      s ← js_String id;
      countMatches sellersSet rest (if decide (s ∈ sellersSet) then S matches else matches)
  end.

Definition matchIds (pageIds sellers : list JsValue) : Completion nat :=
  sellersSet ← buildSellersSet sellers;
  countMatches sellersSet pageIds 0.

(** ** Network helper (lines 30-45) *)

Record Response := {
  res_ok : bool;
  res_status : Z;
  res_json : Completion JsValue   (* what [res.json()] settles to *)
}.

(** What one call of [fetch] settles to.  A timeout shows up as a rejection:
    the abort timer fired and the fetch was aborted. *)
Inductive FetchOutcome :=
| Resolved (res : Response)
| Rejected (err : JsError).

(** The answers of the network to the successive attempts of one call. *)
Definition Network := nat → FetchOutcome.

(** Host calls made by [fetchWithTimeoutAndRetry].  The abort timer of an
    iteration is named after the iteration that created it. *)
Inductive NetEvent :=
| SetAbortTimer (attempt : nat) (ms : Z)
| CallFetch (url : string)
| ClearAbortTimer (attempt : nat)
| Backoff (ms : Z).

(** The body of the [for] loop; [fuel] counts the iterations that the loop
    condition [attempt <= retries] still allows. *)
Fixpoint retryLoop (url : string) (timeout retries : Z) (net : Network)
    (fuel attempt : nat) : list NetEvent * Completion (option Response) :=
  match fuel with
  | O => ([], Normal None)
  | S fuel' =>
      let started := [SetAbortTimer attempt timeout; CallFetch url] in
      let catch (pre : list NetEvent) (err : JsError) :=
        if Z.of_nat attempt =? retries
        then (pre ++ [ClearAbortTimer attempt], Thrown err)
        else
          let '(evs, r) := retryLoop url timeout retries net fuel' (S attempt) in
          (pre ++ [ClearAbortTimer attempt; Backoff (300 * (Z.of_nat attempt + 1))] ++ evs, r)
      in
      match net attempt with
      | Resolved res =>
          if res_ok res
          then (started ++ [ClearAbortTimer attempt], Normal (Some res))
          else catch (started ++ [ClearAbortTimer attempt]) (HttpError (res_status res))
      | Rejected err => catch started err
      end
  end.

Definition fetchWithTimeoutAndRetry (url : string) (timeout retries : option Z)
    (net : Network) : list NetEvent * Completion (option Response) :=
  let timeout := default FETCH_TIMEOUT_MS timeout in
  let retries := default FETCH_RETRIES retries in
  retryLoop url timeout retries net (Z.to_nat (retries + 1)) 0.

(** ** The sellers cache in chrome.storage.local (lines 47-75) *)

(** The two keys [CACHE_KEY] and [CACHE_TS_KEY]; [None] is an absent key. *)
Record Storage := {
  stored_sellers : option (list JsValue);
  stored_ts : option Z
}.

Record Cached := {
  sellers : list JsValue;
  ts : Z
}.

Definition getCachedSellers (store : Storage) : Cached :=
  {| sellers := default [] (stored_sellers store);
     ts := default 0 (stored_ts store) |}.

(** The [try] block of [fetchAndCacheSellers] up to the array it stores. *)
Definition fetchSellers (url : string) (net : Network) : Completion (list JsValue) :=
  res ← (fetchWithTimeoutAndRetry url (Some FETCH_TIMEOUT_MS) (Some FETCH_RETRIES) net).2;
  res ← match res with
        | Some r => Normal r
        | None => Thrown TypeError
        end;
  data ← res_json res;
  field ← get_prop data "sellers";
  Normal (match field with
          | JArr l => l
          | _ => []
          end).

(** [now] is what [Date.now()] gives at line 56; [None] is [null]. *)
Definition fetchAndCacheSellers (force : bool) (url : string) (net : Network)
    (now : Z) (store : Storage) : Storage * option (list JsValue) :=
  if String.eqb url "" then (store, None)
  else
    match fetchSellers url net with
    | Normal sellers =>
        ({| stored_sellers := Some sellers; stored_ts := Some now |}, Some sellers)
    | Thrown _ => (store, if force then None else None)
    end.

(** ** Runtime maps and settings (lines 17-27) *)

Inductive ScanMode := Background | Content.
Inductive ScanTiming := Immediate | Delayed.

Record State := {
  badgeEnabled : bool;
  sellersUrl : string;
  cacheTtlMs : Z;
  scanMode : ScanMode;
  scanTiming : ScanTiming;
  scanDelay : Z;
  countsByTab : gmap Z Z;
  lastScanAt : gmap Z Z;
  scheduledTimers : gmap Z positive;
  (* the host: storage, and the timeouts created by scheduleScan that have
     neither fired nor been cleared, each with the tab id its callback
     closes over and the time it is due *)
  storage : Storage;
  timers : gmap positive (Z * Z);
  nextTimer : positive
}.

Definition with_counts (f : gmap Z Z → gmap Z Z) (st : State) : State :=
  {| badgeEnabled := badgeEnabled st; sellersUrl := sellersUrl st;
     cacheTtlMs := cacheTtlMs st; scanMode := scanMode st;
     scanTiming := scanTiming st; scanDelay := scanDelay st;
     countsByTab := f (countsByTab st); lastScanAt := lastScanAt st;
     scheduledTimers := scheduledTimers st; storage := storage st;
     timers := timers st; nextTimer := nextTimer st |}.

Definition with_lastScanAt (f : gmap Z Z → gmap Z Z) (st : State) : State :=
  {| badgeEnabled := badgeEnabled st; sellersUrl := sellersUrl st;
     cacheTtlMs := cacheTtlMs st; scanMode := scanMode st;
     scanTiming := scanTiming st; scanDelay := scanDelay st;
     countsByTab := countsByTab st; lastScanAt := f (lastScanAt st);
     scheduledTimers := scheduledTimers st; storage := storage st;
     timers := timers st; nextTimer := nextTimer st |}.

Definition with_settings (b : bool) (u : string) (ttl : Z) (m : ScanMode)
    (tm : ScanTiming) (d : Z) (st : State) : State :=
  {| badgeEnabled := b; sellersUrl := u; cacheTtlMs := ttl; scanMode := m;
     scanTiming := tm; scanDelay := d;
     countsByTab := countsByTab st; lastScanAt := lastScanAt st;
     scheduledTimers := scheduledTimers st; storage := storage st;
     timers := timers st; nextTimer := nextTimer st |}.

Definition with_storage (s : Storage) (st : State) : State :=
  {| badgeEnabled := badgeEnabled st; sellersUrl := sellersUrl st;
     cacheTtlMs := cacheTtlMs st; scanMode := scanMode st;
     scanTiming := scanTiming st; scanDelay := scanDelay st;
     countsByTab := countsByTab st; lastScanAt := lastScanAt st;
     scheduledTimers := scheduledTimers st; storage := s;
     timers := timers st; nextTimer := nextTimer st |}.

(** The timeout [t] leaves the host's table and [tabId] its entry in
    [scheduledTimers]: [clearTimeout(t); delete scheduledTimers[tabId]] in
    cancelScheduled, and the timeout firing with its callback starting
    with [delete scheduledTimers[tabId]] (line 253). *)
Definition drop_timer (tabId : Z) (t : positive) (st : State) : State :=
  {| badgeEnabled := badgeEnabled st; sellersUrl := sellersUrl st;
     cacheTtlMs := cacheTtlMs st; scanMode := scanMode st;
     scanTiming := scanTiming st; scanDelay := scanDelay st;
     countsByTab := countsByTab st; lastScanAt := lastScanAt st;
     scheduledTimers := delete tabId (scheduledTimers st); storage := storage st;
     timers := delete t (timers st); nextTimer := nextTimer st |}.

(** [scheduledTimers[tabId] = setTimeout(..., delayMs)]: the host hands out
    a fresh handle (never 0, so a stored handle is truthy) and notes when
    the timeout is due. *)
Definition add_timer (tabId : Z) (due : Z) (st : State) : State :=
  {| badgeEnabled := badgeEnabled st; sellersUrl := sellersUrl st;
     cacheTtlMs := cacheTtlMs st; scanMode := scanMode st;
     scanTiming := scanTiming st; scanDelay := scanDelay st;
     countsByTab := countsByTab st; lastScanAt := lastScanAt st;
     scheduledTimers := <[tabId := nextTimer st]> (scheduledTimers st);
     storage := storage st;
     timers := <[nextTimer st := (tabId, due)]> (timers st);
     nextTimer := Pos.succ (nextTimer st) |}.

(** The state when the script has just been loaded, over what the storage
    kept from earlier runs. *)
Definition initial (store : Storage) : State :=
  {| badgeEnabled := true; sellersUrl := DEFAULT_SELLERS_URL;
     cacheTtlMs := 1000 * 60 * 60; scanMode := Background;
     scanTiming := Immediate; scanDelay := 10;
     countsByTab := ∅; lastScanAt := ∅; scheduledTimers := ∅;
     storage := store; timers := ∅; nextTimer := 1%positive |}.

(** ** Calls made to the host, in the order they are made *)

Inductive Effect :=
| SetBadgeText (text : string)
| SetBadgeBackgroundColor (color : string)
| SetTimeout (t : positive) (tabId : Z) (ms : Z)
| ClearTimeout (t : positive)
| TabsGet (tabId : Z)
| ExecuteScript (tabId : Z)
| TabsQuery
| StorageGet
| StorageSet (s : Storage)
| Net (e : NetEvent)
| Refresh (awaited : bool)        (* fetchAndCacheSellers is called *)
| SettingsSet (items : list (string * JsValue))   (* the settings are stored *)
| SendResponse (response : JsValue).

(** [fetchAndCacheSellers] with the calls it makes. *)
Definition refreshCalls (url : string) (net : Network) (after : Storage)
    (result : option (list JsValue)) : list Effect :=
  if String.eqb url "" then []
  else
    map Net (fetchWithTimeoutAndRetry url (Some FETCH_TIMEOUT_MS) (Some FETCH_RETRIES) net).1
    ++ match result with
       | Some _ => [StorageSet after]
       | None => []
       end.

(** ** Badge helper and timers (lines 100-119) *)

Definition applyBadgeForTab (tabId : Z) (st : State) : list Effect :=
  if negb (badgeEnabled st) then [SetBadgeText ""]
  else
    let count := default 0 (countsByTab st !! tabId) in
    let text := if count >? 0 then pretty count else "" in
    SetBadgeText text ::
    (if negb (String.eqb text "") then [SetBadgeBackgroundColor BADGE_BG_COLOR] else []).

Definition cancelScheduled (tabId : Z) (st : State) : State * list Effect :=
  match scheduledTimers st !! tabId with
  | Some t => (drop_timer tabId t st, [ClearTimeout t])
  | None => (st, [])
  end.

(** ** Scanning (lines 121-242) *)

Definition ascii_lower (c : ascii) : ascii :=
  let n := N_of_ascii c in
  if ((65 <=? n) && (n <=? 90))%N then ascii_of_N (n + 32) else c.

Fixpoint lower (s : string) : string :=
  match s with
  | EmptyString => EmptyString
  | String c rest => String (ascii_lower c) (lower rest)
  end.

(** [/^https?:\/\//i.test(url)] *)
Definition is_http_url (url : string) : bool :=
  String.prefix "http://" (lower url) || String.prefix "https://" (lower url).

Record Tab := {
  tab_url : option string
}.

(** [!tab || !tab.url || !/^https?:\/\//i.test(tab.url)] is false *)
Definition tab_scannable (tab : option Tab) : bool :=
  match tab with
  | Some {| tab_url := Some url |} => negb (String.eqb url "") && is_http_url url
  | _ => false
  end.

Record PageResult := {
  ok : bool;
  ids : list JsValue
}.

Definition no_ids : PageResult := {| ok := false; ids := [] |}.

(** Lines 190-193, on what [chrome.scripting.executeScript] resolved to.
    The function injected into the page (lines 128-185) runs in the page
    and is part of the host here. *)
Definition readResults (results : JsValue) : Completion PageResult :=
  match results with
  | JArr (r0 :: _) =>
      res0 ← (if truthy r0 then get_prop r0 "result" else Normal r0);
      if negb (truthy res0) then Normal no_ids
      else
        okv ← get_prop res0 "ok";
        match okv with
        | JBool true =>
            idsv ← get_prop res0 "ids";
            Normal {| ok := true;
                      ids := match idsv with
                             | JArr l => l
                             | _ => []
                             end |}
        | _ => Normal no_ids
        end
  | _ => Normal no_ids
  end.

Definition executeExtractSellerIds (answer : Completion JsValue) : PageResult :=
  match answer ≫= readResults with
  | Normal r => r
  | Thrown _ => no_ids
  end.

(** What the host answers while one handler runs. *)
Record Env := {
  env_tab : option Tab;             (* chrome.tabs.get; None on lastError *)
  env_script : Completion JsValue;  (* chrome.scripting.executeScript *)
  env_now_stale : Z;                (* Date.now() at line 217 *)
  env_net : Network;                (* the fetches of a refresh *)
  env_now_store : Z;                (* Date.now() at line 56 *)
  env_active : option Z             (* tabs[0].id of chrome.tabs.query *)
}.

(** The condition of line 217. *)
Definition scanStale (cached : Cached) (now ttl : Z) : bool :=
  (length (sellers cached) =? 0)%nat || (now - ts cached >? ttl).

(** Which [return] ended a scan. *)
Inductive ScanOutcome :=
| Skipped                 (* [return null] at line 201 or 203 *)
| Aborted                 (* [return null] at line 208 *)
| Failed (e : JsError)    (* an exception left the function *)
| Counted (matches : nat).  (* [return matches] *)

(** Lines 214-225: the registry the matcher is given, the storage
    afterwards and the calls made. *)
Definition loadRegistry (env : Env) (st : State) : list JsValue * Storage * list Effect :=
  let cached := getCachedSellers (storage st) in
  if scanStale cached (env_now_stale env) (cacheTtlMs st) then
    let '(store, fetched) :=
      fetchAndCacheSellers false (sellersUrl st) (env_net env) (env_now_store env) (storage st) in
    (match fetched with
     | Some l => l
     | None => sellers cached
     end,
     store,
     StorageGet :: Refresh true :: refreshCalls (sellersUrl st) (env_net env) store fetched)
  else (sellers cached, storage st, [StorageGet]).

(** [doScanForTab(tabId)], started when [Date.now()] is [now] (lines 203
    and 204 read the clock in the same turn).  JavaScript sees [null] for
    [Skipped] and [Aborted], the count for [Counted] and a rejected promise
    for [Failed]. *)
Definition doScanForTab (tabId now : Z) (env : Env) (st : State)
    : State * list Effect * ScanOutcome :=
  if negb (badgeEnabled st) then (st, [], Skipped)
  else if now - default 0 (lastScanAt st !! tabId) <? SCAN_COOLDOWN_MS then (st, [], Skipped)
  else
    let st := with_lastScanAt <[tabId := now]> st in
    if negb (tab_scannable (env_tab env)) then (st, [TabsGet tabId], Aborted)
    else
      let pageRes := executeExtractSellerIds (env_script env) in
      let pageIds := ids pageRes in
      let '(registry, store, calls) := loadRegistry env st in
      let st := with_storage store st in
      let calls := TabsGet tabId :: ExecuteScript tabId :: calls in
      match matchIds pageIds registry with
      | Thrown e => (st, calls, Failed e)
      | Normal matches =>
          let st := with_counts <[tabId := Z.of_nat matches]> st in
          (st,
           calls ++ TabsQuery ::
             (if decide (env_active env = Some tabId) then applyBadgeForTab tabId st else []),
           Counted matches)
      end.

(** ** Scheduling and lifecycle hooks (lines 244-286) *)

Definition delayMs (st : State) : Z :=
  match scanTiming st with
  | Delayed => Z.max 0 (scanDelay st) * 1000
  | Immediate => 0
  end.

Definition scheduleScan (tabId now : Z) (env : Env) (st : State) : State * list Effect :=
  let '(st, cancelled) := cancelScheduled tabId st in
  if negb (badgeEnabled st) then (st, cancelled)
  else if delayMs st =? 0 then
    let '(st', calls, _) := doScanForTab tabId now env st in
    (st', cancelled ++ calls)
  else
    (add_timer tabId (now + delayMs st) st,
     cancelled ++ [SetTimeout (nextTimer st) tabId (delayMs st)]).

(** The callback of a timeout set by scheduleScan (lines 252-255).  The
    host runs it once, not before it is due, and only if the timeout was
    not cleared. *)
Definition timerFires (t : positive) (now : Z) (env : Env) (st : State)
    : State * list Effect :=
  match timers st !! t with
  | Some (tabId, due) =>
      if due <=? now then
        let '(st', calls, _) := doScanForTab tabId now env (drop_timer tabId t st) in
        (st', calls)
      else (st, [])
  | None => (st, [])
  end.

Definition onActivated (tabId now : Z) (env : Env) (st : State) : State * list Effect :=
  if negb (badgeEnabled st) then (st, [SetBadgeText ""])
  else
    let badge := applyBadgeForTab tabId st in
    let '(st', calls) := scheduleScan tabId now env st in
    (st', badge ++ calls).

Definition is_active (env : Env) (tabId : Z) : bool :=
  bool_decide (env_active env = Some tabId).

Definition nonempty (o : option string) : bool :=
  match o with
  | Some s => negb (String.eqb s "")
  | None => false
  end.

(** [changeInfo] is read through its [status] and [url].  The synchronous
    part of the listener runs first, then the two [chrome.tabs.query]
    callbacks in the order they were registered. *)
Definition onUpdated (tabId : Z) (status url : option string) (now : Z) (env : Env)
    (st : State) : State * list Effect :=
  if negb (badgeEnabled st) then (st, [SetBadgeText ""])
  else
    let complete := bool_decide (status = Some "complete") in
    let reset := bool_decide (status = Some "loading") || nonempty url in
    let query1 := if complete then [TabsQuery] else [] in
    let '(st1, calls1) :=
      if reset then
        let '(s, c) := cancelScheduled tabId (with_counts (delete tabId) st) in
        (s, c ++ [TabsQuery])
      else (st, []) in
    let '(st2, calls2) :=
      if complete && is_active env tabId then scheduleScan tabId now env st1
      else (st1, []) in
    let calls3 :=
      if reset && is_active env tabId then applyBadgeForTab tabId st2 else [] in
    (st2, query1 ++ calls1 ++ calls2 ++ calls3).

Definition onRemoved (tabId : Z) (st : State) : State * list Effect :=
  cancelScheduled tabId (with_lastScanAt (delete tabId) (with_counts (delete tabId) st)).

(** ** Settings (lines 77-98) and messages (lines 288-366) *)

(** The settings found in a message or in the storage; [None] where the
    key is absent or fails the [typeof] test of the reader. *)
Record Options := {
  o_sellersUrl : option string;
  o_cacheTtlMin : option Z;
  o_badgeEnable : option bool;
  o_scanMode : option string;
  o_scanTiming : option string;
  o_scanDelay : option Z
}.

Definition is_space (c : ascii) : bool :=
  let n := N_of_ascii c in
  ((n =? 32) || ((9 <=? n) && (n <=? 13)))%N.

Fixpoint ltrim (s : string) : string :=
  match s with
  | EmptyString => EmptyString
  | String c rest => if is_space c then ltrim rest else s
  end.

Fixpoint rtrim (s : string) : string :=
  match s with
  | EmptyString => EmptyString
  | String c rest =>
      match rtrim rest with
      | EmptyString => if is_space c then EmptyString else String c EmptyString
      | r => String c r
      end
  end.

(** [s.trim()] for the ASCII white space. *)
Definition trim (s : string) : string := rtrim (ltrim s).

Definition modeOf (s : option string) : ScanMode :=
  if bool_decide (s = Some "content") then Content else Background.

Definition timingOf (s : option string) : ScanTiming :=
  if bool_decide (s = Some "delayed") then Delayed else Immediate.

(** The callback of [initSettingsFromStorage], given what the storage
    holds under [SETTINGS_KEYS]. *)
Definition initSettingsFromStorage (res : Options) (st : State) : State * list Effect :=
  let url := match o_sellersUrl res with
             | Some u => if String.eqb (trim u) "" then DEFAULT_SELLERS_URL else trim u
             | None => DEFAULT_SELLERS_URL
             end in
  let ttlMin := default 60 (o_cacheTtlMin res) in
  let enabled := default true (o_badgeEnable res) in
  let delay := match o_scanDelay res with
               | Some d => Z.max 0 d
               | None => 10
               end in
  (with_settings enabled url (Z.max 1 ttlMin * 60 * 1000)
     (modeOf (o_scanMode res)) (timingOf (o_scanTiming res)) delay st,
   if negb enabled then [SetBadgeText ""] else []).

Inductive Message :=
| NoType                          (* [!message || !message.type] *)
| GetSellersCache
| RefreshSellers
| OptionsUpdated (o : Options)
| SetBadge (count : JsValue)
| ScanResult (count : JsValue)
| OtherType.

(** Lines 307-312. *)
Definition applyOptions (o : Options) (st : State) : State :=
  with_settings
    (default (badgeEnabled st) (o_badgeEnable o))
    (match o_sellersUrl o with
     | Some u => if String.eqb u "" then DEFAULT_SELLERS_URL else u
     | None => sellersUrl st
     end)
    (match o_cacheTtlMin o with
     | Some m => Z.max 1 m * 60 * 1000
     | None => cacheTtlMs st
     end)
    (match o_scanMode o with
     | Some _ => modeOf (o_scanMode o)
     | None => scanMode st
     end)
    (match o_scanTiming o with
     | Some _ => timingOf (o_scanTiming o)
     | None => scanTiming st
     end)
    (match o_scanDelay o with
     | Some d => Z.max 0 d
     | None => scanDelay st
     end)
    st.

(** [Number.isFinite(message.count) ? Math.max(0, message.count) : 0] *)
Definition pushedCount (count : JsValue) : Z :=
  match count with
  | JNum (NFin z) => Z.max 0 z
  | _ => 0
  end.

Definition okResponse : JsValue := JObj [("ok", JBool true)].

(** Reading identifiers: a value, or the name of the first identifier that
    is not declared.  Reading such an identifier throws a ReferenceError,
    whose [message] is "<name> is not defined". *)
Inductive Read (A : Type) :=
| Value (a : A)
| NotDefined (name : string).
Arguments Value {A} a.
Arguments NotDefined {A} name.

#[global] Instance Read_bind : MBind Read := λ A B k r,
  match r with
  | Value a => k a
  | NotDefined name => NotDefined name
  end.

Definition modeString (m : ScanMode) : string :=
  match m with
  | Content => "content"
  | Background => "background"
  end.

Definition timingString (t : ScanTiming) : string :=
  match t with
  | Delayed => "delayed"
  | Immediate => "immediate"
  end.

(** The settings globals under the names that lines 21-27 declare them
    with. *)
Definition settingsGlobals (st : State) : list (string * JsValue) :=
  [("badgeEnabled", JBool (badgeEnabled st));
   ("sellersUrl", JStr (sellersUrl st));
   ("cacheTtlMs", JNum (NFin (cacheTtlMs st)));
   ("scanMode", JStr (modeString (scanMode st)));
   ("scanTiming", JStr (timingString (scanTiming st)));
   ("scanDelay", JNum (NFin (scanDelay st)))].

(** An identifier that the handler of optionsUpdated reads as a variable:
    a settings global, or a name that is declared nowhere in the script
    and is no property of the global object. *)
Definition readGlobal (name : string) (st : State) : Read JsValue :=
  match List.find (λ kv, String.eqb name kv.1) (settingsGlobals st) with
  | Some kv => Value kv.2
  | None => NotDefined name
  end.

(** [Math.round(ms / 60000)] *)
Definition roundMinutes (ms : JsValue) : JsValue :=
  match ms with
  | JNum (NFin z) => JNum (NFin ((z + 30000) / 60000))
  | _ => JNum NNaN
  end.

(** The object literal of lines 314-321, whose properties are evaluated
    in the order they are written. *)
Definition settingsItems (st : State) : Read (list (string * JsValue)) :=
  url ← readGlobal "sellersUrl" st;
  ttl ← readGlobal "cacheTtlMs" st;
  enable ← readGlobal "badgeEnable" st;
  mode ← readGlobal "scanMode" st;
  timing ← readGlobal "scanTiming" st;
  delay ← readGlobal "scanDelay" st;
  Value [("sellersUrl", url); ("cacheTtlMin", roundMinutes ttl); ("badgeEnable", enable);
         ("scanMode", mode); ("scanTiming", timing); ("scanDelay", delay)].

Definition onMessage (m : Message) (senderTab : option Z) (now : Z) (env : Env)
    (st : State) : State * list Effect :=
  match m with
  | NoType | OtherType => (st, [SendResponse (JObj [])])
  | GetSellersCache =>
      let cached := getCachedSellers (storage st) in
      let spawn :=
        if (ts cached =? 0) || (now - ts cached >? cacheTtlMs st)
        then [Refresh false] else [] in
      (st,
       StorageGet :: spawn ++
       [SendResponse (JObj [("sellers", JArr (sellers cached));
                            ("ts", JNum (NFin (ts cached)))])])
  | RefreshSellers =>
      let '(store, fetched) :=
        fetchAndCacheSellers true (sellersUrl st) (env_net env) (env_now_store env)
          (storage st) in
      (with_storage store st,
       Refresh true :: refreshCalls (sellersUrl st) (env_net env) store fetched ++
       [SendResponse
          match fetched with
          | Some l => JObj [("ok", JBool true); ("sellers", JArr l)]
          | None => JObj [("ok", JBool false)]
          end])
  | OptionsUpdated o =>
      let st := applyOptions o st in
      match settingsItems st with
      | NotDefined name =>
          (* the ReferenceError leaves the async function at line 314 and
             the [catch] of line 357 answers with its message *)
          (st, [SendResponse (JObj [("ok", JBool false);
                                    ("error", JStr (name +:+ " is not defined"))])])
      | Value items =>
          let spawn := match o_sellersUrl o with
                       | Some _ => [Refresh false]
                       | None => []
                       end in
          let '(st, cleared) :=
            if negb (badgeEnabled st)
            then (with_counts (λ _, ∅) st, [SetBadgeText ""])
            else (st, []) in
          (st, SettingsSet items :: spawn ++ cleared ++ [SendResponse okResponse])
      end
  | SetBadge count =>
      if negb (badgeEnabled st) then
        (st, [SetBadgeText "";
              SendResponse (JObj [("ok", JBool true); ("ignored", JBool true)])])
      else
        let count := pushedCount count in
        let text := if count >? 0 then pretty count else "" in
        (st,
         SetBadgeText text ::
         (if negb (String.eqb text "") then [SetBadgeBackgroundColor BADGE_BG_COLOR] else [])
         ++ [SendResponse okResponse])
  | ScanResult count =>
      let count := pushedCount count in
      match senderTab with
      | Some tabId =>
          let st := with_counts <[tabId := count]> st in
          (st,
           TabsQuery ::
           (if is_active env tabId then applyBadgeForTab tabId st else [])
           ++ [SendResponse okResponse])
      | None => (st, [SendResponse okResponse])
      end
  end.

(** ** The event loop *)

Inductive Event :=
| Activated (tabId : Z)
| Updated (tabId : Z) (status url : option string)
| Removed (tabId : Z)
| TimerFires (t : positive)
| Received (m : Message) (senderTab : option Z)
| RefreshSettles (url : string)     (* a refresh that nobody awaited ends *)
| SettingsLoaded (res : Options).

Definition step (ev : Event) (now : Z) (env : Env) (st : State) : State * list Effect :=
  match ev with
  | Activated tabId => onActivated tabId now env st
  | Updated tabId status url => onUpdated tabId status url now env st
  | Removed tabId => onRemoved tabId st
  | TimerFires t => timerFires t now env st
  | Received m senderTab => onMessage m senderTab now env st
  | RefreshSettles url =>
      let '(store, fetched) :=
        fetchAndCacheSellers false url (env_net env) (env_now_store env) (storage st) in
      (with_storage store st, refreshCalls url (env_net env) store fetched)
  | SettingsLoaded res => initSettingsFromStorage res st
  end.

(** A run: the events in the order the loop takes them, each with the
    clock and the answers of the host. *)
Fixpoint run (evs : list (Event * Z * Env)) (st : State) : State * list Effect :=
  match evs with
  | [] => (st, [])
  | (ev, now, env) :: rest =>
      let '(st1, calls) := step ev now env st in
      let '(st2, later) := run rest st1 in
      (st2, calls ++ later)
  end.

(** ** The function injected into the page (lines 128-185)

    It runs in the page, fetches the two files from the origin of the page
    and resolves to [{ ok, ids }]; [env_script] above is what the host
    hands back for it. *)

(** [s.split(sep)] for a separator of one character. *)
Fixpoint split_on (sep : ascii) (s : string) : list string :=
  match s with
  | EmptyString => [EmptyString]
  | String c rest =>
      if Ascii.eqb c sep then EmptyString :: split_on sep rest
      else
        match split_on sep rest with
        | [] => [String c EmptyString]
        | p :: ps => String c p :: ps
        end
  end.

(** [hay] has [needle] as a substring. *)
Fixpoint contains (needle hay : string) : bool :=
  match hay with
  | EmptyString => String.prefix needle EmptyString
  | String _ rest => String.prefix needle hay || contains needle rest
  end.

Definition is_digit (c : ascii) : bool :=
  let n := N_of_ascii c in
  ((48 <=? n) && (n <=? 57))%N.

(** [s.replace(/\D/g, "")] *)
Fixpoint digits_only (s : string) : string :=
  match s with
  | EmptyString => EmptyString
  | String c rest => if is_digit c then String c (digits_only rest) else digits_only rest
  end.

(** [set.add(x)] on a Set, kept as the list of its elements in the order
    they were inserted (the order [Array.from] gives). *)
Definition set_add (x : string) (set : list string) : list string :=
  if decide (x ∈ set) then set else set ++ [x].

(** One turn of the loop of extractIdsFromText: the id the line [raw]
    adds, if any. *)
Definition line_id (raw : string) : option string :=
  if negb (contains "adwmg" (lower raw)) then None
  else
    match map trim (split_on "," raw) with
    | _ :: second :: _ =>
        let id := digits_only second in
        if String.eqb id "" then None else Some id
    | _ => None
    end.

(** [None] is a text that is [null]. *)
Definition extractIdsFromText (text : option string) : list string :=
  match text with
  | None => []
  | Some t =>
      if String.eqb t "" then []
      else
        fold_left
          (λ set raw, match line_id raw with
                      | Some id => set_add id set
                      | None => set
                      end)
          (split_on "010" t) []
  end.

(** What the [fetch] of the page settles to. *)
Inductive PageFetch :=
| PageResponse (ok : bool) (text : Completion string)
| PageRejected
| PageTimeout.

Definition fetchWithTimeout (o : PageFetch) : option string :=
  match o with
  | PageResponse true (Normal t) => Some t
  | _ => None
  end.

(** [origin.replace(/\/$/, "")] *)
Fixpoint strip_slash (s : string) : string :=
  match s with
  | EmptyString => EmptyString
  | String c rest =>
      if Ascii.eqb c "/" && String.eqb rest "" then EmptyString
      else String c (strip_slash rest)
  end.

Definition tryFetch (origin name : string) (web : string → PageFetch) : option string :=
  if negb (is_http_url origin) then None
  else fetchWithTimeout (web (strip_slash origin +:+ "/" +:+ name)).

(** The ids of ads.txt, then those of app-ads.txt that are new. *)
Definition mergeIds (ads appads : option string) : list string :=
  fold_left (λ ids s, set_add s ids) (extractIdsFromText appads)
    (fold_left (λ ids s, set_add s ids) (extractIdsFromText ads) []).

Definition pageScript (origin : string) (web : string → PageFetch) : JsValue :=
  let ads := tryFetch origin "ads.txt" web in
  let appads := tryFetch origin "app-ads.txt" web in
  JObj [("ok", JBool true); ("ids", JArr (map JStr (mergeIds ads appads)))].

(** ** The options page (options.js, and its variant that shows hours)

    The form is read through the [value] of its inputs and the [checked]
    of its checkbox.  White space is the ASCII white space. *)

Record Form := {
  in_sellersUrl : string;
  in_cacheTtl : string;
  in_badgeEnable : bool;
  in_scanMode : string;
  in_scanTiming : string;
  in_scanDelay : string
}.

Definition digit_value (c : ascii) : Z := Z.of_N (N_of_ascii c) - 48.

(** The number that the longest prefix of digits of [s] spells after
    [acc]; [seen] tells whether a digit was read. *)
Fixpoint parse_digits (s : string) (acc : Z) (seen : bool) : option Z :=
  match s with
  | String c rest =>
      if is_digit c then parse_digits rest (10 * acc + digit_value c) true
      else if seen then Some acc else None
  | EmptyString => if seen then Some acc else None
  end.

(** [parseInt(s, 10)]; [None] is NaN. *)
Definition parseInt (s : string) : option Z :=
  match ltrim s with
  | String "-" rest => Z.opp <$> parse_digits rest 0 false
  | String "+" rest => parse_digits rest 0 false
  | t => parse_digits t 0 false
  end.

Definition modeName (s : string) : string :=
  if String.eqb s "content" then "content" else "background".

Definition timingName (s : string) : string :=
  if String.eqb s "delayed" then "delayed" else "immediate".

Definition normalUrl (value : string) : string :=
  if String.eqb (trim value) "" then DEFAULT_SELLERS_URL else trim value.

Definition normalDelay (value : string) : Z :=
  match parseInt value with
  | Some d => if d <? 0 then 10 else d
  | None => 10
  end.

(** saveOptions of options.js: what it stores and then sends to the
    background as the optionsUpdated message. *)
Definition saveOptions (f : Form) : Options :=
  {| o_sellersUrl := Some (normalUrl (in_sellersUrl f));
     o_cacheTtlMin := Some match parseInt (in_cacheTtl f) with
                           | Some m => if m <=? 0 then 60 else m
                           | None => 60
                           end;
     o_badgeEnable := Some (in_badgeEnable f);
     o_scanMode := Some (modeName (in_scanMode f));
     o_scanTiming := Some (timingName (in_scanTiming f));
     o_scanDelay := Some (normalDelay (in_scanDelay f)) |}.

(** The hours that the variant reads from the form. *)
Definition formHours (f : Form) : Z :=
  match parseInt (in_cacheTtl f) with
  | Some h => if h <=? 0 then 1 else h
  | None => 1
  end.

(** saveOptions of the variant: the form holds hours, minutes are stored
    and sent. *)
Definition saveOptionsHours (f : Form) : Options :=
  {| o_sellersUrl := Some (normalUrl (in_sellersUrl f));
     o_cacheTtlMin := Some (formHours f * 60);
     o_badgeEnable := Some (in_badgeEnable f);
     o_scanMode := Some (modeName (in_scanMode f));
     o_scanTiming := Some (timingName (in_scanTiming f));
     o_scanDelay := Some (normalDelay (in_scanDelay f)) |}.

(** [Math.round(m / 60)] *)
Definition roundHours (m : Z) : Z := (m + 30) / 60.

(** loadOptions of the variant: the hours it shows for the stored
    minutes ([None]: nothing stored). *)
Definition shownHours (stored : option Z) : Z :=
  match stored with
  | Some m => if roundHours m <? 1 then 1 else roundHours m
  | None => 1
  end.

(** ** Vocabulary of the statements *)

(** [s.seller_id] where the read does not throw. *)
Definition seller_id_of (s : JsValue) : JsValue :=
  match s with
  | JObj props => assoc "seller_id" props
  | _ => JUndefined
  end.

(** The string forms of the values of [vs] that have one. *)
Definition string_forms (vs : list JsValue) : list string := omap string_form vs.

(** The count in the words of the specification: the ids of [P] whose
    string form is among the string forms of the [seller_id] fields of
    [R]. *)
Definition spec_match (P R : list JsValue) : nat :=
  length (filter (λ s, s ∈ string_forms (map seller_id_of R)) (string_forms P)).

(** A registry of seller records: no entry is [null] or [undefined]. *)
Definition records (R : list JsValue) : Prop :=
  Forall (λ r, nullish r = false) R.

(** [String(v)] does not throw. *)
Definition stringable (v : JsValue) : bool := bool_decide (is_Some (string_form v)).

(** A registry that the matcher can read: seller records whose
    [seller_id] has a string form. *)
Definition seller_records (R : list JsValue) : Prop :=
  Forall (λ r, nullish r = false ∧ stringable (seller_id_of r) = true) R.

(** Page ids and a registry that the matcher can read. *)
Definition matchable (P R : list JsValue) : Prop :=
  seller_records R ∧ Forall (λ id, stringable id = true) P.

(** The page ids and the registry that a scan hands to the matcher. *)
Definition pageIdsOf (env : Env) : list JsValue :=
  ids (executeExtractSellerIds (env_script env)).

Definition registryOf (env : Env) (st : State) : list JsValue :=
  (loadRegistry env st).1.1.

(** The scan of [tabId] at [now] gets past the cooldown gate and the check
    of the tab. *)
Definition reaches_matcher (tabId now : Z) (env : Env) (st : State) : Prop :=
  badgeEnabled st = true ∧
  SCAN_COOLDOWN_MS ≤ now - default 0 (lastScanAt st !! tabId) ∧
  tab_scannable (env_tab env) = true.

(** The first claim as the specification states it, for one scan: the
    scan computes the count of the specification. *)
Definition scan_counts_matches (tabId now : Z) (env : Env) (st : State) : Prop :=
  (doScanForTab tabId now env st).2
  = Counted (spec_match (pageIdsOf env) (registryOf env st)).

(** The failure modes of a refresh in the words of the specification: the
    network fails, the body does not parse, or the body has no [sellers]
    array. *)
Inductive RefreshFailure (url : string) (net : Network) : Prop :=
| NetworkError (e : JsError) :
    (fetchWithTimeoutAndRetry url (Some FETCH_TIMEOUT_MS) (Some FETCH_RETRIES) net).2
      = Thrown e →
    RefreshFailure url net
| ParseError (res : Response) (e : JsError) :
    (fetchWithTimeoutAndRetry url (Some FETCH_TIMEOUT_MS) (Some FETCH_RETRIES) net).2
      = Normal (Some res) →
    res_json res = Thrown e →
    RefreshFailure url net
| MalformedShape (res : Response) (data : JsValue) :
    (fetchWithTimeoutAndRetry url (Some FETCH_TIMEOUT_MS) (Some FETCH_RETRIES) net).2
      = Normal (Some res) →
    res_json res = Normal data →
    (∀ l, get_prop data "sellers" ≠ Normal (JArr l)) →
    RefreshFailure url net.

(** The second claim as the specification states it: whatever the failure
    mode, the refresh gives [null] and the storage is as before. *)
Definition refresh_keeps_cache_on (force : bool) (url : string) (net : Network)
    (now : Z) (store : Storage) : Prop :=
  RefreshFailure url net →
  fetchAndCacheSellers force url net now store = (store, None).

(** The fourth claim as the specification states it: a cache request
    starts a refresh exactly when the sellers are empty or the time stamp
    is older than the ttl. *)
Definition cache_request_refreshes_when_stale (now : Z) (env : Env) (st : State) : Prop :=
  let cached := getCachedSellers (storage st) in
  Refresh false ∈ (onMessage GetSellersCache None now env st).2 ↔
  sellers cached = [] ∨ now - ts cached > cacheTtlMs st.

(** Calls that a handler makes only when it waits for a refresh. *)
Definition waits_for_refresh (c : Effect) : bool :=
  match c with
  | Refresh true | Net _ | StorageSet _ => true
  | _ => false
  end.

(** *** Reading a trace of fetchWithTimeoutAndRetry *)

Definition is_fetch (e : NetEvent) : bool :=
  match e with
  | CallFetch _ => true
  | _ => false
  end.

Definition is_pacing (e : NetEvent) : bool :=
  match e with
  | CallFetch _ | Backoff _ => true
  | _ => false
  end.

(** The number of attempts made. *)
Definition attempts (evs : list NetEvent) : nat :=
  length (List.filter is_fetch evs).

(** The attempts and the waits, in the order they happen. *)
Definition pacing (evs : list NetEvent) : list NetEvent :=
  List.filter is_pacing evs.

(** [n] attempts, the first being attempt number [k], with a wait of
    300 ms x the number of the attempt that just failed between two of
    them. *)
Fixpoint paced (url : string) (k n : nat) : list NetEvent :=
  match n with
  | O => []
  | S n' =>
      CallFetch url ::
      match n' with
      | O => []
      | S _ => Backoff (300 * Z.of_nat k) :: paced url (S k) n'
      end
  end.

(** The abort timers that are running after the calls [evs], given the
    ones running before. *)
Fixpoint running_after (evs : list NetEvent) (running : list nat) : list nat :=
  match evs with
  | [] => running
  | SetAbortTimer k _ :: rest => running_after rest (k :: running)
  | ClearAbortTimer k :: rest =>
      running_after rest (List.filter (λ j, negb (j =? k)%nat) running)
  | _ :: rest => running_after rest running
  end.

(** An attempt fails when the fetch rejects or the status is not a success;
    [error_of] is the error the [catch] block then sees. *)
Definition failed (o : FetchOutcome) : Prop :=
  match o with
  | Resolved res => res_ok res = false
  | Rejected _ => True
  end.

Definition error_of (o : FetchOutcome) : JsError :=
  match o with
  | Resolved res => HttpError (res_status res)
  | Rejected err => err
  end.

(** *** Reading the calls of a run *)

(** A scan is executed when it gets past the cooldown gate; the first thing
    it does then is [chrome.tabs.get(tabId, ...)], and nothing else calls
    [chrome.tabs.get]. *)
Definition scan_started (c : Effect) : option Z :=
  match c with
  | TabsGet tabId => Some tabId
  | _ => None
  end.

(** The tabs whose scan was executed, in order. *)
Definition scans (calls : list Effect) : list Z := omap scan_started calls.

(** How many scans of [tabId] were executed. *)
Definition executions (tabId : Z) (calls : list Effect) : nat :=
  length (filter (λ t, t = tabId) (scans calls)).

(** What a handler that calls doScanForTab for [tab] at most once does to
    [lastScanAt]: nothing when no scan is executed, and otherwise the gate
    was open and the time of the scan is recorded. *)
Definition gate_outcome (tab now : Z) (st st' : State) (calls : list Effect) : Prop :=
  (lastScanAt st' = lastScanAt st ∧ scans calls = []) ∨
  (badgeEnabled st = true ∧
   SCAN_COOLDOWN_MS ≤ now - default 0 (lastScanAt st !! tab) ∧
   lastScanAt st' = <[tab := now]> (lastScanAt st) ∧
   scans calls = [tab]).

Definition same_settings (st st' : State) : Prop :=
  badgeEnabled st' = badgeEnabled st ∧ sellersUrl st' = sellersUrl st ∧
  cacheTtlMs st' = cacheTtlMs st ∧ scanMode st' = scanMode st ∧
  scanTiming st' = scanTiming st ∧ scanDelay st' = scanDelay st.

Definition same_timers (st st' : State) : Prop :=
  scheduledTimers st' = scheduledTimers st ∧ timers st' = timers st ∧
  nextTimer st' = nextTimer st.

(** The timeouts of the host and [scheduledTimers] agree: a pending
    timeout is the one recorded for its tab, and handles are fresh. *)
Definition timers_wf (st : State) : Prop :=
  (∀ t tab due, timers st !! t = Some (tab, due) → scheduledTimers st !! tab = Some t) ∧
  (∀ t, (nextTimer st ≤ t)%positive → timers st !! t = None).

Definition counts_nonneg (st : State) : Prop :=
  map_Forall (λ _ count, 0 ≤ count) (countsByTab st).

(** Events other than the removal of [tabId], which ends its session. *)
Definition keeps_session (tabId : Z) (ev : Event) : Prop :=
  ev ≠ Removed tabId.

(** The events of a run happen at times in the window that starts at
    [start] and lasts one cooldown. *)
Definition within_cooldown (start : Z) (evs : list (Event * Z * Env)) : Prop :=
  Forall (λ e, start ≤ e.1.2 < start + SCAN_COOLDOWN_MS) evs.

(** The trigger events of the session [tabId]: its activation and the
    completion of a load in it. *)
Definition is_trigger (tabId : Z) (ev : Event) : bool :=
  match ev with
  | Activated t => bool_decide (t = tabId)
  | Updated t status _ => bool_decide (t = tabId) && bool_decide (status = Some "complete")
  | _ => false
  end.

(** The fifth claim as the specification states it: in a run whose
    trigger events for the session all arrive within one cooldown window,
    at most one scan of the session is executed. *)
Definition triggers_give_one_scan (tabId start : Z) (evs : list (Event * Z * Env))
    (st : State) : Prop :=
  Forall (λ e, is_trigger tabId e.1.1 = true →
               start ≤ e.1.2 < start + SCAN_COOLDOWN_MS) evs →
  (executions tabId (run evs st).2 ≤ 1)%nat.


(** A call that neither executes a scan nor sets a timeout, and that sets
    no badge text but the empty one. *)
Definition silent (c : Effect) : bool :=
  match c with
  | TabsGet _ | ExecuteScript _ | SetTimeout _ _ _ => false
  | SetBadgeText text => String.eqb text ""
  | _ => true
  end.

(** Events that leave [badgeEnabled] false: every event but a settings
    message or a settings reload that turns the badge on. *)
Definition keeps_badge_off (ev : Event) : Prop :=
  match ev with
  | Received (OptionsUpdated o) _ => o_badgeEnable o ≠ Some true
  | SettingsLoaded res => o_badgeEnable res = Some false
  | _ => True
  end.

(** The badge texts set by some calls, in order. *)
Definition badge_text (c : Effect) : option string :=
  match c with
  | SetBadgeText text => Some text
  | _ => None
  end.

Definition badge_texts (calls : list Effect) : list string := omap badge_text calls.

(** The tenth claim as stated, for a setBadge message: the badge text it
    sets is empty exactly when the effective count is 0. *)
Definition setBadge_text_follows_count (count : JsValue) (now : Z) (env : Env)
    (st : State) : Prop :=
  ∀ text,
    text ∈ badge_texts (onMessage (SetBadge count) None now env st).2 →
    (text = "" ↔ pushedCount count = 0).

(** ** Sample data *)

Definition seller (id : string) : JsValue := JObj [("seller_id", JStr id)].

Definition sample_store : Storage :=
  {| stored_sellers := Some [seller "123"; seller "456"]; stored_ts := Some 5 |}.

Definition net_down : Network := λ _, Rejected NetworkFailure.

Definition net_body (body : Completion JsValue) : Network :=
  λ _, Resolved {| res_ok := true; res_status := 200; res_json := body |}.

Definition sample_env : Env :=
  {| env_tab := Some {| tab_url := Some "https://example.com/" |};
     env_script :=
       Normal (JArr [JObj [("result",
                            JObj [("ok", JBool true);
                                  ("ids", JArr [JStr "123"; JStr "789"])])]]);
     env_now_stale := 100000;
     env_net := net_down;
     env_now_store := 100001;
     env_active := Some 7 |}.

(** A cache with a [null] among its sellers, and one with a seller whose
    [seller_id] is an object with a [toString] of its own. *)
Definition null_entry_store : Storage :=
  {| stored_sellers := Some [seller "123"; JNull]; stored_ts := Some 5 |}.

Definition odd_id_store : Storage :=
  {| stored_sellers :=
       Some [seller "123"; JObj [("seller_id", JObj [("toString", JNull)])]];
     stored_ts := Some 5 |}.

(** Tab 7 is activated twice, thirty seconds apart. *)
Definition two_activations : list (Event * Z * Env) :=
  [(Activated 7, 100000, sample_env); (Activated 7, 130000, sample_env)].

(** The settings ask for a scan ten seconds after the trigger, and tab 7
    is activated. *)
Definition delayed_options : Options :=
  {| o_sellersUrl := None; o_cacheTtlMin := None; o_badgeEnable := None;
     o_scanMode := None; o_scanTiming := Some "delayed"; o_scanDelay := Some 10 |}.

Definition delayed_start : list (Event * Z * Env) :=
  [(SettingsLoaded delayed_options, 0, sample_env); (Activated 7, 100000, sample_env)].

(** Tab 7 is scanned when it is activated; the settings then ask for a
    delay of ten seconds; tab 7 is activated again 59 seconds after the
    first time, and the timeout of that trigger fires when it is due. *)
Definition late_scan : list (Event * Z * Env) :=
  [(Activated 7, 100000, sample_env);
   (SettingsLoaded delayed_options, 120000, sample_env);
   (Activated 7, 159000, sample_env);
   (TimerFires 1, 169000, sample_env)].


(** The settings in the storage switch the badge off. *)
Definition badge_off_options : Options :=
  {| o_sellersUrl := None; o_cacheTtlMin := None; o_badgeEnable := Some false;
     o_scanMode := None; o_scanTiming := None; o_scanDelay := None |}.

Definition badge_off_state : State :=
  (initSettingsFromStorage badge_off_options (initial sample_store)).1.

(** Nothing was ever cached. *)
Definition empty_store : Storage := {| stored_sellers := None; stored_ts := None |}.

(** *** Vocabulary of the further properties *)

Fixpoint all_digits (s : string) : bool :=
  match s with
  | EmptyString => true
  | String c rest => is_digit c && all_digits rest
  end.

(** The lines of a text. *)
Definition lines (t : string) : list string := split_on "010" t.

(** The settings that every handler keeps: a ttl of a minute or more, a
    delay that is not negative, a sellers URL that is not empty. *)
Definition settings_ok (st : State) : Prop :=
  60000 ≤ cacheTtlMs st ∧ 0 ≤ scanDelay st ∧ sellersUrl st ≠ "".

(** What the host hands back for an injected function that resolved to
    [v]: one injection result, whose [result] is [v]. *)
Definition injected (v : JsValue) : Completion JsValue :=
  Normal (JArr [JObj [("frameId", JNum (NFin 0)); ("result", v)]]).

(** A page that serves the same text for both files. *)
Definition sample_web : string → PageFetch :=
  λ _, PageResponse true (Normal "adwmg.com, 123, DIRECT").

Definition sample_form : Form :=
  {| in_sellersUrl := " https://example.org/sellers.json ";
     in_cacheTtl := "3"; in_badgeEnable := true; in_scanMode := "content";
     in_scanTiming := "delayed"; in_scanDelay := "5" |}.

(** What the three maps hold for the tab [tab]. *)
Definition session (tab : Z) (st : State) : option Z * option Z * option positive :=
  (countsByTab st !! tab, lastScanAt st !! tab, scheduledTimers st !! tab).

(** The tab an event is about, if it is about one. *)
Definition event_tab (ev : Event) (st : State) : option Z :=
  match ev with
  | Activated tabId | Updated tabId _ _ | Removed tabId => Some tabId
  | TimerFires t => fst <$> timers st !! t
  | Received (ScanResult _) sender => sender
  | _ => None
  end.

(** A call that writes the settings to the storage. *)
Definition stores_settings (c : Effect) : bool :=
  match c with
  | SettingsSet _ => true
  | _ => false
  end.

(** A settings message that carries nothing. *)
Definition no_options : Options :=
  {| o_sellersUrl := None; o_cacheTtlMin := None; o_badgeEnable := None;
     o_scanMode := None; o_scanTiming := None; o_scanDelay := None |}.

(** The first [n] attempts fail and attempt [n] succeeds with [res]. *)
Definition first_success (net : Network) (n : nat) (res : Response) : Prop :=
  (∀ k, (k < n)%nat → failed (net k)) ∧ net n = Resolved res ∧ res_ok res = true.

(** The sellers that a refresh takes from the body it got: the array
    under [sellers], and no sellers when there is none. *)
Definition body_sellers (data : JsValue) : list JsValue :=
  match data with
  | JObj props =>
      match assoc "sellers" props with
      | JArr l => l
      | _ => []
      end
  | _ => []
  end.

(** A refresh gets the body [data]: the first attempt, or the retry after
    a first attempt that failed, succeeds, and its body parses to [data],
    which is not [null]. *)
Definition refresh_gets (net : Network) (data : JsValue) : Prop :=
  ∃ n res,
    first_success net n res ∧ Z.of_nat n ≤ FETCH_RETRIES ∧
    res_json res = Normal data ∧ nullish data = false.

(** A refresh gets nothing: both attempts fail, or the body of the attempt
    that succeeds does not parse or parses to [null]. *)
Definition refresh_gets_nothing (net : Network) : Prop :=
  (∀ k, Z.of_nat k ≤ FETCH_RETRIES → failed (net k)) ∨
  ∃ n res,
    first_success net n res ∧ Z.of_nat n ≤ FETCH_RETRIES ∧
    match res_json res with
    | Normal data => nullish data = true
    | Thrown _ => True
    end.

(** The first attempt fails, the second succeeds. *)
Definition net_flaky (body : Completion JsValue) : Network :=
  λ k, match k with
       | O => Rejected NetworkFailure
       | S _ => Resolved {| res_ok := true; res_status := 200; res_json := body |}
       end.

(** * Properties *)

(** ** String forms *)

Lemma to_double_small (v : Z) : 0 ≤ v < 2 ^ 53 → to_double v = v.
Proof.
  intros Hv. unfold to_double.
  destruct (Z.ltb_spec (Z.log2 v) 53) as [|Hbig]; [done|]. exfalso.
  destruct (Z.eq_dec v 0) as [->|Hne]; [cbn in Hbig; lia|].
  assert (2 ^ 53 ≤ v); [|lia].
  etransitivity; [|apply (Z.log2_spec v); lia].
  apply Z.pow_le_mono_r; lia.
Qed.

Lemma to_double_large (v : Z) : 2 ^ 53 ≤ v → 2 ^ 53 ≤ to_double v.
Proof.
  intros Hv. unfold to_double.
  assert (53 ≤ Z.log2 v) as He by (apply Z.log2_le_pow2; lia).
  destruct (Z.ltb_spec (Z.log2 v) 53) as [|_]; [lia|].
  set (e := Z.log2 v) in *. set (ulp := 2 ^ (e - 52)).
  assert (0 < ulp) as Hulp by (apply Z.pow_pos_nonneg; lia).
  assert (2 ^ e = 2 ^ 52 * ulp) as Hsplit.
  { unfold ulp. rewrite <- Z.pow_add_r by lia. f_equal. lia. }
  assert (2 ^ e ≤ v) as Hlow by (apply (Z.log2_spec v); lia).
  assert (2 ^ 52 ≤ v / ulp) as Hq.
  { apply Z.div_le_lower_bound; lia. }
  assert (2 ^ 53 ≤ 2 ^ e) as Hpow by (apply Z.pow_le_mono_r; lia).
  repeat case_match; nia.
Qed.

Lemma shortest_small (v n : Z) (fuel : nat) (k : Z) :
  0 < v < 2 ^ 53 → shortest v n fuel k = v.
Proof.
  intros Hv. revert k. induction fuel as [|fuel IH]; intros k; [done|].
  cbn [shortest]. cbv zeta.
  set (g := 10 ^ (n - k)).
  assert (0 ≤ g) as Hg by (apply Z.pow_nonneg; lia).
  assert (0 ≤ v / g * g ≤ v) as Hlo.
  { destruct (Z.eq_dec g 0) as [Hz|Hnz]; [rewrite Hz; lia|].
    pose proof (Z.mul_div_le v g). pose proof (Z.div_pos v g). lia. }
  assert (to_double (v / g * g) = v → v / g * g = v) as Hlo'.
  { rewrite to_double_small by lia. done. }
  assert (to_double (v / g * g + g) ≠ v) as Hhi.
  { destruct (Z.eq_dec g 0) as [Hz|Hnz].
    - assert (v / g * g + g = 0) as -> by (rewrite Hz; lia).
      change (to_double 0) with 0. lia.
    - assert (v < v / g * g + g).
      { pose proof (Z.mod_pos_bound v g). pose proof (Z.div_mod v g Hnz). lia. }
      destruct (Z.lt_ge_cases (v / g * g + g) (2 ^ 53)).
      + rewrite to_double_small by lia. lia.
      + pose proof (to_double_large _ H0). lia. }
  destruct (Z.eqb_spec (to_double (v / g * g)) v) as [Heq|_],
           (Z.eqb_spec (to_double (v / g * g + g)) v) as [Heq'|_];
    first [done | by apply Hlo' | apply IH].
Qed.

Lemma number_to_string_safe (z : Z) :
  - 2 ^ 53 < z < 2 ^ 53 → number_to_string (NFin z) = pretty z.
Proof.
  intros Hz. unfold number_to_string.
  destruct (Z.eqb_spec z 0) as [->|Hne]; [done|]. cbv zeta.
  rewrite to_double_small by lia.
  assert (Z.log2 (Z.abs z) < 53) as Hlog by (apply Z.log2_lt_pow2; lia).
  destruct (Z.leb_spec 1024 (Z.log2 (Z.abs z))) as [|_]; [lia|].
  rewrite shortest_small by lia. unfold decimal_of.
  destruct (Z.ltb_spec (Z.abs z) (10 ^ 21)) as [_|Hbig].
  2: { assert (2 ^ 53 < 10 ^ 21) by done. lia. }
  destruct z as [|p|p]; [done|done|]. done.
Qed.

(** Beyond the safe integers the digits are the shortest that read back,
    and from 10^21 on the exponent is written. *)
Example string_of_large_numbers :
  number_to_string (NFin (2 ^ 60)) = "1152921504606847000" ∧
  number_to_string (NFin (10 ^ 21)) = "1e+21" ∧
  number_to_string (NFin (2 ^ 70)) = "1.1805916207174113e+21" ∧
  number_to_string (NFin (- 10 ^ 22)) = "-1e+22".
Proof. by vm_compute. Qed.

Example string_of_values :
  js_String (JArr [JNum (NFin 1); JNull; JArr [JStr "a"; JUndefined]; JObj []])
  = Normal "1,,a,,[object Object]" ∧
  js_String (JObj [("toString", JNull)]) = Thrown TypeError ∧
  js_String (JArr [JStr "a"; JObj [("toString", JStr "x")]]) = Thrown TypeError.
Proof. by vm_compute. Qed.

(** ** The matcher *)

Lemma js_String_stringable (v : JsValue) :
  stringable v = true → ∃ s, string_form v = Some s ∧ js_String v = Normal s.
Proof.
  unfold stringable, js_String. rewrite bool_decide_eq_true.
  intros [s Hs]. exists s. by rewrite Hs.
Qed.

Lemma js_String_not_stringable (v : JsValue) :
  stringable v = false → js_String v = Thrown TypeError.
Proof.
  unfold stringable, js_String. rewrite bool_decide_eq_false.
  destruct (string_form v) as [s|]; [|done]. intros []. by exists s.
Qed.

(** Reading the [seller_id] of every entry and converting it: the string
    forms over seller records, a TypeError over anything else. *)
Lemma mapC_cases (R : list JsValue) :
  (seller_records R ∧
   mapC (λ s, id ← get_prop s "seller_id"; js_String id) R
   = Normal (string_forms (map seller_id_of R))) ∨
  (¬ seller_records R ∧
   mapC (λ s, id ← get_prop s "seller_id"; js_String id) R = Thrown TypeError).
Proof.
  induction R as [|r R IH]; [left; by split; [constructor|]|].
  cbn [mapC map]. destruct (nullish r) eqn:Hr.
  { right. split; [|by destruct r].
    intros Hrec. apply Forall_cons in Hrec as [[Hnull _] _]. congruence. }
  assert (get_prop r "seller_id" = Normal (seller_id_of r)) as -> by (by destruct r).
  cbn. destruct (stringable (seller_id_of r)) eqn:Hs.
  - apply js_String_stringable in Hs as Hs'. destruct Hs' as (s & Hform & ->). cbn.
    destruct IH as [[Hrec ->]|[Hnot ->]]; cbn.
    + left. split; [by constructor|]. unfold string_forms. cbn [omap]. by rewrite Hform.
    + right. split; [|done]. intros Hrec. apply Hnot. by apply Forall_cons in Hrec as [_ ?].
  - rewrite (js_String_not_stringable _ Hs). cbn. right. split; [|done].
    intros Hrec. apply Forall_cons in Hrec as [[_ Hyes] _]. congruence.
Qed.

Lemma countMatches_cases (S : gset string) (P : list JsValue) (acc : nat) :
  (Forall (λ id, stringable id = true) P ∧
   countMatches S P acc
   = Normal (acc + length (filter (λ s, s ∈ S) (string_forms P)))%nat) ∨
  (¬ Forall (λ id, stringable id = true) P ∧ countMatches S P acc = Thrown TypeError).
Proof.
  revert acc. induction P as [|id P IH]; intros acc.
  { left. split; [constructor|]. cbn. f_equal. lia. }
  cbn [countMatches]. destruct (stringable id) eqn:Hid.
  - apply js_String_stringable in Hid as Hid'. destruct Hid' as (s & Hform & ->). cbn.
    destruct (IH (if decide (s ∈ S) then Datatypes.S acc else acc)) as [[HP ->]|[Hnot ->]].
    + left. split; [by constructor|].
      unfold string_forms. cbn [omap]. rewrite Hform. cbv iota beta.
      rewrite filter_cons. destruct (decide (s ∈ S)); cbn [length]; f_equal; lia.
    + right. split; [|done]. intros HP. apply Hnot. by apply Forall_cons in HP as [_ ?].
  - rewrite (js_String_not_stringable _ Hid). cbn. right. split; [|done].
    intros HP. apply Forall_cons in HP as [Hyes _]. congruence.
Qed.

Lemma filter_ext_length {A} (P Q : A → Prop) `{∀ x, Decision (P x), ∀ x, Decision (Q x)}
    (l : list A) :
  (∀ x, P x ↔ Q x) → length (filter P l) = length (filter Q l).
Proof.
  intros HPQ. induction l as [|x l IH]; [done|].
  rewrite !filter_cons.
  destruct (decide (P x)) as [HP|HP], (decide (Q x)) as [HQ|HQ]; cbn;
    rewrite ?IH; try done; exfalso; [apply HQ, HPQ, HP | apply HP, HPQ, HQ].
Qed.

(** The matcher: the count of the specification on what it can read, a
    TypeError on anything else. *)
Lemma matchIds_cases (P R : list JsValue) :
  (matchable P R ∧ matchIds P R = Normal (spec_match P R)) ∨
  (¬ matchable P R ∧ matchIds P R = Thrown TypeError).
Proof.
  unfold matchIds, buildSellersSet.
  destruct (mapC_cases R) as [[HR ->]|[Hnot ->]]; cbn.
  - destruct (countMatches_cases (list_to_set (string_forms (map seller_id_of R))) P 0)
      as [[HP ->]|[Hnot ->]].
    + left. split; [done|]. cbn. unfold spec_match.
      f_equal. apply filter_ext_length. intros id. apply elem_of_list_to_set.
    + right. split; [|done]. intros [_ HP]. by apply Hnot.
  - right. split; [|done]. intros [HR _]. by apply Hnot.
Qed.

Lemma matchIds_spec (P R : list JsValue) :
  matchable P R → matchIds P R = Normal (spec_match P R).
Proof. intros Hm. by destruct (matchIds_cases P R) as [[_ ?]|[? _]]. Qed.

Lemma matchIds_throws (P R : list JsValue) :
  ¬ matchable P R → matchIds P R = Thrown TypeError.
Proof. intros Hm. by destruct (matchIds_cases P R) as [[? _]|[_ ?]]. Qed.

(** A [null] entry makes the matcher throw at [s.seller_id]. *)
Lemma matchIds_null_entry (P R1 R2 : list JsValue) (r : JsValue) :
  nullish r = true → matchIds P (R1 ++ r :: R2) = Thrown TypeError.
Proof.
  intros Hr. apply matchIds_throws. intros [HR _].
  apply Forall_app in HR as [_ HR]. apply Forall_cons in HR as [[Hnull _] _]. congruence.
Qed.

Lemma loadRegistry_lastScanAt f env st :
  loadRegistry env (with_lastScanAt f st) = loadRegistry env st.
Proof. reflexivity. Qed.

(** What a scan does once it is past the gate and the tab check. *)
Lemma doScanForTab_past_gate (tabId now : Z) (env : Env) (st : State) :
  reaches_matcher tabId now env st →
  doScanForTab tabId now env st =
    let st1 := with_lastScanAt <[tabId := now]> st in
    let '(registry, store, calls) := loadRegistry env st in
    let st2 := with_storage store st1 in
    let calls := TabsGet tabId :: ExecuteScript tabId :: calls in
    match matchIds (pageIdsOf env) registry with
    | Thrown e => (st2, calls, Failed e)
    | Normal matches =>
        let st3 := with_counts <[tabId := Z.of_nat matches]> st2 in
        (st3,
         calls ++ TabsQuery ::
           (if decide (env_active env = Some tabId) then applyBadgeForTab tabId st3 else []),
         Counted matches)
    end.
Proof.
  intros (Hb & Hcool & Htab). unfold doScanForTab.
  rewrite Hb. cbn [negb].
  apply Z.ltb_ge in Hcool. rewrite Hcool, Htab. cbn [negb].
  by rewrite loadRegistry_lastScanAt.
Qed.

(** A scan that is past the gate and the tab check counts what the
    matcher can read and fails on anything else. *)
Lemma doScanForTab_matcher (tabId now : Z) (env : Env) (st : State) :
  reaches_matcher tabId now env st →
  (matchable (pageIdsOf env) (registryOf env st) ∧
   (doScanForTab tabId now env st).2
   = Counted (spec_match (pageIdsOf env) (registryOf env st)) ∧
   countsByTab (doScanForTab tabId now env st).1.1 !! tabId
   = Some (Z.of_nat (spec_match (pageIdsOf env) (registryOf env st)))) ∨
  (¬ matchable (pageIdsOf env) (registryOf env st) ∧
   (doScanForTab tabId now env st).2 = Failed TypeError ∧
   countsByTab (doScanForTab tabId now env st).1.1 = countsByTab st).
Proof.
  intros Hreach. rewrite (doScanForTab_past_gate _ _ _ _ Hreach). unfold registryOf.
  destruct (loadRegistry env st) as [[registry store] calls]. cbn [fst snd].
  destruct (matchIds_cases (pageIdsOf env) registry) as [[Hyes ->]|[Hno ->]].
  - left. split; [done|]. cbn. split; [done|]. apply lookup_insert_eq.
  - right. by split.
Qed.

(** A registry with a [null] entry, and one with a [seller_id] that has
    no string form: both make the scan throw where the specification
    expects a count. *)
Lemma C1_counterexample :
  reaches_matcher 7 100000 sample_env (initial null_entry_store) ∧
  ¬ scan_counts_matches 7 100000 sample_env (initial null_entry_store) ∧
  reaches_matcher 7 100000 sample_env (initial odd_id_store) ∧
  ¬ scan_counts_matches 7 100000 sample_env (initial odd_id_store).
Proof.
  split; [repeat split; by vm_compute|].
  split; [intros Hclaim; vm_compute in Hclaim; discriminate Hclaim|].
  split; [repeat split; by vm_compute|].
  intros Hclaim. vm_compute in Hclaim. discriminate Hclaim.
Qed.

(** C1.  For a scan that gets to the matcher with the page ids P and the
    registry R: when the matcher can read them (no entry of R is [null] or
    [undefined], and every seller_id of R and every id of P has a string
    form), the scan returns, and stores for the tab, the number of ids of
    P whose string form is one of the string forms of the seller_id fields
    of R; otherwise it throws a TypeError and the counts stay as they
    were.  Either way every other scan that gets to the matcher with the
    same P and R ends the same way. *)
Theorem C1_scan_counts_exact_matches (tabId now : Z) (env : Env) (st : State)
    (P R : list JsValue) :
  reaches_matcher tabId now env st →
  pageIdsOf env = P → registryOf env st = R →
  (matchable P R →
   (doScanForTab tabId now env st).2 = Counted (spec_match P R) ∧
   countsByTab (doScanForTab tabId now env st).1.1 !! tabId
     = Some (Z.of_nat (spec_match P R))) ∧
  (¬ matchable P R →
   (doScanForTab tabId now env st).2 = Failed TypeError ∧
   countsByTab (doScanForTab tabId now env st).1.1 = countsByTab st) ∧
  ∀ tabId' now' env' st',
    reaches_matcher tabId' now' env' st' →
    pageIdsOf env' = P → registryOf env' st' = R →
    (doScanForTab tabId' now' env' st').2 = (doScanForTab tabId now env st).2.
Proof.
  intros Hreach HP HR.
  pose proof (doScanForTab_matcher _ _ _ _ Hreach) as Hscan. rewrite HP, HR in Hscan.
  split; [|split].
  - intros Hyes. by destruct Hscan as [(_ & ? & ?)|[Hno _]].
  - intros Hno. by destruct Hscan as [[Hyes _]|(_ & ? & ?)].
  - intros tabId' now' env' st' Hreach' HP' HR'.
    pose proof (doScanForTab_matcher _ _ _ _ Hreach') as Hscan'.
    rewrite HP', HR' in Hscan'.
    destruct Hscan as [(Hyes & -> & _)|(Hno & -> & _)],
             Hscan' as [(Hyes' & -> & _)|(Hno' & -> & _)]; done.
Qed.

Lemma C1_witness :
  reaches_matcher 7 100000 sample_env (initial sample_store) ∧
  matchable [JStr "123"; JStr "789"] [seller "123"; seller "456"] ∧
  (doScanForTab 7 100000 sample_env (initial sample_store)).2 = Counted 1.
Proof.
  assert (reaches_matcher 7 100000 sample_env (initial sample_store)) as Hreach.
  { repeat split; by vm_compute. }
  assert (matchable [JStr "123"; JStr "789"] [seller "123"; seller "456"]) as Hyes.
  { split; by repeat constructor. }
  split; [exact Hreach|]. split; [exact Hyes|].
  exact (proj1 (proj1 (C1_scan_counts_exact_matches 7 100000 sample_env
                         (initial sample_store)
                         [JStr "123"; JStr "789"] [seller "123"; seller "456"]
                         Hreach eq_refl eq_refl) Hyes)).
Defined.

(** The scenarios of the specification. *)
Example scenario_one_match :
  matchIds [JStr "123"; JStr "789"] [seller "123"; seller "456"] = Normal 1%nat.
Proof. reflexivity. Qed.

Example scenario_number_ids :
  matchIds [JStr "123"; JNum (NFin 456)]
    [JObj [("seller_id", JNum (NFin 123))]; seller "456"; seller "4567"]
  = Normal 2%nat.
Proof. reflexivity. Qed.

Example scenario_empty_registry :
  (doScanForTab 7 100000 sample_env (initial empty_store)).2 = Counted 0 ∧
  Refresh true ∈ (doScanForTab 7 100000 sample_env (initial empty_store)).1.2.
Proof.
  split; [reflexivity|].
  do 3 apply list_elem_of_further. apply list_elem_of_here.
Qed.

(** ** Refreshing the cache *)

Lemma fetchAndCacheSellers_thrown force url net now store e :
  fetchSellers url net = Thrown e →
  fetchAndCacheSellers force url net now store = (store, None).
Proof.
  intros He. unfold fetchAndCacheSellers. rewrite He.
  destruct (String.eqb url ""); [done|]. by destruct force.
Qed.

(** A body without a [sellers] array: the object [{}] answers a refresh of
    a cache that holds two sellers; the refresh returns the empty array and
    the cache is overwritten. *)
Lemma C2_counterexample :
  ¬ refresh_keeps_cache_on false DEFAULT_SELLERS_URL (net_body (Normal (JObj []))) 99
      sample_store.
Proof.
  intros Hclaim.
  assert (RefreshFailure DEFAULT_SELLERS_URL (net_body (Normal (JObj [])))) as Hfail.
  { eapply MalformedShape; [reflexivity | reflexivity |].
    intros l. vm_compute. discriminate. }
  specialize (Hclaim Hfail). vm_compute in Hclaim. discriminate.
Qed.

(** C2 (amended).  A refresh whose fetch fails, whose body does not parse,
    or whose body is [null], returns [null] and leaves the storage as it
    was, so that [getCachedSellers] reads the same data afterwards.  A body
    that parses to a value other than [null] without a [sellers] array is
    not a failure: the refresh stores the empty array with the current time
    and returns the empty array. *)
Theorem C2_refresh_failure_keeps_cache (force : bool) (url : string) (net : Network)
    (now : Z) (store : Storage) :
  let fetched :=
    (fetchWithTimeoutAndRetry url (Some FETCH_TIMEOUT_MS) (Some FETCH_RETRIES) net).2 in
  let after := fetchAndCacheSellers force url net now store in
  ((∃ e, fetched = Thrown e) ∨
   (∃ res e, fetched = Normal (Some res) ∧ res_json res = Thrown e) ∨
   (∃ res data, fetched = Normal (Some res) ∧ res_json res = Normal data ∧
                nullish data = true) →
   after = (store, None) ∧ getCachedSellers after.1 = getCachedSellers store) ∧
  (∀ res data,
     url ≠ "" →
     fetched = Normal (Some res) → res_json res = Normal data →
     nullish data = false → (∀ l, get_prop data "sellers" ≠ Normal (JArr l)) →
     after = ({| stored_sellers := Some []; stored_ts := Some now |}, Some [])).
Proof.
  cbn zeta. split.
  - intros Hmode.
    assert (∃ e, fetchSellers url net = Thrown e) as [e He].
    { unfold fetchSellers.
      destruct Hmode as [[e ->] | [(res & e & -> & Hjson) | (res & data & -> & Hjson & Hnull)]].
      + by exists e.
      + exists e. cbn. by rewrite Hjson.
      + exists TypeError. cbn. rewrite Hjson. cbn. by destruct data. }
    by rewrite (fetchAndCacheSellers_thrown _ _ _ _ _ _ He).
  - intros res data Hurl Hfetched Hjson Hnull Hshape.
    unfold fetchAndCacheSellers, fetchSellers.
    apply String.eqb_neq in Hurl. rewrite Hurl, Hfetched. cbn. rewrite Hjson. cbn.
    destruct data as [| |b|n|s|elems|props]; try done; cbn.
    destruct (assoc "sellers" props) eqn:Hs; try done.
    exfalso. eapply Hshape. cbn. by rewrite Hs.
Qed.

Lemma C2_witness :
  (fetchAndCacheSellers true DEFAULT_SELLERS_URL net_down 99 sample_store
     = (sample_store, None) ∧
   getCachedSellers
     (fetchAndCacheSellers true DEFAULT_SELLERS_URL net_down 99 sample_store).1
     = getCachedSellers sample_store) ∧
  fetchAndCacheSellers true DEFAULT_SELLERS_URL (net_body (Normal (JObj []))) 99 sample_store
    = ({| stored_sellers := Some []; stored_ts := Some 99 |}, Some []).
Proof.
  split.
  - apply (proj1 (C2_refresh_failure_keeps_cache true DEFAULT_SELLERS_URL net_down 99
                    sample_store)).
    left. by exists NetworkFailure.
  - apply (proj2 (C2_refresh_failure_keeps_cache true DEFAULT_SELLERS_URL
                    (net_body (Normal (JObj []))) 99 sample_store)
             {| res_ok := true; res_status := 200; res_json := Normal (JObj []) |}
             (JObj [])); try done.
Defined.

(** ** Staleness *)

Lemma scanStale_spec (cached : Cached) (now ttl : Z) :
  scanStale cached now ttl = true ↔ sellers cached = [] ∨ now - ts cached > ttl.
Proof.
  unfold scanStale. rewrite orb_true_iff, Nat.eqb_eq, Z.gtb_gt.
  by rewrite length_zero_iff_nil.
Qed.

(** C3.  The condition that doScanForTab tests before it counts is true
    exactly when the cached sellers are empty or now - fetchedAt > ttl; in
    particular it is true whenever the cached sellers are empty, and with
    sellers in the cache it is true iff now - fetchedAt > ttl.  The scan
    calls fetchAndCacheSellers exactly when the condition is true. *)
Theorem C3_scan_staleness (cached : Cached) (now ttl : Z) (env : Env) (st : State) :
  (scanStale cached now ttl = true ↔ sellers cached = [] ∨ now - ts cached > ttl) ∧
  (Refresh true ∈ (loadRegistry env st).2 ↔
   scanStale (getCachedSellers (storage st)) (env_now_stale env) (cacheTtlMs st) = true).
Proof.
  split; [apply scanStale_spec|].
  unfold loadRegistry.
  destruct (scanStale _ _ _).
  - destruct (fetchAndCacheSellers _ _ _ _ _) as [store fetched]. cbn.
    split; [done|]. intros _. apply list_elem_of_further, list_elem_of_here.
  - cbn. split; [|done]. intros Hin.
    apply list_elem_of_singleton in Hin. discriminate.
Qed.

(** An empty cache with a fresh time stamp (what a refresh leaves when the
    body has no sellers): the request does not start a refresh. *)
Lemma C4_counterexample :
  ¬ cache_request_refreshes_when_stale 2000 sample_env
      (initial {| stored_sellers := Some []; stored_ts := Some 1000 |}).
Proof.
  intros [_ Hclaim].
  assert (Refresh false
          ∈ (onMessage GetSellersCache None 2000 sample_env
               (initial {| stored_sellers := Some []; stored_ts := Some 1000 |})).2) as Hin.
  { apply Hclaim. by left. }
  change (Refresh false
          ∈ [StorageGet;
             SendResponse (JObj [("sellers", JArr []); ("ts", JNum (NFin 1000))])]) in Hin.
  repeat (apply elem_of_cons in Hin as [Hin|Hin]; [discriminate|]).
  by apply elem_of_nil in Hin.
Qed.

(** C4 (amended).  The getSellersCache handler answers with the sellers and
    the time stamp it read from the storage, leaves the state as it was and
    waits for no refresh (its answer does not depend on the network); it
    starts a refresh in the background exactly when the stored time stamp
    is absent or zero, or now - fetchedAt exceeds the ttl. *)
Theorem C4_cache_request (sender : option Z) (now : Z) (env : Env) (st : State) :
  let cached := getCachedSellers (storage st) in
  let after := onMessage GetSellersCache sender now env st in
  after.1 = st ∧
  last after.2 = Some (SendResponse (JObj [("sellers", JArr (sellers cached));
                                           ("ts", JNum (NFin (ts cached)))])) ∧
  Forall (λ c, waits_for_refresh c = false) after.2 ∧
  (∀ env', onMessage GetSellersCache sender now env' st = after) ∧
  (Refresh false ∈ after.2 ↔ ts cached = 0 ∨ now - ts cached > cacheTtlMs st).
Proof.
  cbn zeta. cbn [onMessage fst snd].
  set (cached := getCachedSellers (storage st)).
  assert ((ts cached =? 0) || (now - ts cached >? cacheTtlMs st) = true
          ↔ ts cached = 0 ∨ now - ts cached > cacheTtlMs st) as Hcond.
  { by rewrite orb_true_iff, Z.eqb_eq, Z.gtb_gt. }
  destruct ((ts cached =? 0) || (now - ts cached >? cacheTtlMs st)); cbn.
  - repeat split; try done.
    + by repeat constructor.
    + intros _. by apply Hcond.
    + intros _. apply list_elem_of_further, list_elem_of_here.
  - repeat split; try done.
    + by repeat constructor.
    + intros Hin.
      repeat (apply elem_of_cons in Hin as [Hin|Hin]; [discriminate|]).
      by apply elem_of_nil in Hin.
    + intros H. apply Hcond in H. discriminate.
Qed.

(** ** Fetch with retry *)

Section RetryLoop.
Variables (url : string) (timeout retries : Z) (net : Network).

(** The loop from iteration [attempt] on, when [fuel] iterations are
    left before [attempt] passes [retries]. *)
Lemma retryLoop_spec (fuel attempt : nat) :
  (1 ≤ fuel)%nat →
  Z.of_nat attempt + Z.of_nat fuel = retries + 1 →
  ∃ n : nat,
    (1 ≤ n ≤ fuel)%nat ∧
    attempts (retryLoop url timeout retries net fuel attempt).1 = n ∧
    pacing (retryLoop url timeout retries net fuel attempt).1 = paced url (S attempt) n ∧
    running_after (retryLoop url timeout retries net fuel attempt).1 [] = [] ∧
    (retryLoop url timeout retries net fuel attempt).2 ≠ Normal None ∧
    ((∀ k, (attempt ≤ k)%nat → Z.of_nat k ≤ retries → failed (net k)) →
     n = fuel ∧
     (retryLoop url timeout retries net fuel attempt).2
       = Thrown (error_of (net (Z.to_nat retries)))).
Proof.
  revert attempt. induction fuel as [|fuel IH]; intros attempt Hfuel Hsum; [lia|].
  cbn [retryLoop].
  destruct (Z.eqb_spec (Z.of_nat attempt) retries) as [Hlast|Hmore].
  - (* the last iteration: an error leaves the function *)
    assert (fuel = 0%nat) as -> by lia.
    assert (Z.to_nat retries = attempt) as Hidx by lia.
    exists 1%nat. rewrite Hidx. split; [lia|].
    destruct (net attempt) as [res|err] eqn:Hnet; [destruct (res_ok res) eqn:Hok|];
      cbn; rewrite ?Nat.eqb_refl; cbn; (do 4 (split; [done|])); try done.
    intros Hall. specialize (Hall attempt). rewrite Hnet in Hall. cbn in Hall.
    rewrite Hok in Hall. discriminate Hall; lia.
  - (* a failure here is followed by a wait and another round *)
    destruct (IH (S attempt)) as (n & Hn & Hatt & Hpace & Hrun & Hres & Hall); [lia..|].
    destruct (retryLoop url timeout retries net fuel (S attempt)) as [evs r] eqn:Hloop.
    cbn [fst snd] in *.
    assert ((∀ k, (attempt ≤ k)%nat → Z.of_nat k ≤ retries → failed (net k)) →
            S n = S fuel ∧ r = Thrown (error_of (net (Z.to_nat retries)))) as Hall'.
    { intros Hfail. destruct Hall as [-> ->]; [|done].
      intros k Hk. apply Hfail. lia. }
    destruct (net attempt) as [res|err] eqn:Hnet; [destruct (res_ok res) eqn:Hok|].
    + exists 1%nat. cbn. rewrite ?Nat.eqb_refl. cbn. split; [lia|].
      do 4 (split; [done|]).
      intros Hfail. specialize (Hfail attempt). rewrite Hnet in Hfail. cbn in Hfail.
      rewrite Hok in Hfail. discriminate Hfail; lia.
    + exists (S n). cbn [fst snd]. split; [lia|].
      unfold attempts, pacing in *.
      rewrite <- !app_assoc. cbn. rewrite ?Nat.eqb_refl. cbn. rewrite Hatt, Hpace.
      split; [done|]. split; [|by split].
      destruct n; [lia|]. do 2 f_equal. f_equal. lia.
    + exists (S n). cbn [fst snd]. split; [lia|].
      unfold attempts, pacing in *.
      cbn. rewrite ?Nat.eqb_refl. cbn. rewrite Hatt, Hpace.
      split; [done|]. split; [|by split].
      destruct n; [lia|]. do 2 f_equal. f_equal. lia.
Qed.
End RetryLoop.

Lemma retryLoop_first_success (url : string) (timeout retries : Z) (net : Network)
    (res : Response) (n fuel attempt : nat) :
  (n < fuel)%nat →
  Z.of_nat (attempt + n) ≤ retries →
  (∀ k, (attempt ≤ k < attempt + n)%nat → failed (net k)) →
  net (attempt + n)%nat = Resolved res → res_ok res = true →
  (retryLoop url timeout retries net fuel attempt).2 = Normal (Some res) ∧
  attempts (retryLoop url timeout retries net fuel attempt).1 = S n.
Proof.
  revert fuel attempt. induction n as [|n IH]; intros fuel attempt Hfuel Hlast Hfail Hnet Hok.
  - destruct fuel as [|fuel]; [lia|]. cbn [retryLoop].
    rewrite Nat.add_0_r in Hnet. by rewrite Hnet, Hok.
  - destruct fuel as [|fuel]; [lia|]. cbn [retryLoop].
    destruct (Z.eqb_spec (Z.of_nat attempt) retries) as [|_]; [lia|].
    destruct (IH fuel (S attempt)) as [Hres Hatt]; try done; try lia.
    { intros k Hk. apply Hfail. lia. }
    { by rewrite Nat.add_succ_l, <- Nat.add_succ_r. }
    pose proof (Hfail attempt) as Hthis.
    destruct (retryLoop url timeout retries net fuel (S attempt)) as [evs r].
    cbn [fst snd] in *.
    destruct (net attempt) as [r0|err]; [destruct (res_ok r0) eqn:Hok0|].
    + cbn in Hthis. rewrite Hok0 in Hthis. discriminate Hthis. lia.
    + cbn [fst snd]. split; [done|]. unfold attempts in *.
      rewrite <- !app_assoc. cbn. by rewrite Hatt.
    + cbn [fst snd]. split; [done|]. unfold attempts in *. cbn. by rewrite Hatt.
Qed.

(** C7.  With maxRetries >= 0, fetchWithTimeoutAndRetry makes at least one
    and at most 1 + maxRetries attempts; between attempt k and attempt k+1
    it waits 300 ms x k and nothing else happens in between but the
    clearing of the abort timer; no abort timer it started is still running
    when it returns or throws; when every attempt fails it has made exactly
    1 + maxRetries attempts and throws the error of the last one.  With no
    [retries] option, maxRetries is 1. *)
Theorem C7_fetch_retry_bounded (url : string) (timeout : option Z) (retries : Z)
    (net : Network) :
  0 ≤ retries →
  let call := fetchWithTimeoutAndRetry url timeout (Some retries) net in
  (1 ≤ attempts call.1)%nat ∧
  Z.of_nat (attempts call.1) ≤ 1 + retries ∧
  pacing call.1 = paced url 1 (attempts call.1) ∧
  running_after call.1 [] = [] ∧
  ((∀ k, Z.of_nat k ≤ retries → failed (net k)) →
   Z.of_nat (attempts call.1) = 1 + retries ∧
   call.2 = Thrown (error_of (net (Z.to_nat retries)))) ∧
  fetchWithTimeoutAndRetry url timeout None net
    = fetchWithTimeoutAndRetry url timeout (Some 1) net.
Proof.
  intros Hretries. unfold fetchWithTimeoutAndRetry. cbv zeta.
  change (default FETCH_RETRIES (Some retries)) with retries.
  destruct (retryLoop_spec url (default FETCH_TIMEOUT_MS timeout) retries net
              (Z.to_nat (retries + 1)) 0)
    as (n & Hn & Hatt & Hpace & Hrun & _ & Hall); [lia..|].
  rewrite Hatt.
  split; [lia|]. split; [lia|]. split; [done|]. split; [done|].
  split; [|done].
  intros Hfail. destruct Hall as [-> ->]; [|split; [lia|done]].
  intros k _. apply Hfail.
Qed.

Lemma C7_witness :
  0 ≤ 1 ∧
  (∀ k : nat, Z.of_nat k ≤ 1 → failed (net_down k)) ∧
  Z.of_nat (attempts (fetchWithTimeoutAndRetry DEFAULT_SELLERS_URL None (Some 1) net_down).1)
    = 1 + 1 ∧
  (fetchWithTimeoutAndRetry DEFAULT_SELLERS_URL None (Some 1) net_down).2
    = Thrown NetworkFailure.
Proof.
  assert (∀ k : nat, Z.of_nat k ≤ 1 → failed (net_down k)) as Hdown by done.
  split; [lia|]. split; [exact Hdown|].
  apply (C7_fetch_retry_bounded DEFAULT_SELLERS_URL None 1 net_down); [lia|exact Hdown].
Defined.

(** ** What the handlers do to the state *)

Lemma scans_app (a b : list Effect) : scans (a ++ b) = scans a ++ scans b.
Proof. apply omap_app. Qed.

Lemma scans_cons (c : Effect) (calls : list Effect) :
  scans (c :: calls) = match scan_started c with
                       | Some tabId => tabId :: scans calls
                       | None => scans calls
                       end.
Proof. reflexivity. Qed.

Lemma scans_net (evs : list NetEvent) : scans (map Net evs) = [].
Proof. induction evs as [|e evs IH]; [done|]. exact IH. Qed.

Lemma scans_refreshCalls url net after result : scans (refreshCalls url net after result) = [].
Proof.
  unfold refreshCalls. destruct (String.eqb url ""); [done|].
  rewrite scans_app, scans_net. by destruct result.
Qed.

Lemma scans_applyBadgeForTab tabId st : scans (applyBadgeForTab tabId st) = [].
Proof. unfold applyBadgeForTab. by repeat case_match. Qed.

Lemma scans_loadRegistry env st : scans (loadRegistry env st).2 = [].
Proof.
  unfold loadRegistry. destruct (scanStale _ _ _); [|done].
  destruct (fetchAndCacheSellers _ _ _ _ _) as [store fetched]. cbn.
  apply scans_refreshCalls.
Qed.

Lemma doScanForTab_skips tabId now env st :
  badgeEnabled st = false ∨ now - default 0 (lastScanAt st !! tabId) < SCAN_COOLDOWN_MS →
  doScanForTab tabId now env st = (st, [], Skipped).
Proof.
  intros Hskip. unfold doScanForTab.
  destruct (badgeEnabled st); cbn [negb]; [|done].
  destruct Hskip as [?|Hcool]; [done|].
  apply Z.ltb_lt in Hcool. by rewrite Hcool.
Qed.

(** The four ways a scan can end. *)
Lemma doScanForTab_cases tabId now env st (Q : State * list Effect * ScanOutcome → Prop) :
  Q (st, [], Skipped) →
  (badgeEnabled st = true →
   SCAN_COOLDOWN_MS ≤ now - default 0 (lastScanAt st !! tabId) →
   Q (with_lastScanAt <[tabId := now]> st, [TabsGet tabId], Aborted)) →
  (∀ store calls e,
     badgeEnabled st = true →
     SCAN_COOLDOWN_MS ≤ now - default 0 (lastScanAt st !! tabId) →
     scans calls = [] →
     Q (with_storage store (with_lastScanAt <[tabId := now]> st),
        TabsGet tabId :: ExecuteScript tabId :: calls, Failed e)) →
  (∀ store calls badge matches,
     badgeEnabled st = true →
     SCAN_COOLDOWN_MS ≤ now - default 0 (lastScanAt st !! tabId) →
     scans calls = [] → scans badge = [] →
     Q (with_counts <[tabId := Z.of_nat matches]>
          (with_storage store (with_lastScanAt <[tabId := now]> st)),
        (TabsGet tabId :: ExecuteScript tabId :: calls) ++ TabsQuery :: badge,
        Counted matches)) →
  Q (doScanForTab tabId now env st).
Proof.
  intros Hskip Habort Hfail Hcount.
  destruct (badgeEnabled st) eqn:Hb.
  2: { by rewrite doScanForTab_skips by (by left). }
  destruct (Z.ltb_spec (now - default 0 (lastScanAt st !! tabId)) SCAN_COOLDOWN_MS)
    as [Hcool|Hcool].
  { by rewrite doScanForTab_skips by (by right). }
  destruct (tab_scannable (env_tab env)) eqn:Htab.
  - rewrite doScanForTab_past_gate by done.
    pose proof (scans_loadRegistry env st) as Hload.
    destruct (loadRegistry env st) as [[registry store] calls]. cbn [snd] in Hload.
    destruct (matchIds (pageIdsOf env) registry) as [matches|e]; cbn zeta.
    + apply Hcount; try done.
      case_decide; [|done]. apply scans_applyBadgeForTab.
    + by apply Hfail.
  - unfold doScanForTab. rewrite Hb. cbn [negb].
    rewrite (proj2 (Z.ltb_ge _ _) Hcool), Htab. cbn [negb].
    by apply Habort.
Qed.

Lemma doScanForTab_gate tabId now env st :
  gate_outcome tabId now st (doScanForTab tabId now env st).1.1
    (doScanForTab tabId now env st).1.2.
Proof.
  apply (doScanForTab_cases tabId now env st (λ r, gate_outcome tabId now st r.1.1 r.1.2));
    cbn [fst snd].
  - by left.
  - intros Hb Hcool. by right.
  - intros store calls e Hb Hcool Hcalls. right.
    rewrite !scans_cons, Hcalls. by cbn.
  - intros store calls badge matches Hb Hcool Hcalls Hbadge. right.
    rewrite scans_app, !scans_cons, Hcalls, Hbadge. by cbn.
Qed.

Lemma doScanForTab_frame tabId now env st :
  same_settings st (doScanForTab tabId now env st).1.1 ∧
  same_timers st (doScanForTab tabId now env st).1.1.
Proof.
  by apply (doScanForTab_cases tabId now env st
              (λ r, same_settings st r.1.1 ∧ same_timers st r.1.1)).
Qed.

Lemma doScanForTab_counts tabId now env st :
  counts_nonneg st → counts_nonneg (doScanForTab tabId now env st).1.1.
Proof.
  intros Hst.
  apply (doScanForTab_cases tabId now env st (λ r, counts_nonneg r.1.1)); try done.
  intros store calls badge matches _ _ _ _.
  apply map_Forall_insert_2; [lia|done].
Qed.

Lemma gate_outcome_pre tab now st st1 st' pre calls :
  lastScanAt st1 = lastScanAt st → badgeEnabled st1 = badgeEnabled st →
  scans pre = [] →
  gate_outcome tab now st1 st' calls → gate_outcome tab now st st' (pre ++ calls).
Proof.
  intros Hlast Hb Hpre. unfold gate_outcome.
  rewrite scans_app, Hpre, Hlast, Hb. by cbn.
Qed.

Lemma gate_outcome_post tab now st st' calls post :
  scans post = [] →
  gate_outcome tab now st st' calls → gate_outcome tab now st st' (calls ++ post).
Proof.
  intros Hpost. unfold gate_outcome.
  by rewrite scans_app, Hpost, !app_nil_r.
Qed.

Lemma scans_cancelScheduled tabId st : scans (cancelScheduled tabId st).2 = [].
Proof. unfold cancelScheduled. by case_match. Qed.

Lemma cancelScheduled_frame tabId st :
  same_settings st (cancelScheduled tabId st).1 ∧
  lastScanAt (cancelScheduled tabId st).1 = lastScanAt st ∧
  countsByTab (cancelScheduled tabId st).1 = countsByTab st ∧
  storage (cancelScheduled tabId st).1 = storage st.
Proof. unfold cancelScheduled. by case_match. Qed.

Lemma scheduleScan_gate tabId now env st :
  gate_outcome tabId now st (scheduleScan tabId now env st).1 (scheduleScan tabId now env st).2.
Proof.
  unfold scheduleScan.
  pose proof (scans_cancelScheduled tabId st) as Hpre.
  destruct (cancelScheduled_frame tabId st) as ((Hb & _) & Hlast & _).
  destruct (cancelScheduled tabId st) as [st1 cancelled]. cbn [fst snd] in *.
  destruct (badgeEnabled st1) eqn:Hb1; cbn [negb].
  2: { left. by cbn [fst snd]. }
  destruct (delayMs st1 =? 0).
  - pose proof (doScanForTab_gate tabId now env st1) as Hgate.
    destruct (doScanForTab tabId now env st1) as [[st' calls] out]. cbn [fst snd] in *.
    apply (gate_outcome_pre _ _ _ st1); try done. by rewrite Hb1.
  - left. cbn [fst snd]. split; [exact Hlast|].
    by rewrite scans_app, Hpre.
Qed.

(** *** Timeouts *)

Lemma timers_wf_same st st' : same_timers st st' → timers_wf st → timers_wf st'.
Proof. intros (Hs & Ht & Hn) Hwf. unfold timers_wf. by rewrite Hs, Ht, Hn. Qed.

Lemma drop_timer_wf tabId t st :
  scheduledTimers st !! tabId = Some t →
  timers_wf st →
  timers_wf (drop_timer tabId t st) ∧
  ∀ u due, timers (drop_timer tabId t st) !! u ≠ Some (tabId, due).
Proof.
  intros Hsched [Hrec Hfresh]. split; [split|]; cbn.
  - intros u tab due Hu.
    apply lookup_delete_Some in Hu as [Hne Hu].
    specialize (Hrec _ _ _ Hu).
    rewrite lookup_delete_ne; [done|]. intros <-. congruence.
  - intros u Hu. destruct (decide (t = u)) as [->|Hne].
    + apply lookup_delete_eq.
    + rewrite lookup_delete_ne by done. by apply Hfresh.
  - intros u due Hu.
    apply lookup_delete_Some in Hu as [Hne Hu].
    specialize (Hrec _ _ _ Hu). congruence.
Qed.

Lemma cancelScheduled_wf tabId st :
  timers_wf st →
  timers_wf (cancelScheduled tabId st).1 ∧
  ∀ u due, timers (cancelScheduled tabId st).1 !! u ≠ Some (tabId, due).
Proof.
  intros Hwf. unfold cancelScheduled.
  destruct (scheduledTimers st !! tabId) as [t|] eqn:Hsched; cbn [fst].
  - by apply drop_timer_wf.
  - split; [done|]. intros u due Hu.
    destruct Hwf as [Hrec _]. specialize (Hrec _ _ _ Hu). congruence.
Qed.

Lemma add_timer_wf tabId due st :
  timers_wf st →
  (∀ u d, timers st !! u ≠ Some (tabId, d)) →
  timers_wf (add_timer tabId due st).
Proof.
  intros [Hrec Hfresh] Hnone. split; cbn.
  - intros u tab d Hu.
    apply lookup_insert_Some in Hu as [[<- [= <- <-]]|[Hne Hu]].
    + apply lookup_insert_eq.
    + rewrite lookup_insert_ne; [by eapply Hrec|].
      intros <-. by eapply Hnone.
  - intros u Hu. rewrite lookup_insert_ne by lia. apply Hfresh. lia.
Qed.

Lemma doScanForTab_wf tabId now env st :
  timers_wf st → timers_wf (doScanForTab tabId now env st).1.1.
Proof. apply timers_wf_same, doScanForTab_frame. Qed.

Lemma scheduleScan_wf tabId now env st :
  timers_wf st → timers_wf (scheduleScan tabId now env st).1.
Proof.
  intros Hwf. unfold scheduleScan.
  destruct (cancelScheduled_wf tabId st Hwf) as [Hwf1 Hnone].
  destruct (cancelScheduled tabId st) as [st1 cancelled]. cbn [fst] in *.
  destruct (badgeEnabled st1); cbn [negb]; [|done].
  destruct (delayMs st1 =? 0).
  - pose proof (doScanForTab_wf tabId now env st1 Hwf1) as Hwf2.
    by destruct (doScanForTab tabId now env st1) as [[st' calls] out].
  - by apply add_timer_wf.
Qed.

Lemma timerFires_gate t now env st :
  ∃ tab, gate_outcome tab now st (timerFires t now env st).1 (timerFires t now env st).2.
Proof.
  unfold timerFires.
  destruct (timers st !! t) as [[tabId due]|]; [|exists 0; by left].
  destruct (due <=? now); [|exists 0; by left].
  exists tabId.
  pose proof (doScanForTab_gate tabId now env (drop_timer tabId t st)) as Hgate.
  by destruct (doScanForTab tabId now env (drop_timer tabId t st)) as [[st' calls] out].
Qed.

Lemma timerFires_wf t now env st :
  timers_wf st → timers_wf (timerFires t now env st).1.
Proof.
  intros Hwf. unfold timerFires.
  destruct (timers st !! t) as [[tabId due]|] eqn:Ht; [|done].
  destruct (due <=? now); [|done].
  assert (timers_wf (drop_timer tabId t st)) as Hwf1.
  { apply drop_timer_wf; [|done]. destruct Hwf as [Hrec _]. by eapply Hrec. }
  pose proof (doScanForTab_wf tabId now env _ Hwf1) as Hwf2.
  by destruct (doScanForTab tabId now env (drop_timer tabId t st)) as [[st' calls] out].
Qed.

Lemma onActivated_gate tabId now env st :
  gate_outcome tabId now st (onActivated tabId now env st).1 (onActivated tabId now env st).2.
Proof.
  unfold onActivated. destruct (badgeEnabled st) eqn:Hb; cbn [negb]; [|by left].
  pose proof (scheduleScan_gate tabId now env st) as Hgate.
  destruct (scheduleScan tabId now env st) as [st' calls]. cbn [fst snd] in *.
  apply (gate_outcome_pre _ _ _ st); try done. apply scans_applyBadgeForTab.
Qed.

Lemma onActivated_wf tabId now env st :
  timers_wf st → timers_wf (onActivated tabId now env st).1.
Proof.
  intros Hwf. unfold onActivated. destruct (badgeEnabled st); cbn [negb]; [|done].
  pose proof (scheduleScan_wf tabId now env st Hwf) as Hwf'.
  by destruct (scheduleScan tabId now env st) as [st' calls].
Qed.

Lemma onUpdated_gate tabId status url now env st :
  gate_outcome tabId now st (onUpdated tabId status url now env st).1
    (onUpdated tabId status url now env st).2.
Proof.
  unfold onUpdated. destruct (badgeEnabled st) eqn:Hb; cbn [negb]; [|by left].
  set (complete := bool_decide (status = Some "complete")).
  set (reset := bool_decide (status = Some "loading") || nonempty url).
  set (st0 := with_counts (delete tabId) st).
  assert (∃ st1 calls1,
    (if reset then
       let '(s, c) := cancelScheduled tabId st0 in (s, c ++ [TabsQuery])
     else (st, [])) = (st1, calls1) ∧
    lastScanAt st1 = lastScanAt st ∧ badgeEnabled st1 = badgeEnabled st ∧
    scans calls1 = []) as (st1 & calls1 & -> & Hlast & Hb1 & Hcalls1).
  { destruct reset; [|by eexists _, _].
    pose proof (scans_cancelScheduled tabId st0) as Hpre.
    destruct (cancelScheduled_frame tabId st0) as ((Hb0 & _) & Hlast & _).
    destruct (cancelScheduled tabId st0) as [s c]. cbn [fst snd] in *.
    eexists _, _. split; [done|]. split; [done|]. split; [done|].
    by rewrite scans_app, Hpre. }
  assert (∃ st2 calls2,
    (if complete && is_active env tabId then scheduleScan tabId now env st1
     else (st1, [])) = (st2, calls2) ∧
    gate_outcome tabId now st1 st2 calls2) as (st2 & calls2 & -> & Hgate).
  { destruct (complete && is_active env tabId).
    - pose proof (scheduleScan_gate tabId now env st1) as Hgate.
      destruct (scheduleScan tabId now env st1) as [st2 calls2]. by eexists _, _.
    - eexists _, _. split; [done|]. by left. }
  cbn [fst snd].
  apply (gate_outcome_pre _ _ _ st); try done.
  { by destruct complete. }
  apply (gate_outcome_pre _ _ _ st1); try done.
  apply gate_outcome_post; [|done].
  destruct (reset && is_active env tabId); [|done]. apply scans_applyBadgeForTab.
Qed.

Lemma onUpdated_wf tabId status url now env st :
  timers_wf st → timers_wf (onUpdated tabId status url now env st).1.
Proof.
  intros Hwf. unfold onUpdated. destruct (badgeEnabled st); cbn [negb]; [|done].
  set (st0 := with_counts (delete tabId) st).
  assert (timers_wf st0) as Hwf0 by done.
  destruct (bool_decide (status = Some "loading") || nonempty url).
  - pose proof (proj1 (cancelScheduled_wf tabId st0 Hwf0)) as Hwf1.
    destruct (cancelScheduled tabId st0) as [st1 calls1]. cbn [fst] in Hwf1.
    destruct (bool_decide (status = Some "complete") && is_active env tabId); [|done].
    pose proof (scheduleScan_wf tabId now env st1 Hwf1) as Hwf2.
    by destruct (scheduleScan tabId now env st1) as [st2 calls2].
  - destruct (bool_decide (status = Some "complete") && is_active env tabId); [|done].
    pose proof (scheduleScan_wf tabId now env st Hwf) as Hwf2.
    by destruct (scheduleScan tabId now env st) as [st2 calls2].
Qed.

Lemma onRemoved_wf tabId st : timers_wf st → timers_wf (onRemoved tabId st).1.
Proof. intros Hwf. unfold onRemoved. by apply cancelScheduled_wf. Qed.

Lemma onMessage_scans m sender now env st :
  lastScanAt (onMessage m sender now env st).1 = lastScanAt st ∧
  same_timers st (onMessage m sender now env st).1 ∧
  scans (onMessage m sender now env st).2 = [].
Proof.
  destruct m as [| | |o|count|count|]; cbn [onMessage]; try done.
  - split; [done|]. split; [done|]. cbn [snd]. rewrite scans_cons. cbn [scan_started].
    rewrite scans_app. by case_match.
  - destruct (fetchAndCacheSellers _ _ _ _ _) as [store fetched]. cbn [fst snd].
    split; [done|]. split; [done|].
    rewrite scans_cons. cbn [scan_started]. by rewrite scans_app, scans_refreshCalls.
  - case_match; cbn [fst snd]; [done|].
    split; [done|]. split; [done|].
    rewrite scans_cons. cbn [scan_started]. rewrite scans_app. by case_match.
  - destruct sender as [tabId|]; cbn [fst snd]; [|done].
    split; [done|]. split; [done|].
    rewrite scans_cons. cbn [scan_started].
    rewrite scans_app. case_match; [|done]. by rewrite scans_applyBadgeForTab.
Qed.

(** A step executes at most one scan; [lastScanAt] changes only there and
    when a tab is removed. *)
Lemma step_gate ev now env st :
  (∃ tab, gate_outcome tab now st (step ev now env st).1 (step ev now env st).2) ∨
  (∃ tab, ev = Removed tab ∧
          lastScanAt (step ev now env st).1 = delete tab (lastScanAt st) ∧
          scans (step ev now env st).2 = []).
Proof.
  destruct ev as [tabId|tabId status url|tabId|t|m sender|url|res]; cbn [step].
  - left. exists tabId. apply onActivated_gate.
  - left. exists tabId. apply onUpdated_gate.
  - right. exists tabId. split; [done|]. unfold onRemoved.
    destruct (cancelScheduled_frame tabId
                (with_lastScanAt (delete tabId) (with_counts (delete tabId) st)))
      as (_ & Hlast & _).
    split; [exact Hlast|]. apply scans_cancelScheduled.
  - left. apply timerFires_gate.
  - left. exists 0. left. destruct (onMessage_scans m sender now env st) as (? & _ & ?).
    by split.
  - left. exists 0. left.
    destruct (fetchAndCacheSellers _ _ _ _ _) as [store fetched]. cbn [fst snd].
    split; [done|]. apply scans_refreshCalls.
  - left. exists 0. left. unfold initSettingsFromStorage. cbn [fst snd].
    split; [done|]. by case_match.
Qed.

Lemma step_wf ev now env st : timers_wf st → timers_wf (step ev now env st).1.
Proof.
  intros Hwf.
  destruct ev as [tabId|tabId status url|tabId|t|m sender|url|res]; cbn [step].
  - by apply onActivated_wf.
  - by apply onUpdated_wf.
  - by apply onRemoved_wf.
  - by apply timerFires_wf.
  - eapply timers_wf_same; [|done]. apply onMessage_scans.
  - by destruct (fetchAndCacheSellers _ _ _ _ _) as [store fetched].
  - done.
Qed.

Lemma initial_wf store : timers_wf (initial store).
Proof. split; [intros t tab due Ht|intros t _]; by rewrite ?lookup_empty in *. Qed.

Lemma run_wf evs st : timers_wf st → timers_wf (run evs st).1.
Proof.
  revert st. induction evs as [|[[ev now] env] evs IH]; intros st Hwf; [done|].
  cbn [run]. pose proof (step_wf ev now env st Hwf) as Hwf1.
  destruct (step ev now env st) as [st1 calls].
  specialize (IH st1 Hwf1). by destruct (run evs st1) as [st2 later].
Qed.

(** ** The cooldown *)

Lemma executions_app tabId a b :
  executions tabId (a ++ b) = (executions tabId a + executions tabId b)%nat.
Proof. unfold executions. by rewrite scans_app, filter_app, length_app. Qed.

Lemma executions_none tabId calls : scans calls = [] → executions tabId calls = 0%nat.
Proof. unfold executions. by intros ->. Qed.

Lemma executions_one tabId tab calls :
  scans calls = [tab] →
  executions tabId calls = if decide (tab = tabId) then 1%nat else 0%nat.
Proof.
  unfold executions. intros ->. rewrite filter_cons, filter_nil. by case_decide.
Qed.

(** What one step does, seen from the tab [tabId] whose session goes on. *)
Lemma step_executes tabId ev now env st :
  keeps_session tabId ev →
  (executions tabId (step ev now env st).2 = 0%nat ∧
   lastScanAt (step ev now env st).1 !! tabId = lastScanAt st !! tabId) ∨
  (executions tabId (step ev now env st).2 = 1%nat ∧
   lastScanAt (step ev now env st).1 !! tabId = Some now ∧
   SCAN_COOLDOWN_MS ≤ now - default 0 (lastScanAt st !! tabId)).
Proof.
  intros Hkeep.
  destruct (step_gate ev now env st)
    as [[tab [[Hlast Hscans]|(_ & Hcool & Hlast & Hscans)]]|(tab & -> & Hlast & Hscans)].
  - left. by rewrite Hlast, (executions_none _ _ Hscans).
  - rewrite Hlast, (executions_one _ _ _ Hscans).
    case_decide as Htab.
    + subst tab. right. by rewrite lookup_insert_eq.
    + left. by rewrite lookup_insert_ne.
  - left. rewrite Hlast, (executions_none _ _ Hscans).
    split; [done|]. apply lookup_delete_ne. intros ->. by apply Hkeep.
Qed.

(** While the last scan of the tab is less than a cooldown old, no scan of
    it is executed. *)
Lemma run_no_execution tabId evs st :
  Forall (λ e, keeps_session tabId e.1.1) evs →
  Forall (λ e, e.1.2 - default 0 (lastScanAt st !! tabId) < SCAN_COOLDOWN_MS) evs →
  executions tabId (run evs st).2 = 0%nat.
Proof.
  revert st. induction evs as [|[[ev now] env] evs IH]; intros st Hkeep Hcool; [done|].
  apply Forall_cons in Hkeep as [Hkeep Hkeeps].
  apply Forall_cons in Hcool as [Hcool Hcools].
  cbn [fst snd] in Hkeep, Hcool. cbn [run].
  pose proof (step_executes tabId ev now env st Hkeep) as Hstep.
  destruct (step ev now env st) as [st1 calls]. cbn [fst snd] in Hstep.
  destruct Hstep as [[Hexec Hlast]|(_ & _ & Hopen)]; [|lia].
  specialize (IH st1 Hkeeps). rewrite Hlast in IH. specialize (IH Hcools).
  destruct (run evs st1) as [st2 later]. cbn [snd] in *.
  rewrite executions_app. lia.
Qed.

Lemma run_one_execution tabId start evs st :
  within_cooldown start evs →
  Forall (λ e, keeps_session tabId e.1.1) evs →
  (executions tabId (run evs st).2 ≤ 1)%nat.
Proof.
  revert st. induction evs as [|[[ev now] env] evs IH]; intros st Hwin Hkeep; [cbn; lia|].
  apply Forall_cons in Hkeep as [Hkeep Hkeeps].
  apply Forall_cons in Hwin as [Hnow Hwin].
  cbn [fst snd] in Hkeep, Hnow. cbn [run].
  pose proof (step_executes tabId ev now env st Hkeep) as Hstep.
  pose proof (run_no_execution tabId evs (step ev now env st).1 Hkeeps) as Hnone.
  destruct (step ev now env st) as [st1 calls]. cbn [fst snd] in Hstep, Hnone.
  specialize (IH st1 Hwin Hkeeps).
  destruct (run evs st1) as [st2 later]. cbn [snd] in *.
  rewrite executions_app.
  destruct Hstep as [[-> _]|(-> & Hlast & _)]; [lia|].
  rewrite Hnone; [lia|].
  rewrite Hlast.
  eapply Forall_impl; [exact Hwin|]. intros e He. cbn in *. lia.
Qed.

Lemma run_app (a b : list (Event * Z * Env)) (st : State) :
  run (a ++ b) st = ((run b (run a st).1).1, (run a st).2 ++ (run b (run a st).1).2).
Proof.
  revert st. induction a as [|[[ev now] env] a IH]; intros st; cbn [app run fst snd].
  - by destruct (run b st).
  - destruct (step ev now env st) as [st1 calls]. rewrite IH.
    destruct (run a st1) as [st2 later]. cbn [fst snd]. by rewrite app_assoc.
Qed.

(** Two executed scans of one session are at least a cooldown apart. *)
Lemma executions_spaced tabId st ev1 now1 env1 mid ev2 now2 env2 :
  now1 ≤ now2 →
  Forall (λ e, now1 ≤ e.1.2 ≤ now2) mid →
  Forall (λ e, keeps_session tabId e.1.1) ((ev1, now1, env1) :: mid ++ [(ev2, now2, env2)]) →
  executions tabId (step ev1 now1 env1 st).2 = 1%nat →
  executions tabId (step ev2 now2 env2 (run mid (step ev1 now1 env1 st).1).1).2 = 1%nat →
  SCAN_COOLDOWN_MS ≤ now2 - now1.
Proof.
  intros Hclock Hmid Hkeep Hfirst Hsecond.
  destruct (Z.le_gt_cases SCAN_COOLDOWN_MS (now2 - now1)) as [|Hnear]; [done|]. exfalso.
  assert (within_cooldown now1 ((ev1, now1, env1) :: mid ++ [(ev2, now2, env2)])) as Hwin.
  { apply Forall_cons. split; [cbn; unfold SCAN_COOLDOWN_MS in *; lia|].
    apply Forall_app. split.
    - eapply Forall_impl; [exact Hmid|]. intros e He. cbn beta in *. lia.
    - repeat constructor; cbn; lia. }
  pose proof (run_one_execution tabId now1 _ st Hwin Hkeep) as Hone.
  cbn [run] in Hone.
  destruct (step ev1 now1 env1 st) as [st1 calls1]. cbn [fst snd] in *.
  rewrite run_app in Hone. cbn [run fst snd] in Hone.
  destruct (run mid st1) as [st2 calls2]. cbn [fst snd] in *.
  destruct (step ev2 now2 env2 st2) as [st3 calls3]. cbn [fst snd] in *.
  rewrite !executions_app, Hfirst, Hsecond in Hone. lia.
Qed.

(** Two triggers of one session, 59 seconds apart, and two executed
    scans: the second trigger only sets a timeout, and when that fires the
    cooldown of the first scan is over. *)
Lemma C5_counterexample :
  ¬ triggers_give_one_scan 7 100000 late_scan (initial sample_store).
Proof.
  unfold triggers_give_one_scan. intros Hclaim.
  assert (executions 7 (run late_scan (initial sample_store)).2 = 2%nat) as Htwo
    by reflexivity.
  rewrite Htwo in Hclaim. apply (Nat.nle_succ_diag_l 1), Hclaim.
  repeat constructor; cbn; intros; try done; unfold SCAN_COOLDOWN_MS; lia.
Qed.

(** C5.  Whatever events arrive for a session within one cooldown window
    (trigger events, timers, messages, in any number), at most one scan of
    that session gets past the gate; two scans of a session that do get
    past the gate are at least one cooldown apart; and a scan that the gate
    rejects returns at once, with the state as it was and no call made.
    The window is taken where the pipeline is entered: a trigger enters it
    at once with immediate timing, and executes no scan itself with
    delayed timing, where the pipeline is entered when the timeout
    fires. *)
Theorem C5_cooldown_one_scan_per_window (tabId : Z) :
  (∀ start evs st,
     within_cooldown start evs →
     Forall (λ e, keeps_session tabId e.1.1) evs →
     (executions tabId (run evs st).2 ≤ 1)%nat) ∧
  (∀ st ev1 now1 env1 mid ev2 now2 env2,
     now1 ≤ now2 →
     Forall (λ e, now1 ≤ e.1.2 ≤ now2) mid →
     Forall (λ e, keeps_session tabId e.1.1)
       ((ev1, now1, env1) :: mid ++ [(ev2, now2, env2)]) →
     executions tabId (step ev1 now1 env1 st).2 = 1%nat →
     executions tabId (step ev2 now2 env2 (run mid (step ev1 now1 env1 st).1).1).2 = 1%nat →
     SCAN_COOLDOWN_MS ≤ now2 - now1) ∧
  (∀ now env st,
     now - default 0 (lastScanAt st !! tabId) < SCAN_COOLDOWN_MS →
     doScanForTab tabId now env st = (st, [], Skipped)) ∧
  (∀ now env st,
     badgeEnabled st = true →
     scans (step (Activated tabId) now env st).2
     = if delayMs st =? 0
       then scans (doScanForTab tabId now env (cancelScheduled tabId st).1).1.2
       else []).
Proof.
  split; [|split; [|split]].
  - intros start evs st. apply run_one_execution.
  - intros st ev1 now1 env1 mid ev2 now2 env2. apply executions_spaced.
  - intros now env st Hcool. apply doScanForTab_skips. by right.
  - intros now env st Hb. cbn [step]. unfold onActivated, scheduleScan.
    rewrite Hb. cbn [negb].
    pose proof (scans_cancelScheduled tabId st) as Hpre.
    destruct (cancelScheduled_frame tabId st) as ((Hb' & _ & _ & _ & Htiming & Hdelay) & _).
    destruct (cancelScheduled tabId st) as [st1 cancelled]. cbn [fst snd] in *.
    assert (delayMs st1 = delayMs st) as -> by (unfold delayMs; by rewrite Htiming, Hdelay).
    rewrite Hb', Hb. cbn [negb].
    destruct (delayMs st =? 0).
    + destruct (doScanForTab tabId now env st1) as [[st2 calls] out]. cbn [fst snd].
      by rewrite !scans_app, scans_applyBadgeForTab, Hpre.
    + cbn [snd]. by rewrite !scans_app, scans_applyBadgeForTab, Hpre.
Qed.

Lemma C5_witness :
  within_cooldown 100000 two_activations ∧
  Forall (λ e, keeps_session 7 e.1.1) two_activations ∧
  (executions 7 (run two_activations (initial sample_store)).2 ≤ 1)%nat.
Proof.
  assert (within_cooldown 100000 two_activations) as Hwin.
  { repeat constructor; cbn; unfold SCAN_COOLDOWN_MS; lia. }
  assert (Forall (λ e, keeps_session 7 e.1.1) two_activations) as Hkeep.
  { by repeat constructor. }
  split; [exact Hwin|]. split; [exact Hkeep|].
  exact (proj1 (C5_cooldown_one_scan_per_window 7) 100000 two_activations
           (initial sample_store) Hwin Hkeep).
Defined.

Example two_activations_one_scan :
  executions 7 (run two_activations (initial sample_store)).2 = 1%nat.
Proof. reflexivity. Qed.




(** ** Rescheduling *)





(** ** The badge switch *)

Lemma silent_refreshCalls url net after result :
  Forall (λ c, silent c = true) (refreshCalls url net after result).
Proof.
  unfold refreshCalls. destruct (String.eqb url ""); [done|].
  apply Forall_app. split.
  - apply Forall_map. by apply Forall_true.
  - destruct result; by repeat constructor.
Qed.

Lemma cancelScheduled_silent tabId st :
  Forall (λ c, silent c = true) (cancelScheduled tabId st).2 ∧
  timers (cancelScheduled tabId st).1 ⊆ timers st.
Proof.
  unfold cancelScheduled. case_match; cbn [fst snd]; [|done].
  split; [by repeat constructor|]. apply delete_subseteq.
Qed.

Lemma step_disabled ev now env st :
  badgeEnabled st = false → keeps_badge_off ev →
  badgeEnabled (step ev now env st).1 = false ∧
  Forall (λ c, silent c = true) (step ev now env st).2 ∧
  timers (step ev now env st).1 ⊆ timers st.
Proof.
  intros Hb Hoff.
  destruct ev as [tabId|tabId status url|tabId|t|m sender|url|res]; cbn [step].
  - unfold onActivated. rewrite Hb. cbn. by repeat constructor.
  - unfold onUpdated. rewrite Hb. cbn. by repeat constructor.
  - unfold onRemoved.
    set (st0 := with_lastScanAt (delete tabId) (with_counts (delete tabId) st)).
    destruct (cancelScheduled_silent tabId st0) as [Hsilent Hsub].
    destruct (cancelScheduled_frame tabId st0) as ((Hb0 & _) & _).
    split; [by rewrite Hb0|]. by split.
  - unfold timerFires. destruct (timers st !! t) as [[tabId due]|]; [|done].
    destruct (due <=? now); [|done].
    rewrite doScanForTab_skips by (by left). cbn [fst snd].
    split; [done|]. split; [done|]. apply delete_subseteq.
  - destruct m as [| | |o|count|count|]; cbn [onMessage keeps_badge_off] in *.
    + by repeat constructor.
    + split; [done|]. split; [|done].
      by case_match; repeat constructor.
    + destruct (fetchAndCacheSellers _ _ _ _ _) as [store fetched]. cbn [fst snd].
      split; [done|]. split; [|done].
      constructor; [done|]. apply Forall_app. split; [apply silent_refreshCalls|].
      by repeat constructor.
    + split; [|split; [by repeat constructor|done]].
      cbn. rewrite Hb. by destruct (o_badgeEnable o) as [[]|].
    + rewrite Hb. cbn. by repeat constructor.
    + destruct sender as [tabId|]; cbn [fst snd]; [|by repeat constructor].
      split; [done|]. split; [|done].
      constructor; [done|]. apply Forall_app. split; [|by repeat constructor].
      case_match; [|done]. unfold applyBadgeForTab. cbn. rewrite Hb. by repeat constructor.
    + by repeat constructor.
  - destruct (fetchAndCacheSellers _ _ _ _ _) as [store fetched]. cbn [fst snd].
    split; [done|]. split; [apply silent_refreshCalls|done].
  - cbn in Hoff. unfold initSettingsFromStorage. rewrite Hoff. cbn.
    by repeat constructor.
Qed.

Lemma run_disabled evs st :
  badgeEnabled st = false → Forall (λ e, keeps_badge_off e.1.1) evs →
  badgeEnabled (run evs st).1 = false ∧
  Forall (λ c, silent c = true) (run evs st).2 ∧
  timers (run evs st).1 ⊆ timers st.
Proof.
  revert st. induction evs as [|[[ev now] env] evs IH]; intros st Hb Hoff; [done|].
  apply Forall_cons in Hoff as [Hoff Hoffs]. cbn [fst snd] in Hoff. cbn [run].
  destruct (step_disabled ev now env st Hb Hoff) as (Hb1 & Hsilent1 & Hsub1).
  destruct (step ev now env st) as [st1 calls]. cbn [fst snd] in *.
  destruct (IH st1 Hb1 Hoffs) as (Hb2 & Hsilent2 & Hsub2).
  destruct (run evs st1) as [st2 later]. cbn [fst snd] in *.
  split; [done|]. split; [by apply Forall_app|]. by etrans.
Qed.

(** C8.  While badgeEnabled is false (that is, through any run of events
    none of which turns the badge on) no scan is executed, no timeout is
    set and the host keeps no timeout it did not have; every badge text
    that is set is the empty string.  An activation or an update of a tab
    does nothing but set the empty badge text, scheduleScan only clears a
    pending timeout, and doScanForTab returns at once. *)
Theorem C8_disabled_badge_no_scan (evs : list (Event * Z * Env)) (st : State) :
  badgeEnabled st = false →
  Forall (λ e, keeps_badge_off e.1.1) evs →
  (badgeEnabled (run evs st).1 = false ∧
   Forall (λ c, silent c = true) (run evs st).2 ∧
   timers (run evs st).1 ⊆ timers st) ∧
  (∀ tabId now env, onActivated tabId now env st = (st, [SetBadgeText ""])) ∧
  (∀ tabId status url now env,
     onUpdated tabId status url now env st = (st, [SetBadgeText ""])) ∧
  (∀ tabId now env, scheduleScan tabId now env st = cancelScheduled tabId st) ∧
  (∀ tabId now env, doScanForTab tabId now env st = (st, [], Skipped)) ∧
  (∀ tabId, applyBadgeForTab tabId st = [SetBadgeText ""]).
Proof.
  intros Hb Hoff. split; [by apply run_disabled|].
  split; [|split; [|split; [|split]]].
  - intros tabId now env. unfold onActivated. by rewrite Hb.
  - intros tabId status url now env. unfold onUpdated. by rewrite Hb.
  - intros tabId now env. unfold scheduleScan.
    destruct (cancelScheduled_frame tabId st) as ((Hb1 & _) & _).
    destruct (cancelScheduled tabId st) as [st1 cancelled]. cbn [fst] in Hb1.
    by rewrite Hb1, Hb.
  - intros tabId now env. apply doScanForTab_skips. by left.
  - intros tabId. unfold applyBadgeForTab. by rewrite Hb.
Qed.

Lemma C8_witness :
  badgeEnabled badge_off_state = false ∧
  Forall (λ e, keeps_badge_off e.1.1) two_activations ∧
  Forall (λ c, silent c = true) (run two_activations badge_off_state).2.
Proof.
  assert (Forall (λ e, keeps_badge_off e.1.1) two_activations) as Hoff.
  { by repeat constructor. }
  split; [done|]. split; [exact Hoff|].
  apply (C8_disabled_badge_no_scan two_activations badge_off_state eq_refl Hoff).
Defined.

(** ** Pushed counts *)

Lemma pretty_N_go_nonempty (x : N) (s : string) : s ≠ "" → pretty_N_go x s ≠ "".
Proof.
  revert s. induction (N.lt_wf_0 x) as [x _ IH]; intros s Hs.
  assert (x = 0 ∨ 0 < x)%N as [->|Hpos] by lia.
  - by rewrite pretty_N_go_0.
  - rewrite pretty_N_go_step by done. apply IH; [by apply N.div_lt|done].
Qed.

(** The decimal form of a positive count is not the empty string. *)
Lemma pretty_pos_nonempty (z : Z) : 0 < z → pretty z ≠ "".
Proof.
  destruct z as [|p|p]; [lia| |lia]. intros _.
  unfold pretty, pretty_Z, pretty, pretty_positive, pretty, pretty_N.
  case_decide; [done|].
  rewrite pretty_N_go_step by lia. by apply pretty_N_go_nonempty.
Qed.

Lemma count_text_empty (count : Z) :
  0 ≤ count → ((if count >? 0 then pretty count else "") = "" ↔ count = 0).
Proof.
  intros Hcount. destruct (Z.gtb_spec count 0) as [Hpos|Hzero].
  - split; [|lia]. intros Hempty. by apply pretty_pos_nonempty in Hempty; [|lia].
  - split; [lia|done].
Qed.

Lemma pushedCount_nonneg (count : JsValue) : 0 ≤ pushedCount count.
Proof. destruct count as [| | |[]| | |]; cbn; lia. Qed.

Lemma step_counts ev now env st :
  counts_nonneg st → counts_nonneg (step ev now env st).1.
Proof.
  intros Hst.
  assert (∀ tabId st, counts_nonneg st → counts_nonneg (cancelScheduled tabId st).1)
    as Hcancel.
  { intros tabId s Hs. unfold counts_nonneg.
    by destruct (cancelScheduled_frame tabId s) as (_ & _ & -> & _). }
  assert (∀ tabId st, counts_nonneg st → counts_nonneg (scheduleScan tabId now env st).1)
    as Hsched.
  { intros tabId s Hs. unfold scheduleScan.
    specialize (Hcancel tabId s Hs).
    destruct (cancelScheduled tabId s) as [s1 cancelled]. cbn [fst] in Hcancel.
    destruct (badgeEnabled s1); cbn [negb]; [|done].
    destruct (delayMs s1 =? 0); [|done].
    pose proof (doScanForTab_counts tabId now env s1 Hcancel) as Hscan.
    by destruct (doScanForTab tabId now env s1) as [[s2 calls] out]. }
  assert (∀ tabId st, counts_nonneg st → counts_nonneg (with_counts (delete tabId) st))
    as Hdel.
  { intros tabId s Hs. by apply map_Forall_delete. }
  destruct ev as [tabId|tabId status url|tabId|t|m sender|url|res]; cbn [step].
  - unfold onActivated. destruct (badgeEnabled st); cbn [negb]; [|done].
    specialize (Hsched tabId st Hst).
    by destruct (scheduleScan tabId now env st) as [st' calls].
  - unfold onUpdated. destruct (badgeEnabled st); cbn [negb]; [|done].
    destruct (bool_decide (status = Some "loading") || nonempty url).
    + specialize (Hcancel tabId _ (Hdel tabId st Hst)).
      destruct (cancelScheduled tabId (with_counts (delete tabId) st)) as [st1 calls1].
      cbn [fst] in Hcancel.
      destruct (bool_decide (status = Some "complete") && is_active env tabId); [|done].
      specialize (Hsched tabId st1 Hcancel).
      by destruct (scheduleScan tabId now env st1) as [st2 calls2].
    + destruct (bool_decide (status = Some "complete") && is_active env tabId); [|done].
      specialize (Hsched tabId st Hst).
      by destruct (scheduleScan tabId now env st) as [st2 calls2].
  - unfold onRemoved. apply Hcancel. by apply (Hdel tabId st).
  - unfold timerFires. destruct (timers st !! t) as [[tabId due]|]; [|done].
    destruct (due <=? now); [|done].
    pose proof (doScanForTab_counts tabId now env (drop_timer tabId t st) Hst) as Hscan.
    by destruct (doScanForTab tabId now env (drop_timer tabId t st)) as [[st' calls] out].
  - destruct m as [| | |o|count|count|]; cbn [onMessage]; try done.
    + by destruct (fetchAndCacheSellers _ _ _ _ _) as [store fetched].
    + by case_match.
    + destruct sender as [tabId|]; [|done]. cbn [fst].
      apply map_Forall_insert_2; [apply pushedCount_nonneg|done].
  - by destruct (fetchAndCacheSellers _ _ _ _ _) as [store fetched].
  - done.
Qed.

Lemma run_counts evs st : counts_nonneg st → counts_nonneg (run evs st).1.
Proof.
  revert st. induction evs as [|[[ev now] env] evs IH]; intros st Hst; [done|].
  cbn [run]. pose proof (step_counts ev now env st Hst) as Hst1.
  destruct (step ev now env st) as [st1 calls].
  specialize (IH st1 Hst1). by destruct (run evs st1) as [st2 later].
Qed.

(** With the badge switched off, a setBadge message that pushes the count 5
    sets the empty text: the text is empty although the effective count
    is 5. *)
Lemma C10_counterexample :
  ¬ setBadge_text_follows_count (JNum (NFin 5)) 0 sample_env badge_off_state.
Proof.
  intros Hclaim.
  destruct (Hclaim "") as [Hzero _].
  - apply list_elem_of_here.
  - specialize (Hzero eq_refl). discriminate Hzero.
Qed.

Lemma badge_texts_of_count (text : string) (rest : list Effect) :
  badge_texts rest = [] →
  badge_texts
    (SetBadgeText text ::
     (if negb (String.eqb text "") then [SetBadgeBackgroundColor BADGE_BG_COLOR] else [])
     ++ rest) = [text].
Proof.
  intros Hrest. unfold badge_texts in *. cbn [omap list_omap badge_text].
  rewrite omap_app, Hrest. by destruct (negb (String.eqb text "")).
Qed.

(** C10 (amended).  The effective count of a pushed count is max(0, count)
    when the count is a finite number and 0 otherwise.  A scanResult
    message from a tab stores exactly the effective count for that tab,
    whether the badge is enabled or not, and every count that the count map
    of a reachable state holds is non-negative.  While badgeEnabled is
    true, the text set by a setBadge message, and by a scanResult message
    from the active tab, is empty exactly when the effective count is 0.
    While badgeEnabled is false both set the empty text whatever the
    count, and setBadge leaves the state as it was.  A scanResult message
    from a tab that is not the active one sets no text. *)
Theorem C10_pushed_counts (count : JsValue) (sender : option Z) (now : Z) (env : Env)
    (st : State) :
  ((∀ z, count = JNum (NFin z) → pushedCount count = Z.max 0 z) ∧
   (Number_isFinite count = false → pushedCount count = 0) ∧
   0 ≤ pushedCount count) ∧
  (∀ tabId,
     countsByTab (onMessage (ScanResult count) (Some tabId) now env st).1 !! tabId
     = Some (pushedCount count)) ∧
  (∀ evs store tab c,
     countsByTab (run evs (initial store)).1 !! tab = Some c → 0 ≤ c) ∧
  (badgeEnabled st = true →
   (∃ text,
      badge_texts (onMessage (SetBadge count) sender now env st).2 = [text] ∧
      (text = "" ↔ pushedCount count = 0)) ∧
   (∀ tabId,
      env_active env = Some tabId →
      ∃ text,
        badge_texts (onMessage (ScanResult count) (Some tabId) now env st).2 = [text] ∧
        (text = "" ↔ pushedCount count = 0))) ∧
  (badgeEnabled st = false →
   (onMessage (SetBadge count) sender now env st).1 = st ∧
   badge_texts (onMessage (SetBadge count) sender now env st).2 = [""] ∧
   (∀ tabId,
      env_active env = Some tabId →
      badge_texts (onMessage (ScanResult count) (Some tabId) now env st).2 = [""])) ∧
  (∀ tabId,
     env_active env ≠ Some tabId →
     badge_texts (onMessage (ScanResult count) (Some tabId) now env st).2 = []).
Proof.
  split; [|split; [|split; [|split; [|split]]]].
  - split; [by intros z ->|]. split; [|apply pushedCount_nonneg].
    by destruct count as [| | |[]| | |].
  - intros tabId. cbn. apply lookup_insert_eq.
  - intros evs store tab c Hc.
    assert (counts_nonneg (run evs (initial store)).1) as Hinv.
    { apply run_counts. unfold counts_nonneg. cbn. apply map_Forall_empty. }
    exact (Hinv tab c Hc).
  - intros Hb. split.
    + cbn [onMessage]. rewrite Hb. cbn [negb snd].
      eexists. split; [by apply badge_texts_of_count|].
      apply count_text_empty, pushedCount_nonneg.
    + intros tabId Hactive. cbn [onMessage snd].
      unfold is_active. rewrite bool_decide_eq_true_2 by done.
      unfold applyBadgeForTab. cbn [badgeEnabled with_counts countsByTab].
      rewrite Hb, lookup_insert_eq. cbn [negb default from_option id].
      eexists. split.
      * change (TabsQuery :: ?l) with ([TabsQuery] ++ l).
        unfold badge_texts. rewrite omap_app. cbn [omap list_omap badge_text app].
        by apply badge_texts_of_count.
      * apply count_text_empty, pushedCount_nonneg.
  - intros Hb. cbn [onMessage]. rewrite Hb. cbn [negb fst snd].
    split; [done|]. split; [done|].
    intros tabId Hactive. unfold is_active. rewrite bool_decide_eq_true_2 by done.
    unfold applyBadgeForTab. cbn [badgeEnabled with_counts]. by rewrite Hb.
  - intros tabId Hactive. cbn [onMessage snd].
    unfold is_active. by rewrite bool_decide_eq_false_2 by done.
Qed.

Lemma C10_witness :
  badgeEnabled (initial sample_store) = true ∧
  ∃ text,
    badge_texts
      (onMessage (SetBadge (JNum (NFin (-3)))) None 0 sample_env (initial sample_store)).2
    = [text] ∧
    (text = "" ↔ pushedCount (JNum (NFin (-3))) = 0).
Proof.
  split; [done|].
  apply (C10_pushed_counts (JNum (NFin (-3))) None 0 sample_env (initial sample_store)).
  done.
Defined.

(** * Further properties *)

(** ** The ids read from ads.txt and app-ads.txt *)

Lemma space_not_digit (c : ascii) : is_space c = true → is_digit c = false.
Proof. by destruct c as [[] [] [] [] [] [] [] []]. Qed.

Lemma digits_only_ltrim (s : string) : digits_only (ltrim s) = digits_only s.
Proof.
  induction s as [|c s IH]; [done|]. cbn [ltrim].
  destruct (is_space c) eqn:Hc; [|done].
  cbn [digits_only]. by rewrite (space_not_digit c Hc).
Qed.

Lemma digits_only_rtrim (s : string) : digits_only (rtrim s) = digits_only s.
Proof.
  induction s as [|c s IH]; [done|]. cbn [rtrim].
  destruct (rtrim s) as [|c' r] eqn:Hr.
  - cbn [digits_only] in *. rewrite <- IH.
    destruct (is_space c) eqn:Hc; cbn [digits_only].
    + by rewrite (space_not_digit c Hc).
    + done.
  - cbn [digits_only] in *. by rewrite IH.
Qed.

Lemma digits_only_trim (s : string) : digits_only (trim s) = digits_only s.
Proof. unfold trim. by rewrite digits_only_rtrim, digits_only_ltrim. Qed.

Lemma digits_only_all_digits (s : string) : all_digits (digits_only s) = true.
Proof.
  induction s as [|c s IH]; [done|]. cbn [digits_only].
  destruct (is_digit c) eqn:Hc; [|done]. cbn. by rewrite Hc.
Qed.

(** What a line adds, without the trimming (which removes no digit). *)
Lemma line_id_Some (raw id : string) :
  line_id raw = Some id ↔
  contains "adwmg" (lower raw) = true ∧
  ∃ first second rest,
    split_on "," raw = first :: second :: rest ∧ id = digits_only second ∧ id ≠ "".
Proof.
  unfold line_id. destruct (contains "adwmg" (lower raw)); cbn [negb].
  2: { split; [done|]. by intros [? _]. }
  destruct (split_on "," raw) as [|first [|second rest]] eqn:Hsplit; cbn [map].
  - split; [done|]. by intros (_ & ? & ? & ? & ? & _).
  - split; [done|]. by intros (_ & ? & ? & ? & ? & _).
  - rewrite digits_only_trim.
    destruct (String.eqb_spec (digits_only second) "") as [Hempty|Hid].
    + split; [done|]. intros (_ & f & s2 & r & [= _ <- _] & -> & Hne). done.
    + split.
      * intros [= <-]. split; [done|]. by exists first, second, rest.
      * intros (_ & f & s2 & r & [= _ <- _] & -> & _). done.
Qed.

Lemma set_add_elem (x y : string) (set : list string) :
  x ∈ set_add y set ↔ x ∈ set ∨ x = y.
Proof.
  unfold set_add. case_decide as Hy.
  - split; [by left|]. by intros [?| ->].
  - rewrite elem_of_app, list_elem_of_singleton. done.
Qed.

Lemma set_add_NoDup (y : string) (set : list string) : NoDup set → NoDup (set_add y set).
Proof.
  intros Hset. unfold set_add. case_decide as Hy; [done|].
  apply NoDup_app. split; [done|]. split; [|apply NoDup_singleton].
  intros x Hx ->%list_elem_of_singleton. done.
Qed.

Lemma fold_line_ids (l : list string) (acc : list string) :
  let ids := fold_left (λ set raw, match line_id raw with
                                    | Some id => set_add id set
                                    | None => set
                                    end) l acc in
  (NoDup acc → NoDup ids) ∧
  ∀ x, x ∈ ids ↔ x ∈ acc ∨ ∃ raw, raw ∈ l ∧ line_id raw = Some x.
Proof.
  cbn zeta. revert acc. induction l as [|raw l IH]; intros acc; cbn [fold_left].
  - split; [done|]. intros x. split; [by left|].
    intros [?|(raw & Hraw & _)]; [done|]. by apply elem_of_nil in Hraw.
  - destruct (IH (match line_id raw with
                  | Some id => set_add id acc
                  | None => acc
                  end)) as [Hdup Hin]. split.
    + intros Hacc. apply Hdup. destruct (line_id raw); [by apply set_add_NoDup|done].
    + intros x. rewrite Hin. destruct (line_id raw) as [id|] eqn:Hraw.
      * rewrite set_add_elem. split.
        -- intros [[?| ->]|(r & Hr & Hx)]; [by left| |].
           ++ right. exists raw. split; [apply list_elem_of_here|done].
           ++ right. exists r. split; [by apply list_elem_of_further|done].
        -- intros [?|(r & Hr & Hx)]; [by left; left|].
           apply elem_of_cons in Hr as [->|Hr].
           ++ left. right. congruence.
           ++ right. by exists r.
      * split.
        -- intros [?|(r & Hr & Hx)]; [by left|].
           right. exists r. split; [by apply list_elem_of_further|done].
        -- intros [?|(r & Hr & Hx)]; [by left|].
           apply elem_of_cons in Hr as [->|Hr]; [congruence|].
           right. by exists r.
Qed.

Lemma extractIds_elem (text : option string) (id : string) :
  id ∈ extractIdsFromText text ↔
  ∃ t raw first second rest,
    text = Some t ∧ raw ∈ lines t ∧
    contains "adwmg" (lower raw) = true ∧
    split_on "," raw = first :: second :: rest ∧
    id = digits_only second ∧ id ≠ "".
Proof.
  destruct text as [t|]; cbn [extractIdsFromText].
  2: { split; [by intros ?%elem_of_nil|]. by intros (? & ? & ? & ? & ? & ? & _). }
  destruct (String.eqb_spec t "") as [->|Ht].
  - split; [by intros ?%elem_of_nil|].
    intros (t & raw & f & s2 & r & [= <-] & Hraw & Hadw & _).
    apply list_elem_of_singleton in Hraw as ->. done.
  - destruct (fold_line_ids (split_on "010" t) []) as [_ Hin]. cbn zeta in Hin.
    rewrite Hin. split.
    + intros [?%elem_of_nil|(raw & Hraw & Hid)]; [done|].
      apply line_id_Some in Hid as (Hadw & f & s2 & r & Hsplit & -> & Hne).
      by exists t, raw, f, s2, r.
    + intros (t' & raw & f & s2 & r & [= <-] & Hraw & Hadw & Hsplit & -> & Hne).
      right. exists raw. split; [done|]. apply line_id_Some.
      split; [done|]. by exists f, s2, r.
Qed.

Lemma extractIds_shape (text : option string) :
  NoDup (extractIdsFromText text) ∧
  Forall (λ id, id ≠ "" ∧ all_digits id = true) (extractIdsFromText text).
Proof.
  split.
  - destruct text as [t|]; cbn [extractIdsFromText]; [|apply NoDup_nil_2].
    destruct (String.eqb t ""); [apply NoDup_nil_2|].
    destruct (fold_line_ids (split_on "010" t) []) as [Hdup _].
    apply Hdup, NoDup_nil_2.
  - apply Forall_forall. intros id Hid.
    apply extractIds_elem in Hid as (t & raw & f & s2 & r & _ & _ & _ & _ & -> & Hne).
    split; [done|]. apply digits_only_all_digits.
Qed.

(** X1.  An id is extracted from a text exactly when some line of the
    text mentions adwmg (in any case), has a second comma-separated field,
    and the id is what is left of that field when everything but its
    digits is removed, provided a digit is left.  A missing or empty text
    gives no id. *)
Theorem X1_extracted_ids (text : option string) (id : string) :
  (id ∈ extractIdsFromText text ↔
   ∃ t raw first second rest,
     text = Some t ∧ raw ∈ lines t ∧
     contains "adwmg" (lower raw) = true ∧
     split_on "," raw = first :: second :: rest ∧
     id = digits_only second ∧ id ≠ "") ∧
  extractIdsFromText None = [] ∧
  extractIdsFromText (Some "") = [].
Proof. split; [apply extractIds_elem|done]. Qed.

(** X2.  The ids extracted from a text are pairwise different, not empty
    and made of digits only. *)
Theorem X2_extracted_ids_shape (text : option string) :
  NoDup (extractIdsFromText text) ∧
  Forall (λ id, id ≠ "" ∧ all_digits id = true) (extractIdsFromText text).
Proof. apply extractIds_shape. Qed.

Lemma filter_ext_elem {A} (P Q : A → Prop) `{∀ x, Decision (P x), ∀ x, Decision (Q x)}
    (l : list A) :
  (∀ x, x ∈ l → (P x ↔ Q x)) → filter P l = filter Q l.
Proof.
  induction l as [|x l IH]; intros HPQ; [done|].
  rewrite !filter_cons.
  assert (filter P l = filter Q l) as ->.
  { apply IH. intros y Hy. apply HPQ. by apply list_elem_of_further. }
  pose proof (HPQ x (list_elem_of_here x l)) as Hx.
  destruct (decide (P x)), (decide (Q x)); try done; exfalso; tauto.
Qed.

(** Adding the elements of a list without repetitions to a set. *)
Lemma fold_set_add (l acc : list string) :
  NoDup l →
  fold_left (λ ids s, set_add s ids) l acc = acc ++ filter (λ x, x ∉ acc) l.
Proof.
  revert acc. induction l as [|x l IH]; intros acc Hl; cbn [fold_left].
  - by rewrite filter_nil, app_nil_r.
  - apply NoDup_cons in Hl as [Hx Hl]. rewrite (IH _ Hl), filter_cons.
    unfold set_add. destruct (decide (x ∈ acc)) as [Hin|Hout].
    + by rewrite decide_False by tauto.
    + rewrite decide_True by done. rewrite <- app_assoc. cbn [app]. do 2 f_equal.
      apply filter_ext_elem. intros y Hy.
      rewrite not_elem_of_app, list_elem_of_singleton.
      split; [tauto|]. intros Hacc. split; [done|]. by intros ->.
Qed.

Lemma mergeIds_eq (ads appads : option string) :
  mergeIds ads appads
  = extractIdsFromText ads
    ++ filter (λ id, id ∉ extractIdsFromText ads) (extractIdsFromText appads).
Proof.
  unfold mergeIds.
  rewrite (fold_set_add (extractIdsFromText ads) []) by apply extractIds_shape.
  rewrite (fold_set_add (extractIdsFromText appads)) by apply extractIds_shape.
  cbn [app].
  assert (filter (λ x, x ∉ []) (extractIdsFromText ads) = extractIdsFromText ads) as ->; [|done].
  induction (extractIdsFromText ads) as [|x l IH]; [done|].
  rewrite filter_cons, decide_True by apply not_elem_of_nil. by rewrite IH.
Qed.

Lemma mergeIds_elem (ads appads : option string) (id : string) :
  id ∈ mergeIds ads appads ↔
  id ∈ extractIdsFromText ads ∨ id ∈ extractIdsFromText appads.
Proof.
  rewrite mergeIds_eq, elem_of_app, list_elem_of_filter.
  destruct (decide (id ∈ extractIdsFromText ads)); tauto.
Qed.

Lemma mergeIds_NoDup (ads appads : option string) : NoDup (mergeIds ads appads).
Proof.
  rewrite mergeIds_eq. apply NoDup_app. split; [apply extractIds_shape|]. split.
  - intros x Hx [Hnot _]%list_elem_of_filter. done.
  - apply NoDup_filter, extractIds_shape.
Qed.

(** X3.  The ids of a page are the ids of ads.txt in their order, followed
    by the ids of app-ads.txt that ads.txt does not have: an id is reported
    when either file has it, and never twice. *)
Theorem X3_merged_ids (ads appads : option string) :
  mergeIds ads appads
  = extractIdsFromText ads
    ++ filter (λ id, id ∉ extractIdsFromText ads) (extractIdsFromText appads) ∧
  NoDup (mergeIds ads appads) ∧
  ∀ id, id ∈ mergeIds ads appads ↔
        id ∈ extractIdsFromText ads ∨ id ∈ extractIdsFromText appads.
Proof.
  split; [apply mergeIds_eq|]. split; [apply mergeIds_NoDup|]. apply mergeIds_elem.
Qed.

(** ** Reading the answer of the injected function *)

Lemma executeExtract_failed (answer : Completion JsValue) :
  ok (executeExtractSellerIds answer) = false → ids (executeExtractSellerIds answer) = [].
Proof.
  unfold executeExtractSellerIds.
  destruct answer as [results|e]; cbn; [|done].
  destruct results as [| | | | |[|r0 rest]|]; cbn; try done.
  destruct (truthy r0); cbn.
  - destruct (get_prop r0 "result") as [res0|e]; cbn; [|done].
    destruct (truthy res0) eqn:Hres0; cbn; [|done].
    destruct (get_prop res0 "ok") as [okv|e]; cbn; [|done].
    destruct okv as [| |[]| | | |]; cbn; try done.
    by destruct (get_prop res0 "ids").
  - destruct (truthy r0) eqn:Hr0; cbn; [|done].
    destruct (get_prop r0 "ok") as [okv|e]; cbn; [|done].
    destruct okv as [| |[]| | | |]; cbn; try done.
    by destruct (get_prop r0 "ids").
Qed.

Lemma executeExtract_result (props : list (string * JsValue)) (rest : list JsValue)
    (fields : list (string * JsValue)) :
  assoc "result" props = JObj fields →
  assoc "ok" fields = JBool true →
  executeExtractSellerIds (Normal (JArr (JObj props :: rest)))
  = {| ok := true;
       ids := match assoc "ids" fields with
              | JArr l => l
              | _ => []
              end |}.
Proof.
  intros Hres Hok. unfold executeExtractSellerIds. cbn. rewrite Hres. cbn. by rewrite Hok.
Qed.


(** X5.  What the injected function resolves to is read back in full: for
    every origin and every behaviour of the web, the extraction succeeds
    and its ids are the merged ids of the two files, as strings and in the
    same order, whatever else the injection result carries.  For an origin
    that is not http or https no file is fetched and there is no id. *)
Theorem X5_page_script_round_trip (origin : string) (web : string → PageFetch)
    (props : list (string * JsValue)) (rest : list JsValue) :
  (assoc "result" props = pageScript origin web →
   executeExtractSellerIds (Normal (JArr (JObj props :: rest)))
   = {| ok := true;
        ids := map JStr (mergeIds (tryFetch origin "ads.txt" web)
                           (tryFetch origin "app-ads.txt" web)) |}) ∧
  (is_http_url origin = false →
   pageScript origin web = JObj [("ok", JBool true); ("ids", JArr [])]).
Proof.
  split.
  - intros Hres. by rewrite (executeExtract_result props rest _ Hres).
  - intros Horigin. unfold pageScript, tryFetch. by rewrite Horigin.
Qed.

Lemma X5_witness :
  executeExtractSellerIds (injected (pageScript "https://example.com/" sample_web))
  = {| ok := true; ids := [JStr "123"] |} ∧
  pageScript "file://" sample_web = JObj [("ok", JBool true); ("ids", JArr [])].
Proof.
  split.
  - apply (proj1 (X5_page_script_round_trip "https://example.com/" sample_web
                    [("frameId", JNum (NFin 0));
                     ("result", pageScript "https://example.com/" sample_web)] [])).
    reflexivity.
  - by apply (proj2 (X5_page_script_round_trip "file://" sample_web [] [])).
Defined.

(** ** More on the scan *)

Lemma matchIds_bound (P R : list JsValue) (n : nat) :
  matchIds P R = Normal n → (n ≤ length P)%nat.
Proof.
  destruct (matchIds_cases P R) as [[_ ->]|[_ ->]]; [|done].
  intros [= <-]. unfold spec_match. etransitivity; [apply length_filter|].
  unfold string_forms. clear. induction P as [|id P IH]; cbn; [lia|].
  destruct (string_form id); cbn; lia.
Qed.

(** A scan that returns a count got past the gate and the tab check. *)
Lemma doScanForTab_counted (tabId now : Z) (env : Env) (st : State) (n : nat) :
  (doScanForTab tabId now env st).2 = Counted n →
  reaches_matcher tabId now env st ∧
  matchIds (pageIdsOf env) (registryOf env st) = Normal n.
Proof.
  intros Hout.
  destruct (badgeEnabled st) eqn:Hb.
  2: { by rewrite doScanForTab_skips in Hout by (by left). }
  destruct (Z.ltb_spec (now - default 0 (lastScanAt st !! tabId)) SCAN_COOLDOWN_MS)
    as [Hcool|Hcool].
  { by rewrite doScanForTab_skips in Hout by (by right). }
  destruct (tab_scannable (env_tab env)) eqn:Htab.
  - assert (reaches_matcher tabId now env st) as Hreach by done.
    split; [done|].
    rewrite (doScanForTab_past_gate _ _ _ _ Hreach) in Hout.
    unfold registryOf.
    destruct (loadRegistry env st) as [[registry store] calls]. cbn [fst snd] in *.
    destruct (matchIds (pageIdsOf env) registry) as [m|e]; cbn in Hout; congruence.
  - unfold doScanForTab in Hout. rewrite Hb in Hout. cbn [negb] in Hout.
    by rewrite (proj2 (Z.ltb_ge _ _) Hcool), Htab in Hout.
Qed.

(** X6.  A scan that returns a count has stored that count for its tab and
    recorded the time of the scan, and the count is at most the number of
    ids the page reported. *)
Theorem X6_count_is_stored_and_bounded (tabId now : Z) (env : Env) (st : State) (n : nat) :
  (doScanForTab tabId now env st).2 = Counted n →
  (n ≤ length (pageIdsOf env))%nat ∧
  countsByTab (doScanForTab tabId now env st).1.1 !! tabId = Some (Z.of_nat n) ∧
  lastScanAt (doScanForTab tabId now env st).1.1 !! tabId = Some now.
Proof.
  intros Hout. destruct (doScanForTab_counted _ _ _ _ _ Hout) as [Hreach Hmatch].
  split; [by eapply matchIds_bound|].
  rewrite (doScanForTab_past_gate _ _ _ _ Hreach). unfold registryOf in Hmatch.
  destruct (loadRegistry env st) as [[registry store] calls]. cbn [fst snd] in *.
  rewrite Hmatch. cbn. by rewrite !lookup_insert_eq.
Qed.

Lemma X6_witness :
  (doScanForTab 7 100000 sample_env (initial sample_store)).2 = Counted 1 ∧
  (1 ≤ length (pageIdsOf sample_env))%nat ∧
  countsByTab (doScanForTab 7 100000 sample_env (initial sample_store)).1.1 !! 7
  = Some (Z.of_nat 1).
Proof.
  split; [reflexivity|].
  pose proof (X6_count_is_stored_and_bounded 7 100000 sample_env (initial sample_store) 1
                eq_refl) as (Hbound & Hcount & _).
  by split.
Defined.

(** X7.  When the extraction fails (the host throws, or the page answers
    without [ok: true]) a scan that is past the gate still runs the
    matcher, with no page id: over a registry that the matcher can read
    (seller records whose seller_id has a string form) it returns 0 and
    stores 0 for the tab; over any other registry it throws a TypeError
    and the counts stay as they were. *)
Theorem X7_failed_extraction_counts_zero (tabId now : Z) (env : Env) (st : State) :
  reaches_matcher tabId now env st →
  ok (executeExtractSellerIds (env_script env)) = false →
  (seller_records (registryOf env st) →
   (doScanForTab tabId now env st).2 = Counted 0 ∧
   countsByTab (doScanForTab tabId now env st).1.1 !! tabId = Some 0) ∧
  (¬ seller_records (registryOf env st) →
   (doScanForTab tabId now env st).2 = Failed TypeError ∧
   countsByTab (doScanForTab tabId now env st).1.1 = countsByTab st).
Proof.
  intros Hreach Hfail.
  assert (pageIdsOf env = []) as Hids by by apply executeExtract_failed.
  pose proof (doScanForTab_matcher _ _ _ _ Hreach) as Hscan. rewrite Hids in Hscan.
  split.
  - intros Hrec. destruct Hscan as [(_ & ? & ?)|[Hno _]]; [done|].
    destruct Hno. by split.
  - intros Hrec. destruct Hscan as [[[Hyes _] _]|(_ & ? & ?)]; done.
Qed.

Lemma X7_witness :
  reaches_matcher 7 100000
    {| env_tab := env_tab sample_env; env_script := Thrown TypeError;
       env_now_stale := 100000; env_net := net_down; env_now_store := 100001;
       env_active := None |} (initial sample_store) ∧
  (doScanForTab 7 100000
     {| env_tab := env_tab sample_env; env_script := Thrown TypeError;
        env_now_stale := 100000; env_net := net_down; env_now_store := 100001;
        env_active := None |} (initial sample_store)).2 = Counted 0.
Proof.
  assert (reaches_matcher 7 100000
            {| env_tab := env_tab sample_env; env_script := Thrown TypeError;
               env_now_stale := 100000; env_net := net_down; env_now_store := 100001;
               env_active := None |} (initial sample_store)) as Hreach.
  { repeat split; by vm_compute. }
  split; [exact Hreach|].
  apply (proj1 (X7_failed_extraction_counts_zero 7 100000 _ (initial sample_store)
                  Hreach eq_refl)).
  by repeat constructor.
Defined.

Lemma fetchAndCacheSellers_cases force url net now store :
  fetchAndCacheSellers force url net now store = (store, None) ∨
  ∃ l, fetchAndCacheSellers force url net now store
       = ({| stored_sellers := Some l; stored_ts := Some now |}, Some l).
Proof.
  unfold fetchAndCacheSellers. destruct (String.eqb url ""); [by left|].
  destruct (fetchSellers url net) as [l|e]; [right; by exists l|left; by destruct force].
Qed.

Lemma first_success_returned (url : string) (net : Network) (n : nat) (res : Response) :
  first_success net n res → Z.of_nat n ≤ FETCH_RETRIES →
  (retryLoop url FETCH_TIMEOUT_MS FETCH_RETRIES net (Z.to_nat (FETCH_RETRIES + 1)) 0).2
  = Normal (Some res).
Proof.
  intros (Hfail & Hnet & Hok) Hn.
  apply (retryLoop_first_success url FETCH_TIMEOUT_MS FETCH_RETRIES net res n).
  - unfold FETCH_RETRIES in *. lia.
  - lia.
  - intros k Hk. apply Hfail. lia.
  - exact Hnet.
  - exact Hok.
Qed.

Lemma fetchSellers_gets (url : string) (net : Network) (data : JsValue) :
  refresh_gets net data → fetchSellers url net = Normal (body_sellers data).
Proof.
  intros (n & res & (Hfail & Hnet & Hok) & Hn & Hjson & Hnull).
  unfold fetchSellers, fetchWithTimeoutAndRetry. cbn [default from_option id].
  rewrite (first_success_returned url net n res); [|done..].
  cbn. rewrite Hjson. cbn. by destruct data.
Qed.

Lemma fetchSellers_gets_nothing (url : string) (net : Network) :
  refresh_gets_nothing net → ∃ e, fetchSellers url net = Thrown e.
Proof.
  unfold fetchSellers, fetchWithTimeoutAndRetry. cbn [default from_option id].
  intros [Hfail|(n & res & (Hfail & Hnet & Hok) & Hn & Hbody)].
  - destruct (retryLoop_spec url FETCH_TIMEOUT_MS FETCH_RETRIES net
                (Z.to_nat (FETCH_RETRIES + 1)) 0) as (m & _ & _ & _ & _ & _ & Hall);
      [unfold FETCH_RETRIES; lia..|].
    destruct Hall as [_ ->]; [|by eexists].
    intros k _. apply Hfail.
  - rewrite (first_success_returned url net n res); [|done..].
    cbn. destruct (res_json res) as [data|e]; cbn; [|by eexists].
    destruct data; try done; by eexists.
Qed.

(** X8.  The registry a scan matches against.  Over a fresh cache it is
    the cached sellers, and the scan only reads the storage.  Over a stale
    or empty cache the scan refreshes first: when the refresh gets a body,
    the registry is the sellers of that body, which are stored with the
    time of the refresh; when it gets nothing (both attempts fail, the
    body does not parse or is [null]), the registry is the cached sellers
    and the storage is as before. *)
Theorem X8_registry_is_what_the_cache_holds (env : Env) (st : State) :
  let cached := getCachedSellers (storage st) in
  let stale := scanStale cached (env_now_stale env) (cacheTtlMs st) in
  (stale = false → loadRegistry env st = (sellers cached, storage st, [StorageGet])) ∧
  (stale = true → sellersUrl st ≠ "" →
   ∀ data, refresh_gets (env_net env) data →
     registryOf env st = body_sellers data ∧
     (loadRegistry env st).1.2
     = {| stored_sellers := Some (body_sellers data);
          stored_ts := Some (env_now_store env) |}) ∧
  (stale = true → sellersUrl st = "" ∨ refresh_gets_nothing (env_net env) →
   registryOf env st = sellers cached ∧ (loadRegistry env st).1.2 = storage st).
Proof.
  cbn zeta. unfold registryOf, loadRegistry, fetchAndCacheSellers.
  split; [by intros ->|]. split.
  - intros -> Hurl data Hgets.
    apply String.eqb_neq in Hurl. rewrite Hurl.
    by rewrite (fetchSellers_gets _ _ _ Hgets).
  - intros -> [Hurl|Hnothing].
    + by rewrite Hurl.
    + destruct (String.eqb (sellersUrl st) ""); [done|].
      by destruct (fetchSellers_gets_nothing (sellersUrl st) _ Hnothing) as [e ->].
Qed.

Lemma X8_witness :
  refresh_gets (net_flaky (Normal (JObj [("sellers", JArr [seller "9"])])))
    (JObj [("sellers", JArr [seller "9"])]) ∧
  registryOf
    {| env_tab := None; env_script := Thrown TypeError; env_now_stale := 100000;
       env_net := net_flaky (Normal (JObj [("sellers", JArr [seller "9"])]));
       env_now_store := 100001; env_active := None |}
    (initial empty_store)
  = [seller "9"].
Proof.
  assert (refresh_gets (net_flaky (Normal (JObj [("sellers", JArr [seller "9"])])))
            (JObj [("sellers", JArr [seller "9"])])) as Hgets.
  { exists 1%nat, {| res_ok := true; res_status := 200;
                     res_json := Normal (JObj [("sellers", JArr [seller "9"])]) |}.
    repeat split; try done. intros k Hk. by replace k with 0%nat by lia. }
  split; [exact Hgets|].
  by apply (proj1 (proj2 (X8_registry_is_what_the_cache_holds
                            {| env_tab := None; env_script := Thrown TypeError;
                               env_now_stale := 100000;
                               env_net := net_flaky
                                 (Normal (JObj [("sellers", JArr [seller "9"])]));
                               env_now_store := 100001; env_active := None |}
                            (initial empty_store))) eq_refl ltac:(done) _ Hgets).
Defined.

(** X9.  A registry with a [null] (or [undefined]) entry makes every scan
    that reaches the matcher fail with a TypeError: no count is stored, the
    count the tab had stays, and the time of the scan is recorded all the
    same. *)
Theorem X9_null_entry_fails_the_scan (tabId now : Z) (env : Env) (st : State)
    (R1 R2 : list JsValue) (r : JsValue) :
  reaches_matcher tabId now env st →
  registryOf env st = R1 ++ r :: R2 → records R1 → nullish r = true →
  (doScanForTab tabId now env st).2 = Failed TypeError ∧
  countsByTab (doScanForTab tabId now env st).1.1 = countsByTab st ∧
  lastScanAt (doScanForTab tabId now env st).1.1 !! tabId = Some now.
Proof.
  intros Hreach HR HR1 Hr.
  rewrite (doScanForTab_past_gate _ _ _ _ Hreach). unfold registryOf in HR.
  destruct (loadRegistry env st) as [[registry store] calls]. cbn [fst snd] in *.
  subst registry. rewrite (matchIds_null_entry _ _ _ _ Hr). cbn.
  split; [done|]. split; [done|]. apply lookup_insert_eq.
Qed.

Lemma X9_witness :
  (doScanForTab 7 100000 sample_env
     (initial {| stored_sellers := Some [seller "123"; JNull]; stored_ts := Some 5 |})).2
  = Failed TypeError.
Proof.
  apply (X9_null_entry_fails_the_scan 7 100000 sample_env
           (initial {| stored_sellers := Some [seller "123"; JNull]; stored_ts := Some 5 |})
           [seller "123"] [] JNull).
  - repeat split; by vm_compute.
  - reflexivity.
  - by repeat constructor.
  - reflexivity.
Defined.

(** ** Sessions *)

Lemma session_cancelScheduled (tabId B : Z) (st : State) :
  tabId ≠ B → session B (cancelScheduled tabId st).1 = session B st.
Proof.
  intros Hne. unfold cancelScheduled, session.
  destruct (scheduledTimers st !! tabId); cbn; [|done].
  by rewrite lookup_delete_ne.
Qed.

Lemma session_doScanForTab (tabId B now : Z) (env : Env) (st : State) :
  tabId ≠ B → session B (doScanForTab tabId now env st).1.1 = session B st.
Proof.
  intros Hne.
  apply (doScanForTab_cases tabId now env st (λ r, session B r.1.1 = session B st));
    unfold session; cbn; intros; by rewrite ?lookup_insert_ne.
Qed.

Lemma session_scheduleScan (tabId B now : Z) (env : Env) (st : State) :
  tabId ≠ B → session B (scheduleScan tabId now env st).1 = session B st.
Proof.
  intros Hne. unfold scheduleScan.
  pose proof (session_cancelScheduled tabId B st Hne) as Hcancel.
  destruct (cancelScheduled tabId st) as [st1 cancelled]. cbn [fst] in Hcancel.
  destruct (badgeEnabled st1); cbn [negb]; [|done].
  destruct (delayMs st1 =? 0).
  - pose proof (session_doScanForTab tabId B now env st1 Hne) as Hscan.
    destruct (doScanForTab tabId now env st1) as [[st' calls] out]. cbn [fst] in *.
    congruence.
  - rewrite <- Hcancel. unfold session. cbn. by rewrite lookup_insert_ne.
Qed.

Lemma session_step (ev : Event) (now : Z) (env : Env) (st : State) (B : Z) :
  event_tab ev st ≠ Some B → session B (step ev now env st).1 = session B st.
Proof.
  intros Hother.
  destruct ev as [tabId|tabId status url|tabId|t|m sender|url|res]; cbn [step event_tab] in *.
  - assert (tabId ≠ B) as Hne by congruence.
    unfold onActivated. destruct (badgeEnabled st); cbn [negb]; [|done].
    pose proof (session_scheduleScan tabId B now env st Hne) as Hs.
    by destruct (scheduleScan tabId now env st) as [st' calls].
  - assert (tabId ≠ B) as Hne by congruence.
    unfold onUpdated. destruct (badgeEnabled st); cbn [negb]; [|done].
    set (st0 := with_counts (delete tabId) st).
    assert (session B st0 = session B st) as H0.
    { unfold session. cbn. by rewrite lookup_delete_ne. }
    destruct (bool_decide (status = Some "loading") || nonempty url).
    + pose proof (session_cancelScheduled tabId B st0 Hne) as H1.
      destruct (cancelScheduled tabId st0) as [st1 calls1]. cbn [fst] in H1.
      destruct (bool_decide (status = Some "complete") && is_active env tabId);
        [|cbn [fst]; congruence].
      pose proof (session_scheduleScan tabId B now env st1 Hne) as H2.
      destruct (scheduleScan tabId now env st1) as [st2 calls2]. cbn [fst] in *.
      congruence.
    + destruct (bool_decide (status = Some "complete") && is_active env tabId); [|done].
      pose proof (session_scheduleScan tabId B now env st Hne) as H2.
      by destruct (scheduleScan tabId now env st) as [st2 calls2].
  - assert (tabId ≠ B) as Hne by congruence.
    unfold onRemoved. rewrite session_cancelScheduled by done.
    unfold session. cbn. by rewrite !lookup_delete_ne.
  - unfold timerFires. destruct (timers st !! t) as [[tabId due]|]; [|done].
    cbn in Hother. assert (tabId ≠ B) as Hne by congruence.
    destruct (due <=? now); [|done].
    pose proof (session_doScanForTab tabId B now env (drop_timer tabId t st) Hne) as Hs.
    destruct (doScanForTab tabId now env (drop_timer tabId t st)) as [[st' calls] out].
    cbn [fst] in *. rewrite Hs. unfold session. cbn. by rewrite lookup_delete_ne.
  - destruct m as [| | |o|count|count|]; cbn [onMessage]; try done.
    + by destruct (fetchAndCacheSellers _ _ _ _ _) as [store fetched].
    + by case_match.
    + destruct sender as [tabId|]; [|done]. cbn [fst].
      unfold session. cbn. rewrite lookup_insert_ne; [done|congruence].
  - by destruct (fetchAndCacheSellers _ _ _ _ _) as [store fetched].
  - done.
Qed.

(** X10.  Sessions do not interfere: an event about one tab (its
    activation, update or removal, one of its timeouts firing, a count it
    pushes) and an event about no tab leave the count, the last scan time
    and the scheduled timeout of every other tab as they were. *)
Theorem X10_sessions_are_independent (ev : Event) (now : Z) (env : Env) (st : State)
    (B : Z) :
  event_tab ev st ≠ Some B →
  countsByTab (step ev now env st).1 !! B = countsByTab st !! B ∧
  lastScanAt (step ev now env st).1 !! B = lastScanAt st !! B ∧
  scheduledTimers (step ev now env st).1 !! B = scheduledTimers st !! B.
Proof.
  intros Hother. pose proof (session_step ev now env st B Hother) as Hs.
  unfold session in Hs. by simplify_eq.
Qed.

Lemma X10_witness :
  event_tab (Activated 7) (initial sample_store) ≠ Some 8 ∧
  countsByTab (step (Activated 7) 100000 sample_env (initial sample_store)).1 !! 8
  = countsByTab (initial sample_store) !! 8.
Proof.
  assert (event_tab (Activated 7) (initial sample_store) ≠ Some 8) as Hne by done.
  split; [exact Hne|].
  apply (X10_sessions_are_independent (Activated 7) 100000 sample_env
           (initial sample_store) 8 Hne).
Defined.

(** X11.  In every state the program can reach, a pending timeout is the
    one recorded in scheduledTimers for its tab; so a tab has at most one
    pending timeout. *)
Theorem X11_one_pending_timeout_per_tab (evs : list (Event * Z * Env)) (store : Storage) :
  (∀ t tab due,
     timers (run evs (initial store)).1 !! t = Some (tab, due) →
     scheduledTimers (run evs (initial store)).1 !! tab = Some t) ∧
  (∀ t1 t2 tab due1 due2,
     timers (run evs (initial store)).1 !! t1 = Some (tab, due1) →
     timers (run evs (initial store)).1 !! t2 = Some (tab, due2) →
     t1 = t2).
Proof.
  destruct (run_wf evs (initial store) (initial_wf store)) as [Hrec _].
  split; [exact Hrec|].
  intros t1 t2 tab due1 due2 H1 H2.
  pose proof (Hrec _ _ _ H1). pose proof (Hrec _ _ _ H2). congruence.
Qed.

Lemma X11_witness :
  timers (run delayed_start (initial sample_store)).1 !! 1%positive = Some (7, 110000) ∧
  scheduledTimers (run delayed_start (initial sample_store)).1 !! 7 = Some 1%positive.
Proof.
  assert (timers (run delayed_start (initial sample_store)).1 !! 1%positive
          = Some (7, 110000)) as Hpending by (by vm_compute).
  split; [exact Hpending|].
  exact (proj1 (X11_one_pending_timeout_per_tab delayed_start sample_store) _ _ _ Hpending).
Defined.

(** X12.  A timeout runs once: when it fires (not before it is due), it
    leaves the host and scheduledTimers, the scan pipeline is entered for
    its tab, and a second firing of the same timeout does nothing.  A
    timeout that is not pending, or not yet due, does nothing. *)
Theorem X12_timeouts_run_once (t : positive) (now : Z) (env : Env) (st : State) :
  (∀ tabId due,
     timers st !! t = Some (tabId, due) → due ≤ now →
     (timerFires t now env st).1
       = (doScanForTab tabId now env (drop_timer tabId t st)).1.1 ∧
     timers (timerFires t now env st).1 !! t = None ∧
     scheduledTimers (timerFires t now env st).1 !! tabId = None ∧
     ∀ now' env',
       timerFires t now' env' (timerFires t now env st).1
       = ((timerFires t now env st).1, [])) ∧
  (timers st !! t = None → timerFires t now env st = (st, [])) ∧
  (∀ tabId due,
     timers st !! t = Some (tabId, due) → now < due → timerFires t now env st = (st, [])).
Proof.
  split; [|split].
  - intros tabId due Ht Hdue.
    assert (timerFires t now env st
            = ((doScanForTab tabId now env (drop_timer tabId t st)).1.1,
               (doScanForTab tabId now env (drop_timer tabId t st)).1.2)) as ->.
    { unfold timerFires. rewrite Ht, (proj2 (Z.leb_le _ _) Hdue).
      by destruct (doScanForTab _ _ _ _) as [[s c] o]. }
    destruct (doScanForTab_frame tabId now env (drop_timer tabId t st))
      as [_ (Hsched & Htimers & _)].
    destruct (doScanForTab tabId now env (drop_timer tabId t st)) as [[st' calls] out].
    cbn [fst snd] in *.
    assert (timers st' !! t = None) as Hgone.
    { rewrite Htimers. cbn. apply lookup_delete_eq. }
    split; [done|]. split; [done|]. split.
    + rewrite Hsched. cbn. apply lookup_delete_eq.
    + intros now' env'. unfold timerFires. by rewrite Hgone.
  - intros Ht. unfold timerFires. by rewrite Ht.
  - intros tabId due Ht Hearly. unfold timerFires. rewrite Ht.
    by rewrite (proj2 (Z.leb_gt _ _) Hearly).
Qed.

Lemma X12_witness :
  timers (run delayed_start (initial sample_store)).1 !! 1%positive = Some (7, 110000) ∧
  timers (timerFires 1 110000 sample_env (run delayed_start (initial sample_store)).1).1
    !! 1%positive = None.
Proof.
  assert (timers (run delayed_start (initial sample_store)).1 !! 1%positive
          = Some (7, 110000)) as Hpending by (by vm_compute).
  split; [exact Hpending|].
  apply (proj1 (X12_timeouts_run_once 1 110000 sample_env
                  (run delayed_start (initial sample_store)).1) 7 110000 Hpending).
  lia.
Defined.

Lemma doScanForTab_executes (tabId now : Z) (env : Env) (st : State) :
  badgeEnabled st = true →
  SCAN_COOLDOWN_MS ≤ now - default 0 (lastScanAt st !! tabId) →
  scans (doScanForTab tabId now env st).1.2 = [tabId].
Proof.
  intros Hb Hcool.
  destruct (tab_scannable (env_tab env)) eqn:Htab.
  - rewrite doScanForTab_past_gate by done.
    pose proof (scans_loadRegistry env st) as Hload.
    destruct (loadRegistry env st) as [[registry store] calls]. cbn [snd] in Hload.
    destruct (matchIds (pageIdsOf env) registry) as [matches|e]; cbn [fst snd].
    + rewrite scans_app, !scans_cons, Hload. cbn [scan_started app].
      case_decide; [|done]. by rewrite scans_applyBadgeForTab.
    + rewrite !scans_cons. cbn [scan_started]. by rewrite Hload.
  - unfold doScanForTab. rewrite Hb. cbn [negb].
    by rewrite (proj2 (Z.ltb_ge _ _) Hcool), Htab.
Qed.


(** X13.  In every state the program can reach, the removal of a tab ends
    its session: its count, its last scan time and its scheduled timeout
    are gone, no timeout of the tab is left pending, and the only call made
    is the clearing of the timeout it had scheduled.  A scan of a tab with
    the same id is then not held back by the cooldown. *)
Theorem X13_removal_ends_the_session (evs : list (Event * Z * Env)) (store : Storage)
    (tabId : Z) :
  let st := (run evs (initial store)).1 in
  let after := onRemoved tabId st in
  countsByTab after.1 !! tabId = None ∧
  lastScanAt after.1 !! tabId = None ∧
  scheduledTimers after.1 !! tabId = None ∧
  (∀ t due, timers after.1 !! t ≠ Some (tabId, due)) ∧
  after.2 = match scheduledTimers st !! tabId with
            | Some t => [ClearTimeout t]
            | None => []
            end ∧
  (∀ now env,
     badgeEnabled st = true → SCAN_COOLDOWN_MS ≤ now →
     scans (doScanForTab tabId now env after.1).1.2 = [tabId]).
Proof.
  cbn zeta. set (st := (run evs (initial store)).1).
  assert (timers_wf st) as Hwf by apply run_wf, initial_wf.
  unfold onRemoved.
  set (st0 := with_lastScanAt (delete tabId) (with_counts (delete tabId) st)).
  assert (timers_wf st0) as Hwf0 by done.
  destruct (cancelScheduled_wf tabId st0 Hwf0) as [_ Hnone].
  destruct (cancelScheduled_frame tabId st0) as ((Hb & _) & Hlast & Hcounts & _).
  assert (lastScanAt (cancelScheduled tabId st0).1 !! tabId = None) as Hlast'.
  { rewrite Hlast. cbn. apply lookup_delete_eq. }
  split; [rewrite Hcounts; cbn; apply lookup_delete_eq|].
  split; [done|]. split; [|split; [done|split]].
  - unfold cancelScheduled. destruct (scheduledTimers st0 !! tabId) eqn:Hs; cbn; [|done].
    apply lookup_delete_eq.
  - unfold cancelScheduled. change (scheduledTimers st0) with (scheduledTimers st).
    by destruct (scheduledTimers st !! tabId).
  - intros now env Hen Hnow. apply doScanForTab_executes.
    + by rewrite Hb.
    + rewrite Hlast'. cbn. lia.
Qed.



(** ** Scheduling *)

Lemma delayMs_zero (st : State) :
  delayMs st = 0 ↔ scanTiming st = Immediate ∨ scanDelay st ≤ 0.
Proof.
  unfold delayMs. destruct (scanTiming st).
  - split; [by left|done].
  - split; [right; lia|]. intros [?|?]; [done|lia].
Qed.

(** X15.  With the badge enabled, scheduleScan clears the timeout the tab
    had and then does one of two things.  With immediate timing, and
    also with delayed timing and a delay of 0 or less, it enters the scan
    pipeline at once and leaves no timeout scheduled for the tab.
    Otherwise it executes no scan and schedules one timeout, due a delay
    after now. *)
Theorem X15_scan_now_or_later (tabId now : Z) (env : Env) (st : State) :
  badgeEnabled st = true →
  (delayMs st = 0 ↔ scanTiming st = Immediate ∨ scanDelay st ≤ 0) ∧
  (delayMs st = 0 →
   (scheduleScan tabId now env st).1
     = (doScanForTab tabId now env (cancelScheduled tabId st).1).1.1 ∧
   scheduledTimers (scheduleScan tabId now env st).1 !! tabId = None ∧
   nextTimer (scheduleScan tabId now env st).1 = nextTimer st) ∧
  (delayMs st ≠ 0 →
   scans (scheduleScan tabId now env st).2 = [] ∧
   scheduledTimers (scheduleScan tabId now env st).1 !! tabId = Some (nextTimer st) ∧
   timers (scheduleScan tabId now env st).1 !! nextTimer st
     = Some (tabId, now + scanDelay st * 1000) ∧
   lastScanAt (scheduleScan tabId now env st).1 = lastScanAt st ∧
   countsByTab (scheduleScan tabId now env st).1 = countsByTab st).
Proof.
  intros Hb. split; [apply delayMs_zero|].
  assert (badgeEnabled (cancelScheduled tabId st).1 = true ∧
          delayMs (cancelScheduled tabId st).1 = delayMs st ∧
          scanDelay (cancelScheduled tabId st).1 = scanDelay st ∧
          nextTimer (cancelScheduled tabId st).1 = nextTimer st ∧
          scheduledTimers (cancelScheduled tabId st).1 !! tabId = None)
    as (Hb1 & Hms & Hdelay & Hnext & Hnone).
  { unfold cancelScheduled. destruct (scheduledTimers st !! tabId) eqn:Hs; cbn [fst].
    - repeat split; try done. cbn. apply lookup_delete_eq.
    - by repeat split. }
  destruct (cancelScheduled_frame tabId st) as (_ & Hlast & Hcounts & _).
  pose proof (scans_cancelScheduled tabId st) as Hsc.
  unfold scheduleScan.
  destruct (cancelScheduled tabId st) as [st1 cancelled]. cbn [fst snd] in *.
  rewrite Hb1. cbn [negb]. rewrite Hms. split.
  - intros Hzero. rewrite Hzero. cbn.
    destruct (doScanForTab_frame tabId now env st1) as [_ (Hsched & _ & Hn)].
    destruct (doScanForTab tabId now env st1) as [[st' calls] out]. cbn [fst snd] in *.
    split; [done|]. split; [by rewrite Hsched|]. by rewrite Hn.
  - intros Hpos. destruct (Z.eqb_spec (delayMs st) 0) as [|_]; [done|]. cbn [fst snd].
    split; [by rewrite scans_app, Hsc|].
    rewrite <- Hnext. cbn. rewrite !lookup_insert_eq.
    split; [done|]. split; [|done].
    do 2 f_equal. clear Hms. unfold delayMs in *.
    destruct (scanTiming st); [done|lia].
Qed.

Lemma X15_witness :
  badgeEnabled (initial sample_store) = true ∧
  scheduledTimers (scheduleScan 7 100000 sample_env (initial sample_store)).1 !! 7 = None.
Proof.
  split; [done|].
  by apply (X15_scan_now_or_later 7 100000 sample_env (initial sample_store) eq_refl).
Defined.

(** ** Settings *)

Lemma settings_ok_same (st st' : State) : same_settings st st' → settings_ok st → settings_ok st'.
Proof. intros (_ & Hu & Httl & _ & _ & Hd). unfold settings_ok. by rewrite Hu, Httl, Hd. Qed.

Lemma scheduleScan_settings (tabId now : Z) (env : Env) (st : State) :
  same_settings st (scheduleScan tabId now env st).1.
Proof.
  unfold scheduleScan.
  destruct (cancelScheduled_frame tabId st) as (Hs & _).
  destruct (cancelScheduled tabId st) as [st1 cancelled]. cbn [fst] in Hs.
  destruct (badgeEnabled st1); cbn [negb]; [|done].
  destruct (delayMs st1 =? 0); [|done].
  destruct (doScanForTab_frame tabId now env st1) as [Hs' _].
  destruct (doScanForTab tabId now env st1) as [[st' calls] out]. cbn [fst] in *.
  unfold same_settings in *. intuition congruence.
Qed.

Lemma trim_url_nonempty (u : string) :
  (if String.eqb (trim u) "" then DEFAULT_SELLERS_URL else trim u) ≠ "".
Proof. by destruct (String.eqb_spec (trim u) ""). Qed.

Lemma step_settings_ok (ev : Event) (now : Z) (env : Env) (st : State) :
  settings_ok st → settings_ok (step ev now env st).1.
Proof.
  intros Hst.
  destruct ev as [tabId|tabId status url|tabId|t|m sender|url|res]; cbn [step].
  - unfold onActivated. destruct (badgeEnabled st); cbn [negb]; [|done].
    pose proof (scheduleScan_settings tabId now env st) as Hs.
    destruct (scheduleScan tabId now env st) as [st' calls]. by eapply settings_ok_same.
  - unfold onUpdated. destruct (badgeEnabled st); cbn [negb]; [|done].
    set (st0 := with_counts (delete tabId) st).
    destruct (bool_decide (status = Some "loading") || nonempty url).
    + destruct (cancelScheduled_frame tabId st0) as (Hs1 & _).
      destruct (cancelScheduled tabId st0) as [st1 calls1]. cbn [fst] in Hs1.
      assert (settings_ok st1) as Hst1 by by eapply settings_ok_same.
      destruct (bool_decide (status = Some "complete") && is_active env tabId); [|done].
      pose proof (scheduleScan_settings tabId now env st1) as Hs2.
      destruct (scheduleScan tabId now env st1) as [st2 calls2]. by eapply settings_ok_same.
    + destruct (bool_decide (status = Some "complete") && is_active env tabId); [|done].
      pose proof (scheduleScan_settings tabId now env st) as Hs2.
      destruct (scheduleScan tabId now env st) as [st2 calls2]. by eapply settings_ok_same.
  - unfold onRemoved. eapply settings_ok_same; [apply cancelScheduled_frame|done].
  - unfold timerFires. destruct (timers st !! t) as [[tabId due]|]; [|done].
    destruct (due <=? now); [|done].
    destruct (doScanForTab_frame tabId now env (drop_timer tabId t st)) as [Hs _].
    destruct (doScanForTab tabId now env (drop_timer tabId t st)) as [[st' calls] out].
    by eapply settings_ok_same.
  - destruct m as [| | |o|count|count|]; cbn [onMessage]; try done.
    + by destruct (fetchAndCacheSellers _ _ _ _ _) as [store fetched].
    + destruct Hst as (Httl & Hdelay & Hurl). unfold settings_ok, applyOptions. cbn.
      split; [|split].
      * destruct (o_cacheTtlMin o); [lia|done].
      * destruct (o_scanDelay o); [lia|done].
      * destruct (o_sellersUrl o) as [u|]; [|done].
        by destruct (String.eqb_spec u "").
    + by case_match.
    + by destruct sender.
  - by destruct (fetchAndCacheSellers _ _ _ _ _) as [store fetched].
  - unfold initSettingsFromStorage, settings_ok. cbn. split; [lia|]. split.
    + destruct (o_scanDelay res); lia.
    + destruct (o_sellersUrl res) as [u|]; [apply trim_url_nonempty|done].
Qed.

Lemma retryLoop_starts (url : string) (timeout retries : Z) (net : Network)
    (fuel attempt : nat) :
  ∃ rest,
    (retryLoop url timeout retries net (S fuel) attempt).1
    = SetAbortTimer attempt timeout :: rest.
Proof.
  cbn [retryLoop].
  destruct (retryLoop url timeout retries net fuel (S attempt)) as [evs r].
  destruct (net attempt) as [res|err]; [destruct (res_ok res)|];
    destruct (Z.of_nat attempt =? retries); cbn; by eexists.
Qed.

Lemma refreshCalls_fetches (url : string) (net : Network) (after : Storage)
    (result : option (list JsValue)) :
  url ≠ "" → Net (SetAbortTimer 0 FETCH_TIMEOUT_MS) ∈ refreshCalls url net after result.
Proof.
  intros Hurl. unfold refreshCalls. rewrite (proj2 (String.eqb_neq _ _) Hurl).
  apply elem_of_app. left. apply list_elem_of_fmap. eexists. split; [done|].
  unfold fetchWithTimeoutAndRetry. cbv zeta. cbn [default from_option id].
  change (Z.to_nat (FETCH_RETRIES + 1)) with 2%nat.
  destruct (retryLoop_starts url FETCH_TIMEOUT_MS FETCH_RETRIES net 1 0) as [rest ->].
  apply list_elem_of_here.
Qed.

(** X16.  In every state the program can reach, the cache ttl is a minute
    or more, the scan delay is not negative and the sellers URL is not
    empty, whatever settings messages and settings reloads arrived.  The
    guard of fetchAndCacheSellers against an empty URL is therefore never
    taken: every refresh that is called goes to the network. *)
Theorem X16_settings_stay_sane (evs : list (Event * Z * Env)) (store : Storage) :
  let st := (run evs (initial store)).1 in
  60000 ≤ cacheTtlMs st ∧ 0 ≤ scanDelay st ∧ sellersUrl st ≠ "" ∧
  ∀ net after result,
    Net (SetAbortTimer 0 FETCH_TIMEOUT_MS) ∈ refreshCalls (sellersUrl st) net after result.
Proof.
  cbn zeta.
  assert (∀ evs st, settings_ok st → settings_ok (run evs st).1) as Hrun.
  { clear. induction evs as [|[[ev now] env] evs IH]; intros st Hst; [done|].
    cbn [run]. pose proof (step_settings_ok ev now env st Hst) as Hst1.
    destruct (step ev now env st) as [st1 calls].
    specialize (IH st1 Hst1). by destruct (run evs st1) as [st2 later]. }
  destruct (Hrun evs (initial store)) as (Httl & Hdelay & Hurl).
  { unfold settings_ok. cbn. split; [lia|]. split; [lia|done]. }
  split; [done|]. split; [done|]. split; [done|].
  intros net after result. by apply refreshCalls_fetches.
Qed.

(** The object literal of line 314 never gets to its end: [badgeEnable]
    is not declared. *)
Lemma settingsItems_undeclared (st : State) :
  settingsItems st = NotDefined "badgeEnable".
Proof. reflexivity. Qed.

Lemma onMessage_optionsUpdated o sender now env st :
  onMessage (OptionsUpdated o) sender now env st
  = (applyOptions o st,
     [SendResponse (JObj [("ok", JBool false);
                          ("error", JStr "badgeEnable is not defined")])]).
Proof. cbn [onMessage]. by rewrite settingsItems_undeclared. Qed.

Lemma quiet_refreshCalls url net after result :
  Forall (λ c, stores_settings c = false) (refreshCalls url net after result).
Proof.
  unfold refreshCalls. destruct (String.eqb url ""); [done|].
  apply Forall_app. split.
  - apply Forall_map. by apply Forall_true.
  - destruct result; by repeat constructor.
Qed.

Lemma quiet_applyBadgeForTab tabId st :
  Forall (λ c, stores_settings c = false) (applyBadgeForTab tabId st).
Proof. unfold applyBadgeForTab. repeat case_match; by repeat constructor. Qed.

Lemma quiet_cancelScheduled tabId st :
  Forall (λ c, stores_settings c = false) (cancelScheduled tabId st).2.
Proof. unfold cancelScheduled. case_match; by repeat constructor. Qed.

Lemma quiet_doScanForTab tabId now env st :
  Forall (λ c, stores_settings c = false) (doScanForTab tabId now env st).1.2.
Proof.
  destruct (badgeEnabled st) eqn:Hb.
  2: { by rewrite doScanForTab_skips by (by left). }
  destruct (Z.ltb_spec (now - default 0 (lastScanAt st !! tabId)) SCAN_COOLDOWN_MS)
    as [Hcool|Hcool].
  { by rewrite doScanForTab_skips by (by right). }
  destruct (tab_scannable (env_tab env)) eqn:Htab.
  - rewrite doScanForTab_past_gate by done.
    assert (Forall (λ c, stores_settings c = false) (loadRegistry env st).2) as Hload.
    { unfold loadRegistry. destruct (scanStale _ _ _); [|by repeat constructor].
      destruct (fetchAndCacheSellers _ _ _ _ _) as [store fetched]. cbn [snd].
      do 2 (constructor; [done|]). apply quiet_refreshCalls. }
    destruct (loadRegistry env st) as [[registry store] calls]. cbn [snd] in Hload.
    destruct (matchIds (pageIdsOf env) registry) as [matches|e]; cbn zeta; cbn [fst snd].
    + do 2 (constructor; [done|]). apply Forall_app. split; [done|].
      constructor; [done|]. case_decide; [apply quiet_applyBadgeForTab|done].
    + by do 2 (constructor; [done|]).
  - unfold doScanForTab. rewrite Hb. cbn [negb].
    rewrite (proj2 (Z.ltb_ge _ _) Hcool), Htab. cbn. by repeat constructor.
Qed.

Lemma quiet_scheduleScan tabId now env st :
  Forall (λ c, stores_settings c = false) (scheduleScan tabId now env st).2.
Proof.
  unfold scheduleScan.
  pose proof (quiet_cancelScheduled tabId st) as Hcancel.
  destruct (cancelScheduled tabId st) as [st1 cancelled]. cbn [snd] in Hcancel.
  destruct (negb (badgeEnabled st1)); [done|].
  destruct (delayMs st1 =? 0).
  - pose proof (quiet_doScanForTab tabId now env st1) as Hscan.
    destruct (doScanForTab tabId now env st1) as [[st2 calls] out]. cbn [fst snd] in *.
    by apply Forall_app.
  - cbn [snd]. apply Forall_app. split; [done|]. by repeat constructor.
Qed.

Lemma quiet_step ev now env st : Forall (λ c, stores_settings c = false) (step ev now env st).2.
Proof.
  destruct ev as [tabId|tabId status url|tabId|t|m sender|url|res]; cbn [step].
  - unfold onActivated. destruct (negb (badgeEnabled st)); [by repeat constructor|].
    pose proof (quiet_scheduleScan tabId now env st) as Hsched.
    destruct (scheduleScan tabId now env st) as [st1 calls]. cbn [snd] in *.
    apply Forall_app. split; [apply quiet_applyBadgeForTab|done].
  - unfold onUpdated. destruct (negb (badgeEnabled st)); [by repeat constructor|].
    cbv zeta.
    set (reset := bool_decide (status = Some "loading") || nonempty url).
    set (complete := bool_decide (status = Some "complete")).
    assert (∃ st1 calls1,
      (if reset
       then let '(s, c) := cancelScheduled tabId (with_counts (delete tabId) st) in
            (s, c ++ [TabsQuery])
       else (st, [])) = (st1, calls1) ∧
      Forall (λ c, stores_settings c = false) calls1)
    as (st1 & calls1 & -> & Hcalls1).
    { destruct reset.
      - pose proof (quiet_cancelScheduled tabId (with_counts (delete tabId) st)) as Hc.
        destruct (cancelScheduled _ _) as [s c]. cbn [snd] in Hc.
        eexists _, _. split; [done|]. apply Forall_app. split; [done|by repeat constructor].
      - by eexists _, _. }
    assert (∃ st2 calls2,
      (if complete && is_active env tabId then scheduleScan tabId now env st1
       else (st1, [])) = (st2, calls2) ∧
      Forall (λ c, stores_settings c = false) calls2)
    as (st2 & calls2 & -> & Hcalls2).
    { destruct (complete && is_active env tabId).
      - pose proof (quiet_scheduleScan tabId now env st1) as Hsched.
        destruct (scheduleScan tabId now env st1) as [s c]. by eexists _, _.
      - by eexists _, _. }
    cbn [snd]. repeat (apply Forall_app; split); try done.
    + destruct complete; by repeat constructor.
    + destruct (reset && is_active env tabId); [apply quiet_applyBadgeForTab|done].
  - apply quiet_cancelScheduled.
  - unfold timerFires. destruct (timers st !! t) as [[tabId due]|]; [|done].
    destruct (due <=? now); [|done].
    pose proof (quiet_doScanForTab tabId now env (drop_timer tabId t st)) as Hscan.
    by destruct (doScanForTab _ _ _ _) as [[st1 calls] out].
  - destruct m as [| | |o|count|count|].
    + by repeat constructor.
    + cbn [onMessage snd]. constructor; [done|]. apply Forall_app.
      split; [case_match|]; by repeat constructor.
    + cbn [onMessage]. destruct (fetchAndCacheSellers _ _ _ _ _) as [store fetched].
      cbn [snd]. constructor; [done|].
      apply Forall_app. split; [apply quiet_refreshCalls|by repeat constructor].
    + rewrite onMessage_optionsUpdated. by repeat constructor.
    + cbn [onMessage]. repeat case_match; by repeat constructor.
    + cbn [onMessage]. destruct sender as [tabId|]; cbn [snd]; [|by repeat constructor].
      constructor; [done|]. apply Forall_app. split; [|by repeat constructor].
      case_match; [apply quiet_applyBadgeForTab|done].
    + by repeat constructor.
  - destruct (fetchAndCacheSellers _ _ _ _ _) as [store fetched]. cbn [snd].
    apply quiet_refreshCalls.
  - unfold initSettingsFromStorage. cbn [snd]. case_match; by repeat constructor.
Qed.

Lemma quiet_run evs st : Forall (λ c, stores_settings c = false) (run evs st).2.
Proof.
  revert st. induction evs as [|[[ev now] env] evs IH]; intros st; [done|].
  cbn [run]. pose proof (quiet_step ev now env st) as Hstep.
  destruct (step ev now env st) as [st1 calls]. specialize (IH st1).
  destruct (run evs st1) as [st2 later]. cbn [snd] in *. by apply Forall_app.
Qed.

(** X17.  An optionsUpdated message changes the settings globals it
    carries (a message that carries none changes nothing), and the handler
    then fails where it builds the record to store, on an identifier that
    is not declared: its only call is the answer [{ ok: false, error }].
    What follows in the handler is never reached: the storage, the
    timeouts, the last scan times and the counts are as before, also when
    the message switches the badge off, no refresh is started, and in no
    run, from any state, does the program write the settings to the
    storage. *)
Theorem X17_options_message (o : Options) (sender : option Z) (now : Z) (env : Env)
    (st : State) :
  let after := onMessage (OptionsUpdated o) sender now env st in
  after.2 = [SendResponse (JObj [("ok", JBool false);
                                  ("error", JStr "badgeEnable is not defined")])] ∧
  countsByTab after.1 = countsByTab st ∧
  lastScanAt after.1 = lastScanAt st ∧
  storage after.1 = storage st ∧
  same_timers st after.1 ∧
  badgeEnabled after.1 = default (badgeEnabled st) (o_badgeEnable o) ∧
  (∀ m, o_cacheTtlMin o = Some m → cacheTtlMs after.1 = Z.max 1 m * 60000) ∧
  (∀ d, o_scanDelay o = Some d → scanDelay after.1 = Z.max 0 d) ∧
  (onMessage (OptionsUpdated no_options) sender now env st).1 = st ∧
  (∀ evs st0 items, SettingsSet items ∉ (run evs st0).2).
Proof.
  cbn zeta. rewrite !onMessage_optionsUpdated. cbn [fst snd].
  do 6 (split; [done|]). split; [|split; [|split]].
  - intros m Hm. cbn. rewrite Hm. lia.
  - intros d Hd. cbn. by rewrite Hd.
  - by destruct st.
  - intros evs st0 items Hin.
    pose proof (quiet_run evs st0) as Hquiet.
    rewrite Forall_forall in Hquiet. by specialize (Hquiet _ Hin).
Qed.

(** ** Refreshing on request *)

(** X18.  A refreshSellers message is answered from what the refresh
    gets.  When it gets a body, the answer is [ok: true] with the sellers
    of that body, which the handler has stored with the time of the
    refresh: they are what the cache then holds and what a getSellersCache
    request is answered with afterwards.  When it gets nothing (both
    attempts fail, the body does not parse or is [null]) the answer is
    [ok: false] and the storage is as before.  The [force] flag makes no
    difference to a refresh. *)
Theorem X18_refresh_then_read (sender : option Z) (now : Z) (env : Env) (st : State) :
  let after := onMessage RefreshSellers sender now env st in
  (sellersUrl st ≠ "" →
   ∀ data, refresh_gets (env_net env) data →
     last after.2
     = Some (SendResponse (JObj [("ok", JBool true);
                                 ("sellers", JArr (body_sellers data))])) ∧
     StorageSet {| stored_sellers := Some (body_sellers data);
                   stored_ts := Some (env_now_store env) |} ∈ after.2 ∧
     getCachedSellers (storage after.1)
     = {| sellers := body_sellers data; ts := env_now_store env |} ∧
     ∀ sender' now' env',
       last (onMessage GetSellersCache sender' now' env' after.1).2
       = Some (SendResponse (JObj [("sellers", JArr (body_sellers data));
                                   ("ts", JNum (NFin (env_now_store env)))]))) ∧
  (sellersUrl st = "" ∨ refresh_gets_nothing (env_net env) →
   last after.2 = Some (SendResponse (JObj [("ok", JBool false)])) ∧
   storage after.1 = storage st) ∧
  ∀ url net t store,
    fetchAndCacheSellers true url net t store = fetchAndCacheSellers false url net t store.
Proof.
  cbn zeta. split; [|split].
  - intros Hurl data Hgets. cbn [onMessage].
    unfold fetchAndCacheSellers, refreshCalls.
    apply String.eqb_neq in Hurl. rewrite Hurl.
    rewrite (fetchSellers_gets _ _ _ Hgets). cbn [fst snd].
    split; [by rewrite app_comm_cons, last_snoc|]. split.
    { apply list_elem_of_further, elem_of_app. left. apply elem_of_app. right.
      apply list_elem_of_here. }
    split; [done|].
    intros sender' now' env'. cbn [onMessage snd storage with_storage getCachedSellers].
    cbn [stored_sellers stored_ts default from_option id sellers ts].
    by rewrite !app_comm_cons, last_snoc.
  - intros Hnothing. cbn [onMessage].
    assert (fetchAndCacheSellers true (sellersUrl st) (env_net env) (env_now_store env)
              (storage st) = (storage st, None)) as ->.
    { unfold fetchAndCacheSellers. destruct Hnothing as [->|Hnothing]; [done|].
      destruct (String.eqb (sellersUrl st) ""); [done|].
      by destruct (fetchSellers_gets_nothing (sellersUrl st) _ Hnothing) as [e ->]. }
    cbn [fst snd]. split; [|by destruct st]. by rewrite app_comm_cons, last_snoc.
  - intros url net t store. unfold fetchAndCacheSellers.
    destruct (String.eqb url ""); [done|]. by destruct (fetchSellers url net).
Qed.

Lemma X18_witness :
  refresh_gets (net_flaky (Normal (JObj [("sellers", JArr [seller "9"])])))
    (JObj [("sellers", JArr [seller "9"])]) ∧
  last (onMessage RefreshSellers None 100000
          {| env_tab := None; env_script := Thrown TypeError; env_now_stale := 100000;
             env_net := net_flaky (Normal (JObj [("sellers", JArr [seller "9"])]));
             env_now_store := 100001; env_active := None |}
          (initial sample_store)).2
  = Some (SendResponse (JObj [("ok", JBool true); ("sellers", JArr [seller "9"])])).
Proof.
  assert (refresh_gets (net_flaky (Normal (JObj [("sellers", JArr [seller "9"])])))
            (JObj [("sellers", JArr [seller "9"])])) as Hgets.
  { exists 1%nat, {| res_ok := true; res_status := 200;
                     res_json := Normal (JObj [("sellers", JArr [seller "9"])]) |}.
    repeat split; try done. intros k Hk. by replace k with 0%nat by lia. }
  split; [exact Hgets|].
  by apply (proj1 (X18_refresh_then_read None 100000
                     {| env_tab := None; env_script := Thrown TypeError;
                        env_now_stale := 100000;
                        env_net := net_flaky
                          (Normal (JObj [("sellers", JArr [seller "9"])]));
                        env_now_store := 100001; env_active := None |}
                     (initial sample_store)) ltac:(done) _ Hgets).
Defined.

(** ** Retrying *)

Lemma retryLoop_returns_ok (url : string) (timeout retries : Z) (net : Network)
    (res : Response) (fuel attempt : nat) :
  (retryLoop url timeout retries net fuel attempt).2 = Normal (Some res) →
  res_ok res = true ∧ ∃ k, net k = Resolved res.
Proof.
  revert attempt. induction fuel as [|fuel IH]; intros attempt; cbn [retryLoop]; [done|].
  specialize (IH (S attempt)).
  destruct (retryLoop url timeout retries net fuel (S attempt)) as [evs r].
  cbn [snd] in IH.
  destruct (net attempt) as [r0|err] eqn:Hnet; [destruct (res_ok r0) eqn:Hok0|];
    destruct (Z.of_nat attempt =? retries); cbn [snd]; try done; try exact IH.
  all: intros [= <-]; split; [done|]; by exists attempt.
Qed.

(** X19.  fetchWithTimeoutAndRetry stops at the first attempt that
    succeeds: when the first n attempts fail and attempt n succeeds, with n
    at most maxRetries, it returns the response of that attempt after
    exactly n + 1 attempts.  It never returns a response whose status is
    not a success.  With a negative maxRetries it makes no attempt and
    returns [undefined]. *)
Theorem X19_retry_stops_at_first_success (url : string) (timeout : option Z) (retries : Z)
    (net : Network) :
  (∀ n res,
     first_success net n res → Z.of_nat n ≤ retries →
     (fetchWithTimeoutAndRetry url timeout (Some retries) net).2 = Normal (Some res) ∧
     attempts (fetchWithTimeoutAndRetry url timeout (Some retries) net).1 = S n) ∧
  (∀ res,
     (fetchWithTimeoutAndRetry url timeout (Some retries) net).2 = Normal (Some res) →
     res_ok res = true) ∧
  (retries < 0 →
   fetchWithTimeoutAndRetry url timeout (Some retries) net = ([], Normal None)).
Proof.
  unfold fetchWithTimeoutAndRetry. cbv zeta.
  change (default FETCH_RETRIES (Some retries)) with retries.
  split; [|split].
  - intros n res (Hfail & Hnet & Hok) Hn.
    apply retryLoop_first_success; try done; try lia.
    intros k Hk. apply Hfail. lia.
  - intros res Hres. by apply retryLoop_returns_ok in Hres as [? _].
  - intros Hneg. by replace (Z.to_nat (retries + 1)) with 0%nat by lia.
Qed.

Lemma X19_witness :
  first_success (net_flaky (Normal JNull)) 1
    {| res_ok := true; res_status := 200; res_json := Normal JNull |} ∧
  attempts (fetchWithTimeoutAndRetry DEFAULT_SELLERS_URL None (Some 1)
              (net_flaky (Normal JNull))).1 = 2%nat.
Proof.
  assert (first_success (net_flaky (Normal JNull)) 1
            {| res_ok := true; res_status := 200; res_json := Normal JNull |}) as Hfirst.
  { split; [|done]. intros k Hk. by replace k with 0%nat by lia. }
  split; [exact Hfirst|].
  apply (proj1 (X19_retry_stops_at_first_success DEFAULT_SELLERS_URL None 1
                  (net_flaky (Normal JNull))) 1%nat _ Hfirst).
  lia.
Defined.

(** ** The options page *)

Lemma rtrim_idem (s : string) : rtrim (rtrim s) = rtrim s.
Proof.
  induction s as [|c s IH]; [done|]. cbn [rtrim].
  destruct (rtrim s) as [|c' r] eqn:Hr.
  - destruct (is_space c) eqn:Hc; [done|]. cbn [rtrim]. by rewrite Hc.
  - cbn [rtrim]. cbn [rtrim] in IH. by rewrite IH.
Qed.

Lemma ltrim_head (s : string) :
  ltrim s = "" ∨ ∃ c r, ltrim s = String c r ∧ is_space c = false.
Proof.
  induction s as [|c s IH]; [by left|]. cbn [ltrim].
  destruct (is_space c) eqn:Hc; [done|]. right. by exists c, s.
Qed.

Lemma trim_idem (s : string) : trim (trim s) = trim s.
Proof.
  unfold trim. destruct (ltrim_head s) as [->|(c & r & -> & Hc)]; [done|].
  assert (∃ r', rtrim (String c r) = String c r') as [r' Hr].
  { cbn [rtrim]. destruct (rtrim r); [|by eexists]. rewrite Hc. by eexists. }
  assert (ltrim (rtrim (String c r)) = rtrim (String c r)) as ->.
  { rewrite Hr. cbn [ltrim]. by rewrite Hc. }
  apply rtrim_idem.
Qed.

Lemma normalUrl_fixed (value : string) :
  normalUrl value ≠ "" ∧ trim (normalUrl value) = normalUrl value.
Proof.
  unfold normalUrl. destruct (String.eqb_spec (trim value) "") as [|Hne]; [done|].
  split; [done|]. apply trim_idem.
Qed.

Lemma normalDelay_nonneg (value : string) : 0 ≤ normalDelay value.
Proof.
  unfold normalDelay. destruct (parseInt value) as [d|]; [|lia].
  destruct (Z.ltb_spec d 0); lia.
Qed.

Lemma formHours_pos (f : Form) : 1 ≤ formHours f.
Proof.
  unfold formHours. destruct (parseInt (in_cacheTtl f)) as [h|]; [|lia].
  destruct (Z.leb_spec h 0); lia.
Qed.

(** X20.  Whatever the form holds, saveOptions stores and sends settings
    in range: a sellers URL that is trimmed and not empty (the default one
    when the field is blank), a ttl of one minute or more (60 when the
    field is not a positive number), a delay that is not negative (10 when
    the field is not a number or is negative), and one of the two names for
    the mode and for the timing.  The variant that asks for hours stores
    whole hours, one or more, as minutes. *)
Theorem X20_saved_options_in_range (f : Form) :
  (∃ u m d,
     o_sellersUrl (saveOptions f) = Some u ∧ u ≠ "" ∧ trim u = u ∧
     o_cacheTtlMin (saveOptions f) = Some m ∧ 1 ≤ m ∧
     o_scanDelay (saveOptions f) = Some d ∧ 0 ≤ d) ∧
  (o_scanMode (saveOptions f) = Some "content" ∨
   o_scanMode (saveOptions f) = Some "background") ∧
  (o_scanTiming (saveOptions f) = Some "delayed" ∨
   o_scanTiming (saveOptions f) = Some "immediate") ∧
  o_badgeEnable (saveOptions f) = Some (in_badgeEnable f) ∧
  (∃ h, o_cacheTtlMin (saveOptionsHours f) = Some (h * 60) ∧ 1 ≤ h) ∧
  (in_sellersUrl f = "" → o_sellersUrl (saveOptions f) = Some DEFAULT_SELLERS_URL) ∧
  (parseInt (in_cacheTtl f) = None → o_cacheTtlMin (saveOptions f) = Some 60) ∧
  (parseInt (in_scanDelay f) = None → o_scanDelay (saveOptions f) = Some 10).
Proof.
  split; [|split; [|split; [|split; [|split; [|split; [|split]]]]]].
  - destruct (normalUrl_fixed (in_sellersUrl f)) as [Hne Htrim].
    eexists _, _, _. cbn. split; [done|]. split; [done|]. split; [done|].
    split; [done|]. split; [|split; [done|apply normalDelay_nonneg]].
    destruct (parseInt (in_cacheTtl f)) as [m|]; [|lia].
    destruct (Z.leb_spec m 0); lia.
  - cbn. unfold modeName. destruct (String.eqb (in_scanMode f) "content"); auto.
  - cbn. unfold timingName. destruct (String.eqb (in_scanTiming f) "delayed"); auto.
  - done.
  - exists (formHours f). split; [done|apply formHours_pos].
  - intros Hblank. cbn. by rewrite Hblank.
  - intros Hnan. cbn. by rewrite Hnan.
  - intros Hnan. cbn. unfold normalDelay. by rewrite Hnan.
Qed.

Lemma saved_routes_agree (o : Options) (u : string) (m d : Z) (st : State) :
  o_sellersUrl o = Some u → u ≠ "" → trim u = u →
  o_cacheTtlMin o = Some m → o_scanDelay o = Some d →
  is_Some (o_badgeEnable o) → is_Some (o_scanMode o) → is_Some (o_scanTiming o) →
  applyOptions o st = (initSettingsFromStorage o st).1.
Proof.
  intros Hu Hne Htrim Hm Hd [b Hb] [mo Hmo] [ti Hti].
  unfold applyOptions, initSettingsFromStorage. cbn [fst].
  rewrite Hu, Hm, Hd, Hb, Hmo, Hti, Htrim. cbn.
  by rewrite !(proj2 (String.eqb_neq _ _) Hne).
Qed.

(** X21.  The two routes by which saved options reach the background
    agree: applying the optionsUpdated message that saveOptions sends, and
    reloading the settings that saveOptions stored, leave the same
    settings.  The background keeps them as they were saved: the ttl is the
    saved minutes times 60000 ms, the delay is the saved delay.  The same
    holds for the variant that asks for hours. *)
Theorem X21_saved_options_reach_background (f : Form) (st : State) :
  applyOptions (saveOptions f) st = (initSettingsFromStorage (saveOptions f) st).1 ∧
  applyOptions (saveOptionsHours f) st
  = (initSettingsFromStorage (saveOptionsHours f) st).1 ∧
  (∀ m d,
     o_cacheTtlMin (saveOptions f) = Some m → o_scanDelay (saveOptions f) = Some d →
     cacheTtlMs (applyOptions (saveOptions f) st) = m * 60000 ∧
     scanDelay (applyOptions (saveOptions f) st) = d ∧
     badgeEnabled (applyOptions (saveOptions f) st) = in_badgeEnable f) ∧
  cacheTtlMs (applyOptions (saveOptionsHours f) st) = formHours f * 3600000.
Proof.
  destruct (normalUrl_fixed (in_sellersUrl f)) as [Hne Htrim].
  split; [|split; [|split]].
  - by eapply saved_routes_agree.
  - by eapply saved_routes_agree.
  - intros m d Hm Hd. cbn in Hm, Hd. cbn.
    pose proof (normalDelay_nonneg (in_scanDelay f)) as Hdelay.
    assert (1 ≤ m) as Hmin.
    { destruct (parseInt (in_cacheTtl f)) as [m'|]; [|simplify_eq; lia].
      destruct (Z.leb_spec m' 0); simplify_eq; lia. }
    injection Hm as Hm. injection Hd as Hd. rewrite Hm, Hd in *.
    split; [lia|]. split; [lia|done].
  - cbn. pose proof (formHours_pos f). lia.
Qed.

Lemma X21_witness :
  o_cacheTtlMin (saveOptions sample_form) = Some 3 ∧
  o_scanDelay (saveOptions sample_form) = Some 5 ∧
  cacheTtlMs (applyOptions (saveOptions sample_form) (initial sample_store)) = 3 * 60000.
Proof.
  split; [reflexivity|]. split; [reflexivity|].
  by apply (proj1 (proj2 (proj2 (X21_saved_options_reach_background sample_form
                                   (initial sample_store)))) 3 5).
Defined.

Lemma roundHours_whole (h : Z) : roundHours (h * 60) = h.
Proof.
  unfold roundHours. symmetry. apply (Z.div_unique _ _ _ 30); lia.
Qed.

(** X22.  The hours round trip in the variant of the options page: the
    hours that loadOptions shows for the minutes that saveOptions stored
    are the hours the form held (1 when the field was not a positive
    number); for whatever minutes the storage holds, the hours shown are 1
    or more, and 1 when it holds none. *)
Theorem X22_hours_round_trip (f : Form) (stored : option Z) :
  shownHours (o_cacheTtlMin (saveOptionsHours f)) = formHours f ∧
  1 ≤ shownHours stored ∧
  shownHours None = 1 ∧
  (∀ h, 1 ≤ h → shownHours (Some (h * 60)) = h).
Proof.
  assert (∀ h, 1 ≤ h → shownHours (Some (h * 60)) = h) as Hwhole.
  { intros h Hh. unfold shownHours. rewrite roundHours_whole.
    by rewrite (proj2 (Z.ltb_ge _ _) Hh). }
  split; [apply Hwhole, formHours_pos|]. split; [|split; [done|exact Hwhole]].
  unfold shownHours. destruct stored as [m|]; [|lia].
  destruct (Z.ltb_spec (roundHours m) 1); lia.
Qed.

(** ** What the user sees *)

Lemma badge_texts_app (a b : list Effect) : badge_texts (a ++ b) = badge_texts a ++ badge_texts b.
Proof. apply omap_app. Qed.

Lemma badge_texts_refreshCalls url net after result :
  badge_texts (refreshCalls url net after result) = [].
Proof.
  unfold refreshCalls. destruct (String.eqb url ""); [done|].
  rewrite badge_texts_app.
  assert (badge_texts (map Net (fetchWithTimeoutAndRetry url (Some FETCH_TIMEOUT_MS)
                                  (Some FETCH_RETRIES) net).1) = []) as ->.
  { induction (fetchWithTimeoutAndRetry _ _ _ _).1 as [|e l IH]; [done|]. exact IH. }
  by destruct result.
Qed.

Lemma badge_texts_loadRegistry env st : badge_texts (loadRegistry env st).2 = [].
Proof.
  unfold loadRegistry. destruct (scanStale _ _ _); [|done].
  destruct (fetchAndCacheSellers _ _ _ _ _) as [store fetched]. cbn [snd].
  change (badge_texts (StorageGet :: Refresh true :: ?l)) with (badge_texts l).
  apply badge_texts_refreshCalls.
Qed.

(** X23.  A scan that returns a count redraws the badge only when its tab
    is the active one: it then sets the text once, to the decimal form of
    the count, or to the empty text when the count is 0, and sets the
    background colour only with a text that is not empty.  For a tab that
    is not active it sets no text. *)
Theorem X23_badge_shows_the_count (tabId now : Z) (env : Env) (st : State) (n : nat) :
  (doScanForTab tabId now env st).2 = Counted n →
  (env_active env = Some tabId →
   badge_texts (doScanForTab tabId now env st).1.2
   = [if (0 <? n)%nat then pretty (Z.of_nat n) else ""]) ∧
  (env_active env ≠ Some tabId → badge_texts (doScanForTab tabId now env st).1.2 = []) ∧
  (n = 0%nat →
   Forall (λ c, ∀ colour, c ≠ SetBadgeBackgroundColor colour)
     (doScanForTab tabId now env st).1.2).
Proof.
  intros Hout. destruct (doScanForTab_counted _ _ _ _ _ Hout) as [Hreach Hmatch].
  assert (badgeEnabled st = true) as Hb by apply Hreach.
  rewrite (doScanForTab_past_gate _ _ _ _ Hreach). unfold registryOf in Hmatch.
  pose proof (badge_texts_loadRegistry env st) as Hload.
  assert (Forall (λ c, ∀ colour, c ≠ SetBadgeBackgroundColor colour)
            (loadRegistry env st).2) as Hquiet.
  { unfold loadRegistry. destruct (scanStale _ _ _); [|by repeat constructor].
    destruct (fetchAndCacheSellers _ _ _ _ _) as [store fetched]. cbn [snd].
    do 2 (constructor; [done|]). unfold refreshCalls.
    destruct (String.eqb _ ""); [done|]. apply Forall_app. split.
    - apply Forall_map. by apply Forall_true.
    - destruct fetched; by repeat constructor. }
  destruct (loadRegistry env st) as [[registry store] calls]. cbn [fst snd] in *.
  rewrite Hmatch. cbn zeta. cbn [fst snd].
  rewrite badge_texts_app.
  change (badge_texts (TabsGet tabId :: ExecuteScript tabId :: calls)) with (badge_texts calls).
  rewrite Hload. cbn [app].
  change (badge_texts (TabsQuery :: ?l)) with (badge_texts l).
  unfold applyBadgeForTab. cbn [badgeEnabled with_counts with_storage with_lastScanAt
                                countsByTab].
  rewrite Hb, lookup_insert_eq. cbn [negb default from_option id].
  split; [|split].
  - intros Hactive. rewrite decide_True by done.
    assert ((Z.of_nat n >? 0) = (0 <? n)%nat) as ->.
    { destruct (Nat.ltb_spec 0 n).
      - apply Z.gtb_gt. lia.
      - rewrite Z.gtb_ltb. apply Z.ltb_ge. lia. }
    by destruct (negb (String.eqb _ "")).
  - intros Hactive. by rewrite decide_False by done.
  - intros ->. do 2 (constructor; [done|]). apply Forall_app. split; [done|].
    constructor; [done|]. case_decide; [|done]. cbn. by repeat constructor.
Qed.

Lemma X23_witness :
  (doScanForTab 7 100000 sample_env (initial sample_store)).2 = Counted 1 ∧
  badge_texts (doScanForTab 7 100000 sample_env (initial sample_store)).1.2 = ["1"].
Proof.
  split; [reflexivity|].
  by apply (proj1 (X23_badge_shows_the_count 7 100000 sample_env (initial sample_store) 1
                     eq_refl)).
Defined.

(** X24.  Coming back to a tab that was scanned less than a cooldown ago
    only redraws its badge: with immediate timing and no timeout pending
    for the tab, the activation leaves the state as it was and its calls
    are those of applyBadgeForTab for the count the tab has. *)
Theorem X24_activation_within_cooldown (tabId now : Z) (env : Env) (st : State) :
  badgeEnabled st = true → delayMs st = 0 →
  scheduledTimers st !! tabId = None →
  now - default 0 (lastScanAt st !! tabId) < SCAN_COOLDOWN_MS →
  onActivated tabId now env st = (st, applyBadgeForTab tabId st).
Proof.
  intros Hb Hms Hnone Hcool.
  unfold onActivated, scheduleScan, cancelScheduled.
  rewrite Hb, Hnone. cbn [negb]. rewrite Hb, Hms. cbn [negb].
  rewrite doScanForTab_skips by (by right). cbn. by rewrite app_nil_r.
Qed.

Lemma X24_witness :
  badgeEnabled (step (Activated 7) 100000 sample_env (initial sample_store)).1 = true ∧
  (onActivated 7 130000 sample_env
     (step (Activated 7) 100000 sample_env (initial sample_store)).1).2
  = [SetBadgeText "1"; SetBadgeBackgroundColor BADGE_BG_COLOR].
Proof.
  split; [reflexivity|].
  by rewrite (X24_activation_within_cooldown 7 130000 sample_env
                (step (Activated 7) 100000 sample_env (initial sample_store)).1)
    by by vm_compute.
Defined.

(** ** From the page to the count *)

Lemma strip_slash_slash (s : string) : strip_slash (s +:+ "/") = s.
Proof.
  induction s as [|c s IH]; [done|].
  change (String c s +:+ "/") with (String c (s +:+ "/")).
  change (strip_slash (String c (s +:+ "/")))
    with (if Ascii.eqb c "/" && String.eqb (s +:+ "/") "" then EmptyString
          else String c (strip_slash (s +:+ "/"))).
  rewrite IH. assert (String.eqb (s +:+ "/") "" = false) as ->; [by destruct s|].
  by rewrite andb_false_r.
Qed.

(** X25.  For an http or https origin written with a final slash, tryFetch
    asks for the file directly under the origin: the slash is not doubled.
    It yields the text only when the response is a success whose text can
    be read: a response that is not a success, a rejected fetch and a
    timeout all give [null].  For an origin that is not http or https it
    asks for nothing. *)
Theorem X25_tryFetch (origin name : string) (web : string → PageFetch) :
  (is_http_url origin = true →
   tryFetch (origin +:+ "/") name web = fetchWithTimeout (web (origin +:+ "/" +:+ name))) ∧
  (is_http_url origin = false → tryFetch origin name web = None) ∧
  (∀ o t, fetchWithTimeout o = Some t ↔ o = PageResponse true (Normal t)).
Proof.
  split; [|split].
  - intros Hhttp. unfold tryFetch. rewrite strip_slash_slash.
    assert (is_http_url (origin +:+ "/") = true) as ->; [|done].
    unfold is_http_url in *.
    assert (∀ p s t, String.prefix p s = true → String.prefix p (s +:+ t) = true) as Hpre.
    { clear. induction p as [|a p IH]; intros s t.
      - by destruct s, t.
      - destruct s as [|b s]; [done|]. intros H.
        change (String b s +:+ t) with (String b (s +:+ t)). cbn in *.
        destruct (Ascii.ascii_dec a b); [by apply IH|done]. }
    assert (lower (origin +:+ "/") = lower origin +:+ "/") as ->.
    { clear. induction origin as [|c s IH]; [done|].
      change (lower (String c s +:+ "/"))
        with (String (ascii_lower c) (lower (s +:+ "/"))).
      by rewrite IH. }
    apply orb_true_iff in Hhttp as [H|H]; apply orb_true_iff; [left|right]; by apply Hpre.
  - intros Hother. unfold tryFetch. by rewrite Hother.
  - intros o t. split; [|by intros ->].
    destruct o as [[] [t'|e]| |]; cbn; try done. by intros [= ->].
Qed.

Lemma X25_witness :
  is_http_url "https://example.com" = true ∧
  tryFetch "https://example.com/" "ads.txt" sample_web
  = Some "adwmg.com, 123, DIRECT".
Proof.
  split; [reflexivity|].
  exact (proj1 (X25_tryFetch "https://example.com" "ads.txt" sample_web) eq_refl).
Defined.

Lemma spec_match_strings (ids : list string) (R : list JsValue) :
  spec_match (map JStr ids) R
  = length (filter (λ id, id ∈ string_forms (map seller_id_of R)) ids).
Proof.
  unfold spec_match.
  assert (string_forms (map JStr ids) = ids) as ->; [|done].
  unfold string_forms. induction ids as [|id ids IH]; [done|]. cbn. by rewrite IH.
Qed.

(** X26.  From the page to the count: when the host hands back what the
    injected function resolved to, a scan that reaches the matcher over a
    registry it can read (seller records whose seller_id has a string
    form) returns the number of ids of the page (each id of ads.txt or
    app-ads.txt counted once) that are the string form of the seller_id of
    some record; over any other registry it throws a TypeError. *)
Theorem X26_page_to_count (tabId now : Z) (env : Env) (st : State) (origin : string)
    (web : string → PageFetch) :
  reaches_matcher tabId now env st →
  env_script env = injected (pageScript origin web) →
  (seller_records (registryOf env st) →
   (doScanForTab tabId now env st).2
   = Counted
       (length
          (filter (λ id, id ∈ string_forms (map seller_id_of (registryOf env st)))
             (mergeIds (tryFetch origin "ads.txt" web)
                (tryFetch origin "app-ads.txt" web))))) ∧
  (¬ seller_records (registryOf env st) →
   (doScanForTab tabId now env st).2 = Failed TypeError).
Proof.
  intros Hreach Hscript.
  assert (pageIdsOf env
          = map JStr (mergeIds (tryFetch origin "ads.txt" web)
                        (tryFetch origin "app-ads.txt" web))) as Hids.
  { unfold pageIdsOf. rewrite Hscript. unfold injected.
    by rewrite (executeExtract_result
                  [("frameId", JNum (NFin 0)); ("result", pageScript origin web)] []
                  [("ok", JBool true);
                   ("ids", JArr (map JStr (mergeIds (tryFetch origin "ads.txt" web)
                                             (tryFetch origin "app-ads.txt" web))))]
                  eq_refl eq_refl). }
  pose proof (doScanForTab_matcher _ _ _ _ Hreach) as Hscan. rewrite Hids in Hscan.
  assert (∀ l : list string, Forall (λ id, stringable id = true) (map JStr l)) as Hstr.
  { intros l. apply Forall_map. by apply Forall_true. }
  split.
  - intros Hrec. destruct Hscan as [(_ & -> & _)|[Hno _]].
    + by rewrite spec_match_strings.
    + destruct Hno. by split.
  - intros Hrec. by destruct Hscan as [[[Hyes _] _]|(_ & ? & _)].
Qed.

Lemma X26_witness :
  (doScanForTab 7 100000
     {| env_tab := env_tab sample_env;
        env_script := injected (pageScript "https://example.com" sample_web);
        env_now_stale := 100000; env_net := net_down; env_now_store := 100001;
        env_active := None |} (initial sample_store)).2 = Counted 1.
Proof.
  assert (reaches_matcher 7 100000
            {| env_tab := env_tab sample_env;
               env_script := injected (pageScript "https://example.com" sample_web);
               env_now_stale := 100000; env_net := net_down; env_now_store := 100001;
               env_active := None |} (initial sample_store)) as Hreach.
  { repeat split; by vm_compute. }
  rewrite (proj1 (X26_page_to_count 7 100000 _ (initial sample_store)
                    "https://example.com" sample_web Hreach eq_refl)).
  - reflexivity.
  - by repeat constructor.
Defined.
